(** * Media-Processor: the rendition pipeline of [server.js] and the key
      namer of [r2-client.js], embedded as executable definitions.

    The handlers of [server.js] are sequential [async] functions: every
    effect is awaited before the next statement runs.  They are written
    here in a state-and-exception monad over an explicit [World] (clock
    and random draws consumed, staging directory, objects put in the
    bucket).  What the imported libraries do (sharp, fluent-ffmpeg, the
    S3 client, [JSON.parse]) is not part of this repository: it is taken
    as the fields of an environment record [Env].  The limits that
    [server.js] sets on multer, and Node's [path] functions, are written
    out. *)

From Stdlib Require Import ZArith NArith Ascii String List Bool Lia.
From stdpp Require Import base option list strings gmap pretty.

Import ListNotations.
Local Open Scope string_scope.
Local Open Scope Z_scope.

(** ** Values of the host language *)

Module JS.

(** A number keeps the decimal it denotes, [(-1)^neg * mant * 10^exp10].
    The range of a double is represented, by [decimal] below; within
    that range the rounding to the nearest double is not. *)
Inductive number : Type :=
| NaN
| Infinity (neg : bool)
| Dec (neg : bool) (mant : N) (exp10 : Z).

Definition of_Z (z : Z) : number := Dec (z <? 0) (Z.to_N (Z.abs z)) 0.

(** [mant * 10^exp10] is at or above [2^1024 - 2^970], from where on a
    decimal rounds to an infinity. *)
Definition exceeds (mant : N) (exp10 : Z) : bool :=
  if 0 <=? exp10 then (2 ^ 1024 - 2 ^ 970 <=? mant * 10 ^ Z.to_N exp10)%N
  else ((2 ^ 1024 - 2 ^ 970) * 10 ^ Z.to_N (- exp10) <=? mant)%N.

(** [mant * 10^exp10] is at or below [2^-1075], up to where a decimal
    rounds to zero. *)
Definition vanishes (mant : N) (exp10 : Z) : bool :=
  if 0 <=? exp10 then (mant =? 0)%N
  else (mant * 2 ^ 1075 <=? 10 ^ Z.to_N (- exp10))%N.

(** The number that a decimal literal denotes. *)
Definition decimal (neg : bool) (mant : N) (exp10 : Z) : number :=
  if exceeds mant exp10 then Infinity neg
  else if vanishes mant exp10 then Dec neg 0 0
  else Dec neg mant exp10.

#[warnings="-register-all"]
Inductive value : Type :=
| Undefined
| Null
| Bool (b : bool)
| Num (n : number)
| Str (s : string)
| Arr (items : list value)
| Obj (fields : list (string * value)).

(** [ToBoolean]. *)
Definition truthy (v : value) : bool :=
  match v with
  | Undefined | Null => false
  | Bool b => b
  | Num NaN => false
  | Num (Infinity _) => true
  | Num (Dec _ m _) => negb (N.eqb m 0)
  | Str s => negb (String.eqb s "")
  | Arr _ | Obj _ => true
  end.

Fixpoint assoc (k : string) (fs : list (string * value)) : value :=
  match fs with
  | [] => Undefined
  | (k', v) :: rest => if String.eqb k k' then v else assoc k rest
  end.

(** [v.k] for a [v] that is neither [undefined] nor [null] (own data
    properties of an object; primitives and arrays have none of the
    names read in this program). *)
Definition get (v : value) (k : string) : value :=
  match v with
  | Obj fs => assoc k fs
  | _ => Undefined
  end.

(** [a || b]. *)
Definition or_else (a b : value) : value := if truthy a then a else b.

(** A destructuring default, [{ x = d }]: taken when [x] is undefined. *)
Definition or_default (v d : value) : value :=
  match v with
  | Undefined => d
  | _ => v
  end.

(** [o.k = v] on an object kept as its entries, in insertion order. *)
Fixpoint set_prop {A} (k : string) (v : A) (o : list (string * A)) : list (string * A) :=
  match o with
  | [] => [(k, v)]
  | (k', v') :: rest =>
      if String.eqb k k' then (k, v) :: rest else (k', v') :: set_prop k v rest
  end.

(** *** Text *)

Definition is_digit (c : ascii) : bool :=
  let n := N_of_ascii c in ((48 <=? n) && (n <=? 57))%N.

Definition digit_val (c : ascii) : N := (N_of_ascii c - 48)%N.

(** The white space that [parseInt] and [parseFloat] skip, as far as it
    is a single byte. *)
Definition is_space (c : ascii) : bool :=
  let n := N_of_ascii c in
  ((n =? 9) || (n =? 10) || (n =? 11) || (n =? 12) || (n =? 13) || (n =? 32))%N.

Fixpoint skip_spaces (s : string) : string :=
  match s with
  | String c rest => if is_space c then skip_spaces rest else s
  | EmptyString => s
  end.

(** Leading decimal digits: their value, how many there are, the rest. *)
Fixpoint digits (s : string) (acc : N) (count : nat) : N * nat * string :=
  match s with
  | String c rest =>
      if is_digit c then digits rest (acc * 10 + digit_val c)%N (S count)
      else (acc, count, s)
  | EmptyString => (acc, count, s)
  end.

Definition sign_of (s : string) : bool * string :=
  match s with
  | String "-" rest => (true, rest)
  | String "+" rest => (false, rest)
  | _ => (false, s)
  end.

(** The exponent part of a decimal literal: [e] or [E], a sign, digits.
    Without a digit the part does not belong to the literal. *)
Definition exponent (s : string) : Z :=
  match s with
  | String c rest =>
      if (Ascii.eqb c "e" || Ascii.eqb c "E")%bool then
        let '(neg, rest') := sign_of rest in
        let '(e, n, _) := digits rest' 0%N 0%nat in
        match n with
        | O => 0
        | _ => if neg then - Z.of_N e else Z.of_N e
        end
      else 0
  | EmptyString => 0
  end.

(** [parseFloat(s)]: the longest prefix of the trimmed text that is a
    decimal literal, [NaN] when there is none. *)
Definition parseFloat (s : string) : number :=
  let '(neg, body) := sign_of (skip_spaces s) in
  if String.prefix "Infinity" body then Infinity neg
  else
    let '(ip, ni, after_int) := digits body 0%N 0%nat in
    match after_int with
    | String "." frac =>
        let '(m, nf, after_frac) := digits frac ip 0%nat in
        match ni, nf with
        | O, O => NaN
        | _, _ => decimal neg m (exponent after_frac - Z.of_nat nf)
        end
    | _ =>
        match ni with
        | O => NaN
        | _ => decimal neg ip (exponent after_int)
        end
    end.

Definition hex_val (c : ascii) : option N :=
  let n := N_of_ascii c in
  if ((48 <=? n) && (n <=? 57))%N then Some (n - 48)%N
  else if ((97 <=? n) && (n <=? 102))%N then Some (n - 87)%N
  else if ((65 <=? n) && (n <=? 70))%N then Some (n - 55)%N
  else None.

Fixpoint hex_digits (s : string) (acc : N) (count : nat) : N * nat :=
  match s with
  | String c rest =>
      match hex_val c with
      | Some d => hex_digits rest (acc * 16 + d)%N (S count)
      | None => (acc, count)
      end
  | EmptyString => (acc, count)
  end.

(** [parseInt(s)] with no radix: base 16 after [0x] or [0X], base 10
    otherwise; [NaN] when no digit follows the sign. *)
Definition parseInt (s : string) : number :=
  let '(neg, body) := sign_of (skip_spaces s) in
  match body with
  | String "0" (String x rest) =>
      if (Ascii.eqb x "x" || Ascii.eqb x "X")%bool then
        let '(v, n) := hex_digits rest 0%N 0%nat in
        match n with O => NaN | _ => decimal neg v 0 end
      else
        let '(v, _, _) := digits body 0%N 0%nat in decimal neg v 0
  | _ =>
      let '(v, n, _) := digits body 0%N 0%nat in
      match n with O => NaN | _ => decimal neg v 0 end
  end.

(** [s.split(c)] for a one-character separator: never empty. *)
Fixpoint split (sep : ascii) (s : string) : list string :=
  match s with
  | EmptyString => [""]
  | String c rest =>
      if Ascii.eqb c sep then "" :: split sep rest
      else
        match split sep rest with
        | seg :: segs => String c seg :: segs
        | [] => [String c ""]
        end
  end.

(** [a.pop()] on a non-empty array: its last element. *)
Definition pop (segs : list string) : string := List.last segs "".

(** [s.endsWith(suffix)]. *)
Fixpoint ends_with (suffix s : string) : bool :=
  String.eqb suffix s
  || match s with
     | String _ rest => ends_with suffix rest
     | EmptyString => false
     end.

(** [s.includes(c)] for a character. *)
Fixpoint has_char (c : ascii) (s : string) : bool :=
  match s with
  | String x rest => Ascii.eqb x c || has_char c rest
  | EmptyString => false
  end.

(** [s.substr(start, len)]. *)
Definition substr (start len : nat) (s : string) : string :=
  String.substring start len s.

End JS.

(** ** Paths (the POSIX flavour of Node's [path] module) *)

Module Path.

(** Split at the last occurrence of [c]: what is before, what is after. *)
Fixpoint rsplit (c : ascii) (s : string) : option (string * string) :=
  match s with
  | EmptyString => None
  | String x rest =>
      match rsplit c rest with
      | Some (before, after) => Some (String x before, after)
      | None => if Ascii.eqb x c then Some ("", rest) else None
      end
  end.

Fixpoint strip_trailing_slashes (s : string) : string :=
  match s with
  | EmptyString => ""
  | String x rest =>
      match strip_trailing_slashes rest with
      | EmptyString => if Ascii.eqb x "/" then "" else String x ""
      | rest' => String x rest'
      end
  end.

(** [path.basename(p)]. *)
Definition basename (p : string) : string :=
  let p' := strip_trailing_slashes p in
  match rsplit "/" p' with
  | Some (_, name) => name
  | None => p'
  end.

(** [path.dirname(p)]: what stands before the last slash that has
    something other than slashes after it; that slash is looked for
    from the second character on, and nothing else is stripped. *)
Definition dirname (p : string) : string :=
  match strip_trailing_slashes p with
  | EmptyString => if String.prefix "/" p then "/" else "."
  | p' =>
      match rsplit "/" p' with
      | Some (dir, _) =>
          if String.eqb dir "" then "/"
          else if String.eqb dir "/" then "//"
          else dir
      | None => "."
      end
  end.

(** [path.extname(p)]: from the last dot of the base name to its end;
    empty when there is no dot, when the base name starts with its only
    dot, and for [..]. *)
Definition extname (p : string) : string :=
  let base := basename p in
  match rsplit "." base with
  | None => ""
  | Some (before, after) =>
      if String.eqb before "" then ""
      else if String.eqb base ".." then ""
      else String "." after
  end.

(** The segments that [normalizeString] keeps, [kept] holding the last
    one first: empty segments and [.] are dropped, [..] takes the
    segment before it away, or stays when there is none to take and the
    path is relative. *)
Fixpoint normalize_segments (allowAboveRoot : bool) (segments kept : list string)
    : list string :=
  match segments with
  | [] => rev kept
  | segment :: rest =>
      if (String.eqb segment "" || String.eqb segment ".")%bool then
        normalize_segments allowAboveRoot rest kept
      else if String.eqb segment ".." then
        match kept with
        | last :: front =>
            if String.eqb last ".." then
              normalize_segments allowAboveRoot rest
                (if allowAboveRoot then ".." :: kept else kept)
            else normalize_segments allowAboveRoot rest front
        | [] =>
            normalize_segments allowAboveRoot rest
              (if allowAboveRoot then [".."] else [])
        end
      else normalize_segments allowAboveRoot rest (segment :: kept)
  end.

(** [path.normalize(p)]. *)
Definition normalize (p : string) : string :=
  if String.eqb p "" then "."
  else
    let isAbsolute := String.prefix "/" p in
    let trailingSeparator := JS.ends_with "/" p in
    let path :=
      String.concat "/" (normalize_segments (negb isAbsolute) (JS.split "/" p) []) in
    if String.eqb path "" then
      if isAbsolute then "/" else if trailingSeparator then "./" else "."
    else
      let path := if trailingSeparator then path ++ "/" else path in
      if isAbsolute then "/" ++ path else path.

(** [path.join(dir, name)]: the arguments that are not empty, joined by
    a slash and normalized. *)
Definition join (dir name : string) : string :=
  if String.eqb dir "" then
    if String.eqb name "" then "." else normalize name
  else if String.eqb name "" then normalize dir
  else normalize (dir ++ "/" ++ name).

End Path.

(** ** Dates *)

Module Date.

(** The civil date of a day number counted from 1970-01-01. *)
Definition civil (day : Z) : Z * Z * Z :=
  let z := day + 719468 in
  let era := z / 146097 in
  let doe := z - era * 146097 in
  let yoe := (doe - doe / 1460 + doe / 36524 - doe / 146096) / 365 in
  let doy := doe - (365 * yoe + yoe / 4 - yoe / 100) in
  let mp := (5 * doy + 2) / 153 in
  let d := doy - (153 * mp + 2) / 5 + 1 in
  let m := if mp <? 10 then mp + 3 else mp - 9 in
  let y := yoe + era * 400 + (if m <=? 2 then 1 else 0) in
  (y, m, d).

(** A non-negative number in at least [width] digits. *)
Definition pad (width : nat) (n : Z) : string :=
  let text := pretty n in
  String.concat "" (repeat "0" (width - String.length text)) ++ text.

(** [new Date(ms).toISOString()] for a finite time value. *)
Definition toISOString (ms : Z) : string :=
  let '(y, m, d) := civil (ms / 86400000) in
  let t := ms mod 86400000 in
  let year := if ((0 <=? y) && (y <=? 9999))%bool then pad 4 y
              else (if y <? 0 then "-" else "+") ++ pad 6 (Z.abs y) in
  year ++ "-" ++ pad 2 m ++ "-" ++ pad 2 d ++ "T"
    ++ pad 2 (t / 3600000) ++ ":" ++ pad 2 (t / 60000 mod 60) ++ ":"
    ++ pad 2 (t / 1000 mod 60) ++ "." ++ pad 3 (t mod 1000) ++ "Z".

End Date.

(** ** The world outside the process *)

Definition bytes : Type := list Byte.byte.

(** The input of [PutObjectCommand]. *)
Record PutObject : Type := {
  Bucket : string;
  Key : string;
  Body : bytes;
  ContentType : string;
  Metadata : list (string * JS.value);
  CacheControl : string
}.

(** What the state of the outside world is made of: how often the clock
    and the random source were read, the files of the staging directory,
    and the objects put in the bucket, oldest first. *)
Record World : Type := {
  ticks : nat;
  draws : nat;
  files : gmap string bytes;
  bucket : list PutObject
}.

Definition set_ticks (n : nat) (w : World) : World :=
  {| ticks := n; draws := draws w; files := files w; bucket := bucket w |}.
Definition set_draws (n : nat) (w : World) : World :=
  {| ticks := ticks w; draws := n; files := files w; bucket := bucket w |}.
Definition set_files (f : gmap string bytes) (w : World) : World :=
  {| ticks := ticks w; draws := draws w; files := f; bucket := bucket w |}.
Definition set_bucket (b : list PutObject) (w : World) : World :=
  {| ticks := ticks w; draws := draws w; files := files w; bucket := b |}.

(** A call returns a value or throws an [Error] with a message. *)
Inductive outcome (A : Type) : Type :=
| Return (a : A)
| Throw (message : string).
Arguments Return {A} a.
Arguments Throw {A} message.

(** An awaited computation: it changes the world and returns or throws.
    The changes made before a throw stay. *)
Definition M (A : Type) : Type := World -> outcome A * World.

Definition ret {A} (a : A) : M A := fun w => (Return a, w).
Definition throw {A} (message : string) : M A := fun w => (Throw message, w).

Definition bind {A B} (m : M A) (k : A -> M B) : M B :=
  fun w =>
    match m w with
    | (Return a, w') => k a w'
    | (Throw e, w') => (Throw e, w')
    end.

(** [try { m } catch (error) { h(error.message) }]. *)
Definition try_catch {A} (m : M A) (h : string -> M A) : M A :=
  fun w =>
    match m w with
    | (Return a, w') => (Return a, w')
    | (Throw e, w') => h e w'
    end.

Notation "'let*' x ':=' m 'in' k" := (bind m (fun x => k))
  (at level 10, x pattern, m at level 100, k at level 200).
Notation "m ';;' k" := (bind m (fun _ => k))
  (at level 100, k at level 200, right associativity).

(** *** sharp *)

(** The calls chained on a sharp instance. *)
Inductive SharpOp : Type :=
| Resize (width height : JS.value) (fit : JS.value) (position : JS.value)
         (withoutEnlargement : JS.value)
| Jpeg (quality : JS.value).

(** [sharp(input)] followed by chained calls. *)
Record Sharp : Type := { sharp_input : bytes; sharp_ops : list SharpOp }.

(** *** fluent-ffmpeg *)

Record Screenshots : Type := {
  timestamps : list string;
  filename : string;
  folder : string;
  size : string
}.

(** What has been set on an ffmpeg command when [run()] is called. *)
Record Ffmpeg : Type := {
  input : string;
  videoCodec : string;
  videoBitrate : string;
  audioCodec : string;
  audioBitrate : string;
  screenshots : option Screenshots;
  output : string
}.

(** The argument of a [codecData] event, as far as it is read. *)
Record CodecData : Type := { duration : string }.

(** A run of a command: the [codecData] events it emits, the staging
    directory it leaves, and whether it ends ([None]) or reports an
    error. *)
Record FfmpegRun : Type := {
  codecData : list CodecData;
  files_after : gmap string bytes;
  error : option string
}.

(** *** The S3 client *)

Record PutObjectOutput : Type := { ETag : JS.value; ReplyMetadata : JS.value }.

(** ** What the libraries and the configuration are taken to be *)

Record Env : Type := {
  (** [__dirname] of [server.js] *)
  dirname__ : string;
  (** [r2Config] *)
  r2_bucket : string;
  r2_accountId : string;
  r2_publicUrl : option string;
  (** the reading of the clock at its n-th read, in milliseconds *)
  clock : nat -> Z;
  (** [Math.random().toString(36)] at the n-th draw *)
  random36 : nat -> string;
  (** [JSON.parse] *)
  JSON_parse : string -> outcome JS.value;
  (** [sharp(input)] checks its input when the instance is made:
      [Some message] when it throws *)
  sharp_refuses : bytes -> option string;
  (** sharp checks the arguments of a chained call when it is made:
      [Some message] when it throws *)
  sharp_rejects : SharpOp -> option string;
  (** [.toBuffer()] *)
  sharp_toBuffer : Sharp -> outcome bytes;
  (** [.run()] *)
  ffmpeg_run : Ffmpeg -> gmap string bytes -> FfmpegRun;
  (** [client.send(new PutObjectCommand(..))], given the earlier puts *)
  s3_send : list PutObject -> PutObject -> outcome PutObjectOutput
}.

(** ** Requests and responses *)

(** A file as multer hands it over. *)
Record File : Type := {
  originalname : string;
  mimetype : string;
  buffer : bytes
}.

(** What [uploadFile] returns. *)
Record UploadResult : Type := {
  success : bool;
  key : string;
  url : string;
  etag : JS.value;
  metadata : JS.value
}.

(** [{ size: size, ...result }]. *)
Record UploadEntry : Type := { entry_size : string; entry_result : UploadResult }.

Record ImageData : Type := {
  original : option UploadEntry;
  thumbnail : option UploadEntry;
  medium : option UploadEntry;
  large : option UploadEntry
}.

(** What [processVideo] resolves with. *)
Record ProcessedVideo : Type := { pv_duration : JS.value; pv_thumbnail : JS.value }.

(** What [processVideoFile] returns. *)
Record VideoFileData : Type := {
  vf_video : UploadResult;
  vf_thumbnail : UploadResult;
  vf_duration : JS.value
}.

(** The [data] of the answer of [/process-video]. *)
Record VideoData : Type := {
  vd_video : UploadResult;
  vd_thumbnail : option UploadResult;
  vd_duration : JS.value;
  vd_format : JS.value;
  vd_quality : JS.value
}.

(** One entry of [results] in [/batch-process]. *)
Inductive BatchItem : Type :=
| ImageItem (originalName : string) (data : ImageData)
| VideoItem (originalName : string) (data : VideoFileData)
| FailedItem (originalName : string) (error : string).

Definition item_name (r : BatchItem) : string :=
  match r with
  | ImageItem n _ | VideoItem n _ | FailedItem n _ => n
  end.

Definition item_success (r : BatchItem) : bool :=
  match r with
  | ImageItem _ _ | VideoItem _ _ => true
  | FailedItem _ _ => false
  end.

Record BatchData : Type := {
  total : nat;
  successful : nat;
  failed : nat;
  results : list BatchItem
}.

(** An answer: [res.json({ success: true, message, data })], or
    [res.status(code).json({ error, message })]. *)
Inductive Response (A : Type) : Type :=
| Ok (message : string) (data : A)
| Fail (status : nat) (error : string) (message : option string).
Arguments Ok {A} message data.
Arguments Fail {A} status error message.

(** The options of [processImage] and [processVideo]; a missing one is
    [undefined]. *)
Record ImageOptions : Type := {
  io_quality : JS.value;
  io_format : JS.value;
  io_resize : JS.value
}.

Record VideoOptions : Type := {
  vo_quality : JS.value;
  vo_format : JS.value;
  vo_generateThumbnail : JS.value;
  vo_thumbnailPath : option string
}.

(** The text fields of a multipart body, as far as a handler reads them. *)
Record Form : Type := {
  body_quality : option string;
  body_format : option string;
  body_resize : option string;
  body_generateThumbnail : option string
}.

(** A request after [authenticateToken]: the owner that the token
    names, the text fields, and what was uploaded. For the single-file
    endpoints this is the file that multer hands over, if any; for
    [/batch-process] these are the files as they were sent, which multer
    checks against its limits. *)
Record Request (F : Type) : Type := {
  req_userId : string;
  req_body : Form;
  req_upload : F
}.
Arguments req_userId {F} _.
Arguments req_body {F} _.
Arguments req_upload {F} _.

(** A form without any of these fields. *)
Definition no_fields : Form :=
  {| body_quality := None; body_format := None; body_resize := None;
     body_generateThumbnail := None |}.

Definition of_text (field : option string) : JS.value :=
  match field with
  | Some s => JS.Str s
  | None => JS.Undefined
  end.


(** ** Uploads and errors outside the handlers *)

(** The limits of [upload]: [fileSize: 100 * 1024 * 1024] and
    [files: 5]. *)
Definition limits_fileSize : Z := 100 * 1024 * 1024.
Definition limits_files : nat := 5.

(** [upload.array(field, maxCount)] on the files sent in the field:
    more files than [limits.files] or than [maxCount], or a file that
    reaches [limits.fileSize], make multer pass an error on; otherwise
    [req.files] holds the files that were sent. *)
Definition upload_array (maxCount : nat) (sent : list File) : outcome (list File) :=
  if (limits_files <? length sent)%nat then Throw "Too many files"
  else if (maxCount <? length sent)%nat then Throw "Unexpected field"
  else if forallb (fun file => Z.of_nat (length (buffer file)) <? limits_fileSize) sent
       then Return sent
       else Throw "File too large".

(** The error handler installed by [app.use((error, req, res, next) => ..)]:
    it answers every error passed on with the same body. *)
Definition error_handler {A} (error : string) : Response A :=
  Fail 500 "Internal server error" None.

(** ** The service *)

Section Service.

Context (env : Env).

(** *** Clock, random source and staging directory *)

(** [Date.now()]. *)
Definition Date_now : M Z :=
  fun w => (Return (clock env (ticks w)), set_ticks (S (ticks w)) w).

(** [new Date().toISOString()]. *)
Definition Date_toISOString : M string :=
  let* ms := Date_now in ret (Date.toISOString ms).

(** [Math.random().toString(36)]. *)
Definition Math_random36 : M string :=
  fun w => (Return (random36 env (draws w)), set_draws (S (draws w)) w).

(** [fs.mkdir(dir, { recursive: true })]: directories are not represented. *)
Definition fs_mkdir (dir : string) : M unit := ret tt.

(** [fs.writeFile(path, data)]. *)
Definition fs_writeFile (path : string) (data : bytes) : M unit :=
  fun w => (Return tt, set_files (<[path := data]> (files w)) w).

(** [fs.readFile(path)]. *)
Definition fs_readFile (path : string) : M bytes :=
  fun w =>
    match files w !! path with
    | Some data => (Return data, w)
    | None => (Throw ("ENOENT: no such file or directory, open '" ++ path ++ "'"), w)
    end.

(** [fs.unlink(path)]. *)
Definition fs_unlink (path : string) : M unit :=
  fun w =>
    match files w !! path with
    | Some _ => (Return tt, set_files (delete path (files w)) w)
    | None => (Throw ("ENOENT: no such file or directory, unlink '" ++ path ++ "'"), w)
    end.

(** *** [R2Service] *)

Definition getPublicUrl (key : string) : string :=
  let fallback := "https://" ++ r2_bucket env ++ "." ++ r2_accountId env
                    ++ ".r2.cloudflarestorage.com/" ++ key in
  match r2_publicUrl env with
  | Some u => if JS.truthy (JS.Str u) then u ++ "/" ++ key else fallback
  | None => fallback
  end.

Definition uploadFile (key : string) (fileBuffer : bytes) (contentType : string)
    (metadata : list (string * JS.value)) : M UploadResult :=
  fun w =>
    let command := {| Bucket := r2_bucket env; Key := key; Body := fileBuffer;
                      ContentType := contentType; Metadata := metadata;
                      CacheControl := "public, max-age=31536000" |} in
    match s3_send env (bucket w) command with
    | Return result =>
        (Return {| success := true; key := key; url := getPublicUrl key;
                   etag := ETag result; metadata := ReplyMetadata result |},
         set_bucket (bucket w ++ [command]) w)
    | Throw message => (Throw ("Failed to upload file: " ++ message), w)
    end.

(** [generateKey(type, userId, filename, timestamp = Date.now())]. *)
Definition generateKey (type userId filename : string) (timestamp : option Z) : M string :=
  let* timestamp := match timestamp with
                    | Some t => ret t
                    | None => Date_now
                    end in
  let extension := JS.pop (JS.split "." filename) in
  let* random := Math_random36 in
  let uniqueId := pretty timestamp ++ "-" ++ JS.substr 2 9 random in
  ret (if String.eqb type "avatar" then
         "avatars/user-" ++ userId ++ "/" ++ uniqueId ++ "." ++ extension
       else if String.eqb type "post" then
         "posts/post-" ++ userId ++ "/" ++ uniqueId ++ "." ++ extension
       else if String.eqb type "album" then
         "albums/album-" ++ userId ++ "/" ++ uniqueId ++ "." ++ extension
       else if String.eqb type "video" then
         "videos/post-" ++ userId ++ "/" ++ uniqueId ++ "." ++ extension
       else if String.eqb type "processed" then
         "processed/user-" ++ userId ++ "/" ++ uniqueId ++ "." ++ extension
       else if String.eqb type "temp" then
         "temp/uploads/" ++ uniqueId ++ "." ++ extension
       else
         "uploads/" ++ type ++ "/" ++ uniqueId ++ "." ++ extension).

(** *** sharp and ffmpeg calls *)

(** [sharp(input)]. *)
Definition sharp (input : bytes) : M Sharp :=
  match sharp_refuses env input with
  | Some message => throw message
  | None => ret {| sharp_input := input; sharp_ops := [] |}
  end.

(** A chained call: checked when made, then recorded. *)
Definition chain (inst : Sharp) (op : SharpOp) : M Sharp :=
  match sharp_rejects env op with
  | Some message => throw message
  | None => ret {| sharp_input := sharp_input inst; sharp_ops := sharp_ops inst ++ [op] |}
  end.

Definition toBuffer (inst : Sharp) : M bytes :=
  fun w => (sharp_toBuffer env inst, w).

Definition num (z : Z) : JS.value := JS.Num (JS.of_Z z).

(** *** Processing functions *)

Definition processImage (buffer : bytes) (options : ImageOptions)
    : M (list (string * bytes)) :=
  let quality := JS.or_default (io_quality options) (num 85) in
  let format := JS.or_default (io_format options) (JS.Str "jpeg") in
  let resize := io_resize options in
  let* sharpInstance := sharp buffer in
  (* Apply resize if specified *)
  let* sharpInstance :=
    if JS.truthy resize then
      chain sharpInstance
        (Resize (JS.get resize "width") (JS.get resize "height")
           (JS.or_else (JS.get resize "fit") (JS.Str "inside"))
           JS.Undefined (JS.Bool true))
    else ret sharpInstance in
  let results := [("original", buffer)] in
  (* Generate thumbnail *)
  let* thumbnailBuffer :=
    let* s := sharp buffer in
    let* s := chain s
                (Resize (num 300) (num 300) (JS.Str "cover") (JS.Str "center")
                   JS.Undefined) in
    let* s := chain s (Jpeg quality) in
    toBuffer s in
  let results := JS.set_prop "thumbnail" thumbnailBuffer results in
  (* Generate medium size *)
  let* mediumBuffer :=
    let* s := sharp buffer in
    let* s := chain s
                (Resize (num 800) JS.Null (JS.Str "inside") JS.Undefined
                   (JS.Bool true)) in
    let* s := chain s (Jpeg quality) in
    toBuffer s in
  let results := JS.set_prop "medium" mediumBuffer results in
  (* Generate large size *)
  let* largeBuffer :=
    let* s := sharp buffer in
    let* s := chain s
                (Resize (num 1200) JS.Null (JS.Str "inside") JS.Undefined
                   (JS.Bool true)) in
    let* s := chain s (Jpeg quality) in
    toBuffer s in
  let results := JS.set_prop "large" largeBuffer results in
  ret results.

(** The local [command] of [processVideo] at the time it is run. *)
Definition command (inputPath outputPath : string) (options : VideoOptions) : Ffmpeg :=
  let quality := JS.or_default (vo_quality options) (JS.Str "medium") in
  let generateThumbnail := JS.or_default (vo_generateThumbnail options) (JS.Bool true) in
  let thumbnailPath := vo_thumbnailPath options in
  {| input := inputPath;
     videoCodec := "libx264";
     videoBitrate :=
       match quality with
       | JS.Str "low" => "500k"
       | JS.Str "medium" => "1000k"
       | JS.Str "high" => "2000k"
       | _ => "1000k"
       end;
     audioCodec := "aac";
     audioBitrate := "128k";
     screenshots :=
       match thumbnailPath with
       | Some p =>
           if (JS.truthy generateThumbnail && JS.truthy (JS.Str p))%bool then
             Some {| timestamps := ["50%"];
                     filename := Path.basename p;
                     folder := Path.dirname p;
                     size := "320x240" |}
           else None
       | None => None
       end;
     output := outputPath |}.

Definition processVideo (inputPath outputPath : string) (options : VideoOptions)
    : M ProcessedVideo :=
  let generateThumbnail := JS.or_default (vo_generateThumbnail options) (JS.Bool true) in
  let thumbnailPath := vo_thumbnailPath options in
  fun w =>
    let run := ffmpeg_run env (command inputPath outputPath options) (files w) in
    (* Get video duration *)
    let duration :=
      fold_left (fun _ data => JS.Num (JS.parseFloat (duration data)))
        (codecData run) JS.Null in
    let w' := set_files (files_after run) w in
    match error run with
    | None =>
        (Return {| pv_duration := duration;
                   pv_thumbnail := if JS.truthy generateThumbnail
                                   then of_text thumbnailPath else JS.Null |}, w')
    | Some message => (Throw message, w')
    end.

(** [uploadResults.find(r => r.size === name)]. *)
Definition find_size (name : string) (uploadResults : list UploadEntry)
    : option UploadEntry :=
  List.find (fun r => String.eqb (entry_size r) name) uploadResults.

(** The loop [for (const [size, imageBuffer] of Object.entries(..))] of
    [processImageFile] and of [/process-image], which differ in the
    content type only. *)
Fixpoint upload_entries (entries : list (string * bytes)) (userId originalName : string)
    (timestamp : Z) (contentType : string) (uploadResults : list UploadEntry)
    : M (list UploadEntry) :=
  match entries with
  | [] => ret uploadResults
  | (size, imageBuffer) :: rest =>
      let* key := generateKey "processed" userId (size ++ "_" ++ originalName)
                    (Some timestamp) in
      let* processedAt := Date_toISOString in
      let* result := uploadFile key imageBuffer contentType
                       [("userId", JS.Str userId);
                        ("type", JS.Str "processed_image");
                        ("size", JS.Str size);
                        ("originalName", JS.Str originalName);
                        ("processedAt", JS.Str processedAt)] in
      upload_entries rest userId originalName timestamp contentType
        (uploadResults ++ [{| entry_size := size; entry_result := result |}])
  end.

Definition no_image_options : ImageOptions :=
  {| io_quality := JS.Undefined; io_format := JS.Undefined; io_resize := JS.Undefined |}.

Definition processImageFile (file : File) (userId : string) : M ImageData :=
  let* processedImages := processImage (buffer file) no_image_options in
  let* timestamp := Date_now in
  let* uploadResults :=
    upload_entries processedImages userId (originalname file) timestamp
      "image/jpeg" [] in
  ret {| original := find_size "original" uploadResults;
         thumbnail := find_size "thumbnail" uploadResults;
         medium := find_size "medium" uploadResults;
         large := find_size "large" uploadResults |}.

Fixpoint cleanupTempFiles (filePaths : list string) : M unit :=
  match filePaths with
  | [] => ret tt
  | filePath :: rest =>
      try_catch (fs_unlink filePath) (fun _ => ret tt) ;;
      cleanupTempFiles rest
  end.

Definition processVideoFile (file : File) (userId : string) : M VideoFileData :=
  let tempDir := Path.join (dirname__ env) "temp" in
  fs_mkdir tempDir ;;
  let* now := Date_now in
  let inputPath :=
    Path.join tempDir
      ("input_" ++ pretty now ++ "." ++ Path.extname (originalname file)) in
  let* now := Date_now in
  let outputPath := Path.join tempDir ("output_" ++ pretty now ++ ".mp4") in
  let* now := Date_now in
  let thumbnailPath := Path.join tempDir ("thumbnail_" ++ pretty now ++ ".jpg") in
  fs_writeFile inputPath (buffer file) ;;
  let* processedVideo :=
    processVideo inputPath outputPath
      {| vo_quality := JS.Undefined; vo_format := JS.Undefined;
         vo_generateThumbnail := JS.Bool true;
         vo_thumbnailPath := Some thumbnailPath |} in
  let* timestamp := Date_now in
  (* Upload processed video *)
  let* videoKey := generateKey "processed" userId
                     ("processed_" ++ originalname file) (Some timestamp) in
  let* videoBuffer := fs_readFile outputPath in
  let* processedAt := Date_toISOString in
  let* videoResult :=
    uploadFile videoKey videoBuffer "video/mp4"
      [("userId", JS.Str userId);
       ("type", JS.Str "processed_video");
       ("originalName", JS.Str (originalname file));
       ("duration", pv_duration processedVideo);
       ("processedAt", JS.Str processedAt)] in
  (* Upload thumbnail *)
  let* thumbnailKey := generateKey "processed" userId
                         ("thumbnail_" ++ originalname file) (Some timestamp) in
  let* thumbnailBuffer := fs_readFile thumbnailPath in
  let* processedAt := Date_toISOString in
  let* thumbnailResult :=
    uploadFile thumbnailKey thumbnailBuffer "image/jpeg"
      [("userId", JS.Str userId);
       ("type", JS.Str "video_thumbnail");
       ("originalName", JS.Str (originalname file));
       ("processedAt", JS.Str processedAt)] in
  cleanupTempFiles [inputPath; outputPath; thumbnailPath] ;;
  ret {| vf_video := videoResult;
         vf_thumbnail := thumbnailResult;
         vf_duration := pv_duration processedVideo |}.

(** *** Utility functions *)

Definition includes (items : list string) (x : string) : bool :=
  existsb (String.eqb x) items.

Definition isImage (mimetype : string) : bool :=
  includes ["image/jpeg"; "image/png"; "image/gif"; "image/webp"] mimetype.

Definition isVideo (mimetype : string) : bool :=
  includes ["video/mp4"; "video/webm"; "video/ogg"; "video/avi"; "video/mov"] mimetype.

(** *** Endpoints *)

(** A handler body inside [try { .. } catch (error) { res.status(500).. }]. *)
Definition handler {A} (body : M (Response A)) (error : string)
    : World -> Response A * World :=
  fun w =>
    match body w with
    | (Return response, w') => (response, w')
    | (Throw message, w') => (Fail 500 error (Some message), w')
    end.

(** [app.post('/process-image', ..)]. *)
Definition process_image (req : Request (option File))
    : World -> Response ImageData * World :=
  handler
    (match req_upload req with
     | None => ret (Fail 400 "No image file provided" None)
     | Some file =>
         let userId := req_userId req in
         (* parseInt(85), taken when the field is missing, is parseInt("85") *)
         let quality := default "85" (body_quality (req_body req)) in
         let format := default "jpeg" (body_format (req_body req)) in
         let resize := body_resize (req_body req) in
         (* Process image *)
         let* parsed :=
           match resize with
           | Some text =>
               if JS.truthy (JS.Str text) then (fun w => (JSON_parse env text, w))
               else ret JS.Null
           | None => ret JS.Null
           end in
         let* processedImages :=
           processImage (buffer file)
             {| io_quality := JS.Num (JS.parseInt quality);
                io_format := JS.Str format;
                io_resize := parsed |} in
         (* Upload to R2 *)
         let* timestamp := Date_now in
         let originalName := originalname file in
         let* uploadResults :=
           upload_entries processedImages userId originalName timestamp
             ("image/" ++ format) [] in
         ret (Ok "Image processed successfully"
                {| original := find_size "original" uploadResults;
                   thumbnail := find_size "thumbnail" uploadResults;
                   medium := find_size "medium" uploadResults;
                   large := find_size "large" uploadResults |})
     end)
    "Failed to process image".

(** [app.post('/process-video', ..)]. *)
Definition process_video (req : Request (option File))
    : World -> Response VideoData * World :=
  handler
    (match req_upload req with
     | None => ret (Fail 400 "No video file provided" None)
     | Some file =>
         let userId := req_userId req in
         let quality := default "medium" (body_quality (req_body req)) in
         let format := default "mp4" (body_format (req_body req)) in
         let generateThumbnail :=
           JS.or_default (of_text (body_generateThumbnail (req_body req)))
             (JS.Bool true) in
         (* Create temporary file for FFmpeg *)
         let tempDir := Path.join (dirname__ env) "temp" in
         fs_mkdir tempDir ;;
         let* now := Date_now in
         let inputPath :=
           Path.join tempDir
             ("input_" ++ pretty now ++ "." ++ Path.extname (originalname file)) in
         let* now := Date_now in
         let outputPath := Path.join tempDir ("output_" ++ pretty now ++ "." ++ format) in
         let* now := Date_now in
         let thumbnailPath := Path.join tempDir ("thumbnail_" ++ pretty now ++ ".jpg") in
         (* Write input file *)
         fs_writeFile inputPath (buffer file) ;;
         (* Process video *)
         let* processedVideo :=
           processVideo inputPath outputPath
             {| vo_quality := JS.Str quality; vo_format := JS.Str format;
                vo_generateThumbnail := generateThumbnail;
                vo_thumbnailPath := Some thumbnailPath |} in
         (* Upload to R2 *)
         let* timestamp := Date_now in
         let originalName := originalname file in
         (* Upload processed video *)
         let* videoKey := generateKey "processed" userId
                            ("processed_" ++ originalName) (Some timestamp) in
         let* videoBuffer := fs_readFile outputPath in
         let* processedAt := Date_toISOString in
         let* videoResult :=
           uploadFile videoKey videoBuffer ("video/" ++ format)
             [("userId", JS.Str userId);
              ("type", JS.Str "processed_video");
              ("originalName", JS.Str originalName);
              ("duration", pv_duration processedVideo);
              ("processedAt", JS.Str processedAt)] in
         (* Upload thumbnail if generated *)
         let* thumbnailResult :=
           if (JS.truthy (pv_thumbnail processedVideo)
               && JS.truthy generateThumbnail)%bool then
             let* thumbnailKey := generateKey "processed" userId
                                    ("thumbnail_" ++ originalName) (Some timestamp) in
             let* thumbnailBuffer := fs_readFile thumbnailPath in
             let* processedAt := Date_toISOString in
             let* result :=
               uploadFile thumbnailKey thumbnailBuffer "image/jpeg"
                 [("userId", JS.Str userId);
                  ("type", JS.Str "video_thumbnail");
                  ("originalName", JS.Str originalName);
                  ("processedAt", JS.Str processedAt)] in
             ret (Some result)
           else ret None in
         (* Clean up temporary files *)
         cleanupTempFiles [inputPath; outputPath; thumbnailPath] ;;
         ret (Ok "Video processed successfully"
                {| vd_video := videoResult;
                   vd_thumbnail := thumbnailResult;
                   vd_duration := pv_duration processedVideo;
                   vd_format := JS.Str format;
                   vd_quality := JS.Str quality |})
     end)
    "Failed to process video".

(** The body of the loop of [/batch-process]: the entry pushed for one file. *)
Definition batch_file (file : File) (userId : string) : M BatchItem :=
  try_catch
    (if isImage (mimetype file) then
       let* result := processImageFile file userId in
       ret (ImageItem (originalname file) result)
     else if isVideo (mimetype file) then
       let* result := processVideoFile file userId in
       ret (VideoItem (originalname file) result)
     else ret (FailedItem (originalname file) "Unsupported file type"))
    (fun message => ret (FailedItem (originalname file) message)).

(** [for (const file of req.files) { .. results.push(..) }]. *)
Fixpoint batch_files (files : list File) (userId : string) (results : list BatchItem)
    : M (list BatchItem) :=
  match files with
  | [] => ret results
  | file :: rest =>
      let* entry := batch_file file userId in
      batch_files rest userId (results ++ [entry])
  end.

(** [app.post('/batch-process', authenticateToken, upload.array('files', 10), ..)]:
    the handler runs when multer has accepted the files. *)
Definition batch_process (req : Request (list File))
    : World -> Response BatchData * World :=
  match upload_array 10 (req_upload req) with
  | Throw error => fun w => (error_handler error, w)
  | Return files =>
      handler
        (match files with
         | [] => ret (Fail 400 "No files provided" None)
         | _ :: _ =>
             let userId := req_userId req in
             let* results := batch_files files userId [] in
             ret (Ok "Batch processing completed"
                    {| total := length files;
                       successful :=
                         length (List.filter (fun r => item_success r) results);
                       failed :=
                         length (List.filter (fun r => negb (item_success r)) results);
                       results := results |})
         end)
        "Failed to process files"
  end.

End Service.

(** ** The rest of the storage service, and the token check *)

(** [a.join(sep)] on an array of strings. *)
Definition Array_join (sep : string) (parts : list string) : string :=
  String.concat sep parts.

(** [generateThumbnailKey(originalKey, size = 'thumbnail')]; [pop] takes
    the last part off [parts]. *)
Definition generateThumbnailKey (originalKey : string) (size : option string) : string :=
  let size := default "thumbnail" size in
  let parts := JS.split "." originalKey in
  let extension := JS.pop parts in
  let parts := removelast parts in
  let basePath := Array_join "." parts in
  basePath ++ "-" ++ size ++ "." ++ extension.

(** An element of the argument of [uploadFiles]; a missing [metadata]
    is the empty object. *)
Record UploadRequest : Type := {
  up_key : string;
  up_buffer : bytes;
  up_contentType : string;
  up_metadata : list (string * JS.value)
}.

(** An element of what [uploadFiles] returns: what [uploadFile]
    returned, or [{ success: false, key, error }]. *)
Inductive UploadOutcome : Type :=
| Uploaded (result : UploadResult)
| NotUploaded (key error : string).

Definition upload_success (r : UploadOutcome) : bool :=
  match r with
  | Uploaded result => success result
  | NotUploaded _ _ => false
  end.

Definition upload_key (r : UploadOutcome) : string :=
  match r with
  | Uploaded result => key result
  | NotUploaded key _ => key
  end.

Section Uploads.

Context (env : Env).

(** The loop of [uploadFiles]. *)
Fixpoint uploadFiles_from (files : list UploadRequest) (results : list UploadOutcome)
    : M (list UploadOutcome) :=
  match files with
  | [] => ret results
  | file :: rest =>
      let* entry :=
        try_catch
          (let* result := uploadFile env (up_key file) (up_buffer file)
                            (up_contentType file) (up_metadata file) in
           ret (Uploaded result))
          (fun message => ret (NotUploaded (up_key file) message)) in
      uploadFiles_from rest (results ++ [entry])
  end.

(** [uploadFiles(files)]. *)
Definition uploadFiles (files : list UploadRequest) : M (list UploadOutcome) :=
  uploadFiles_from files [].

End Uploads.

(** What [authenticateToken] does with a request: it answers, or it
    sets [req.user] and calls [next()]. *)
Inductive Authentication : Type :=
| Denied (status : nat) (error : string)
| Next (user : JS.value).

Section Authentication.

(** [jwt.verify(token, process.env.JWT_SECRET)]. *)
Context (jwt_verify : string -> outcome JS.value).

(** [authenticateToken], on the [authorization] header of the request. *)
Definition authenticateToken (authorization : option string) : Authentication :=
  let authHeader := of_text authorization in
  let token :=
    if JS.truthy authHeader then
      of_text (nth_error (JS.split " " (default "" authorization)) 1)
    else authHeader in
  if negb (JS.truthy token) then Denied 401 "Access token required"
  else
    match jwt_verify (match token with JS.Str t => t | _ => "" end) with
    | Return decoded => Next decoded
    | Throw _ => Denied 403 "Invalid token"
    end.

End Authentication.

(** ** Sample environments

    Instances of [Env] on which the service is run in the examples:
    libraries that succeed, and variants in which one of them fails. *)

Module Sample.

Definition is_positive_integer (v : JS.value) : bool :=
  match v with
  | JS.Num (JS.Dec false m 0) => negb (N.eqb m 0)
  | _ => false
  end.

(** sharp: a width and a height are missing or positive integers, a
    quality is an integer from 1 to 100. *)
Definition rejects (op : SharpOp) : option string :=
  match op with
  | Resize w h _ _ _ =>
      let absent v := match v with JS.Undefined | JS.Null => true | _ => false end in
      if negb (absent w || is_positive_integer w) then
        Some "Expected positive integer for width"
      else if negb (absent h || is_positive_integer h) then
        Some "Expected positive integer for height"
      else None
  | Jpeg (JS.Num (JS.Dec false m 0)) =>
      if ((1 <=? m) && (m <=? 100))%N then None
      else Some "Expected integer between 1 and 100 for quality"
  | Jpeg _ => Some "Expected integer between 1 and 100 for quality"
  end.

(** An encoder that marks its output with the box it was asked for. *)
Definition box_mark (op : SharpOp) : list Byte.byte :=
  match op with
  | Resize (JS.Num (JS.Dec _ 300 _)) _ _ _ _ => [Byte.x01]
  | Resize (JS.Num (JS.Dec _ 800 _)) _ _ _ _ => [Byte.x02]
  | Resize (JS.Num (JS.Dec _ 1200 _)) _ _ _ _ => [Byte.x03]
  | _ => []
  end.

Definition encode (inst : Sharp) : outcome bytes :=
  Return (concat (map box_mark (sharp_ops inst)) ++ sharp_input inst)%list.


(** A transcode that writes the output and the screenshot and reports
    the duration of the source as ffmpeg prints it. *)
Definition transcode (c : Ffmpeg) (staging : gmap string bytes) : FfmpegRun :=
  match staging !! input c with
  | None =>
      {| codecData := []; files_after := staging;
         error := Some ("ffmpeg exited with code 1: " ++ input c
                          ++ ": No such file or directory") |}
  | Some source =>
      let written := <[output c := Byte.x00 :: source]> staging in
      {| codecData := [{| duration := "00:01:30.25" |}];
         files_after :=
           match screenshots c with
           | Some shot =>
               <[Path.join (folder shot) (filename shot) := [Byte.xff]]> written
           | None => written
           end;
         error := None |}
  end.

(** A transcode that rejects its input and writes nothing. *)
Definition transcode_fails (c : Ffmpeg) (staging : gmap string bytes) : FfmpegRun :=
  {| codecData := []; files_after := staging;
     error := Some "ffmpeg exited with code 1: Invalid data found when processing input" |}.

(** A transcode that succeeds but takes no screenshot. *)
Definition transcode_no_shot (c : Ffmpeg) (staging : gmap string bytes) : FfmpegRun :=
  match staging !! input c with
  | None => transcode c staging
  | Some source =>
      {| codecData := [{| duration := "00:01:30.25" |}];
         files_after := <[output c := Byte.x00 :: source]> staging;
         error := None |}
  end.

Definition stored : PutObjectOutput :=
  {| ETag := JS.Str "9b2cf535f27731c974343645a3985328"; ReplyMetadata := JS.Undefined |}.

(** A bucket that accepts every object. *)
Definition put (earlier : list PutObject) (c : PutObject) : outcome PutObjectOutput :=
  Return stored.

(** A bucket that refuses the objects tagged as video thumbnails. *)
Definition put_no_thumbnail (earlier : list PutObject) (c : PutObject)
    : outcome PutObjectOutput :=
  match JS.assoc "type" (Metadata c) with
  | JS.Str "video_thumbnail" => Throw "Access Denied"
  | _ => Return stored
  end.


Definition quote : string := String (ascii_of_nat 34) "".

(** The text of a resize override, [{"width":640,"height":480}]. *)
Definition resize_text : string :=
  "{" ++ quote ++ "width" ++ quote ++ ":640," ++ quote ++ "height" ++ quote ++ ":480}".

(** [JSON.parse] on the texts used below. *)
Definition parse (text : string) : outcome JS.value :=
  if String.eqb text resize_text then
    Return (JS.Obj [("width", JS.Num (JS.of_Z 640)); ("height", JS.Num (JS.of_Z 480))])
  else if String.eqb text "null" then Return JS.Null
  else Throw "Unexpected token in JSON".

Definition make (encoder : Sharp -> outcome bytes)
    (ffmpeg : Ffmpeg -> gmap string bytes -> FfmpegRun)
    (s3 : list PutObject -> PutObject -> outcome PutObjectOutput) : Env :=
  {| dirname__ := "/app/media-processor";
     r2_bucket := "vibecircles-media";
     r2_accountId := "0123456789abcdef";
     r2_publicUrl := Some "https://media.vibecircles.example";
     clock := fun n => 1700000000000 + Z.of_nat n;
     random36 := fun n => "0." ++ pretty n ++ "k3x9q7w1zab";
     JSON_parse := parse;
     sharp_refuses := fun input =>
       match input with
       | [] => Some "Input Buffer is empty"
       | _ => None
       end;
     sharp_rejects := rejects;
     sharp_toBuffer := encoder;
     ffmpeg_run := ffmpeg;
     s3_send := s3 |}.

(** Every library succeeds. *)
Definition env : Env := make encode transcode put.

Definition start : World := {| ticks := 0; draws := 0; files := ∅; bucket := [] |}.

Definition photo : File :=
  {| originalname := "cat.png"; mimetype := "image/png";
     buffer := [Byte.x89; Byte.x50; Byte.x4e; Byte.x47] |}.

Definition clip : File :=
  {| originalname := "clip.mp4"; mimetype := "video/mp4";
     buffer := [Byte.x00; Byte.x00; Byte.x00; Byte.x18] |}.

Definition letter : File :=
  {| originalname := "letter.pdf"; mimetype := "application/pdf";
     buffer := [Byte.x25; Byte.x50; Byte.x44; Byte.x46] |}.

(** A profile with a quality and a resize override. *)
Definition override : ImageOptions :=
  {| io_quality := JS.Num (JS.of_Z 70);
     io_format := JS.Str "webp";
     io_resize := JS.Obj [("width", JS.Num (JS.of_Z 640));
                          ("height", JS.Num (JS.of_Z 480));
                          ("fit", JS.Str "contain")] |}.

(** What the sample encoder makes of [photo]. *)
Definition renditions : list (string * bytes) :=
  [("original", buffer photo);
   ("thumbnail", Byte.x01 :: buffer photo);
   ("medium", Byte.x02 :: buffer photo);
   ("large", Byte.x03 :: buffer photo)].

(** A staging directory that holds one source file. *)
Definition staged : World :=
  {| ticks := 0; draws := 0;
     files := {[ "/app/media-processor/temp/input_1.mp4" := buffer clip ]};
     bucket := [] |}.

(** Options that ask for no screenshot. *)
Definition plain : VideoOptions :=
  {| vo_quality := JS.Str "high"; vo_format := JS.Str "mp4";
     vo_generateThumbnail := JS.Bool false; vo_thumbnailPath := None |}.

Definition request {F} (upload : F) : Request F :=
  {| req_userId := "42"; req_body := no_fields; req_upload := upload |}.

(** A request for [photo] with a quality and a resize override. *)
Definition resized : Request (option File) :=
  {| req_userId := "42";
     req_body := {| body_quality := Some "85"; body_format := None;
                    body_resize := Some resize_text;
                    body_generateThumbnail := None |};
     req_upload := Some photo |}.

End Sample.

(** ** Observations

    What the statements below read off objects and answers. *)

(** The size tag and the type tag of an object put in the bucket. *)
Definition size_tag (c : PutObject) : JS.value := JS.assoc "size" (Metadata c).
Definition type_tag (c : PutObject) : JS.value := JS.assoc "type" (Metadata c).

(** The four image derivatives, as the size tags of their objects. *)
Definition image_sizes : list JS.value :=
  [JS.Str "original"; JS.Str "thumbnail"; JS.Str "medium"; JS.Str "large"].

(** An upload result is present under a size and reports success. *)
Definition uploaded (name : string) (e : option UploadEntry) : Prop :=
  exists entry,
    e = Some entry /\ entry_size entry = name /\ success (entry_result entry) = true.

(** All four derivatives of an image are present and report success. *)
Definition complete (data : ImageData) : Prop :=
  uploaded "original" (original data)
  /\ uploaded "thumbnail" (thumbnail data)
  /\ uploaded "medium" (medium data)
  /\ uploaded "large" (large data).

(** The answer that a single-file endpoint makes of what a processing
    function returns or throws. *)
Definition answer {A B} (message error : string) (convert : A -> B)
    (r : outcome A * World) : Response B * World :=
  match r with
  | (Return a, w) => (Ok message (convert a), w)
  | (Throw e, w) => (Fail 500 error (Some e), w)
  end.

(** The data of [/process-video] for what [processVideoFile] returns. *)
Definition video_data (d : VideoFileData) : VideoData :=
  {| vd_video := vf_video d;
     vd_thumbnail := Some (vf_thumbnail d);
     vd_duration := vf_duration d;
     vd_format := JS.Str "mp4";
     vd_quality := JS.Str "medium" |}.

(** The staging paths that a video call names, from the three readings
    of the clock that it takes when it starts in the state [w]. *)
Definition staged_input (env : Env) (file : File) (w : World) : string :=
  Path.join (Path.join (dirname__ env) "temp")
    ("input_" ++ pretty (clock env (ticks w)) ++ "."
       ++ Path.extname (originalname file)).

Definition staged_output (env : Env) (format : string) (w : World) : string :=
  Path.join (Path.join (dirname__ env) "temp")
    ("output_" ++ pretty (clock env (S (ticks w))) ++ "." ++ format).

Definition staged_thumbnail (env : Env) (w : World) : string :=
  Path.join (Path.join (dirname__ env) "temp")
    ("thumbnail_" ++ pretty (clock env (S (S (ticks w)))) ++ ".jpg").

(** The options that [processVideoFile] passes to [processVideo], and
    those that [/process-video] makes of the form of a request. *)
Definition batch_video_options (env : Env) (w : World) : VideoOptions :=
  {| vo_quality := JS.Undefined; vo_format := JS.Undefined;
     vo_generateThumbnail := JS.Bool true;
     vo_thumbnailPath := Some (staged_thumbnail env w) |}.

Definition form_video_options (env : Env) (form : Form) (w : World) : VideoOptions :=
  {| vo_quality := JS.Str (default "medium" (body_quality form));
     vo_format := JS.Str (default "mp4" (body_format form));
     vo_generateThumbnail :=
       JS.or_default (of_text (body_generateThumbnail form)) (JS.Bool true);
     vo_thumbnailPath := Some (staged_thumbnail env w) |}.

(** The transcode of a video call that starts in the state [w]: the
    command made of the options, run on the staging directory in which
    the input has been written. *)
Definition video_run (env : Env) (file : File) (options : VideoOptions)
    (format : string) (w : World) : FfmpegRun :=
  ffmpeg_run env
    (command (staged_input env file w) (staged_output env format w) options)
    (<[staged_input env file w := buffer file]> (files w)).

(** The message of a failed [fs.readFile]. *)
Definition ENOENT (path : string) : string :=
  "ENOENT: no such file or directory, open '" ++ path ++ "'".






(** What the duration of a run is reported as. *)
Definition reported_duration (run : FfmpegRun) : JS.value :=
  match last (codecData run) with
  | Some data => JS.Num (JS.parseFloat (duration data))
  | None => JS.Null
  end.


(** The thumbnail of a video was read back from the staging directory
    and stored right after the video. *)
Definition thumbnail_stored (env : Env) (w : World) (staging : gmap string bytes)
    (thumbnailPath : string) (w' : World) : Prop :=
  exists shot videoPut thumbnailPut reply,
    staging !! thumbnailPath = Some shot
    /\ bucket w' = (bucket w ++ [videoPut; thumbnailPut])%list
    /\ type_tag videoPut = JS.Str "processed_video"
    /\ type_tag thumbnailPut = JS.Str "video_thumbnail"
    /\ Body thumbnailPut = shot
    /\ s3_send env (bucket w ++ [videoPut])%list thumbnailPut = Return reply.

(** Why a video whose transcode succeeded failed with the error [e]:
    the output could not be read, the store refused the video, the
    screenshot could not be read after the video was stored, or the
    store refused the thumbnail after the video was stored. *)
Definition video_failure (env : Env) (w : World) (staging : gmap string bytes)
    (outputPath thumbnailPath : string) (e : string) (w' : World) : Prop :=
  (staging !! outputPath = None /\ e = ENOENT outputPath /\ bucket w' = bucket w)
  \/ (exists body videoPut message,
        staging !! outputPath = Some body
        /\ Body videoPut = body
        /\ type_tag videoPut = JS.Str "processed_video"
        /\ s3_send env (bucket w) videoPut = Throw message
        /\ e = "Failed to upload file: " ++ message
        /\ bucket w' = bucket w)
  \/ (exists videoPut,
        type_tag videoPut = JS.Str "processed_video"
        /\ bucket w' = (bucket w ++ [videoPut])%list
        /\ staging !! thumbnailPath = None
        /\ e = ENOENT thumbnailPath)
  \/ (exists videoPut shot thumbnailPut message,
        type_tag videoPut = JS.Str "processed_video"
        /\ bucket w' = (bucket w ++ [videoPut])%list
        /\ staging !! thumbnailPath = Some shot
        /\ Body thumbnailPut = shot
        /\ type_tag thumbnailPut = JS.Str "video_thumbnail"
        /\ s3_send env (bucket w ++ [videoPut])%list thumbnailPut = Throw message
        /\ e = "Failed to upload file: " ++ message).

(** The key of the video of a batch entry, if it has one. *)
Definition video_key (r : BatchItem) : option string :=
  match r with
  | VideoItem _ d => Some (key (vf_video d))
  | _ => None
  end.


(** * Properties *)

(** ** Running the samples *)

Example parseFloat_plain : JS.parseFloat "120.5" = JS.Dec false 1205 (-1).
Proof. reflexivity. Qed.

Example parseFloat_clock : JS.parseFloat "00:02:00.50" = JS.Dec false 0 0.
Proof. reflexivity. Qed.

Example parseFloat_none : JS.parseFloat "N/A" = JS.NaN.
Proof. reflexivity. Qed.

Example parseInt_quality : JS.parseInt "85" = JS.of_Z 85.
Proof. reflexivity. Qed.

Example split_photo : JS.split "." "my.photo.png" = ["my"; "photo"; "png"].
Proof. reflexivity. Qed.

Example extname_clip : Path.extname "clip.mp4" = ".mp4".
Proof. reflexivity. Qed.

Example toISOString_sample : Date.toISOString 1700000000000 = "2023-11-14T22:13:20.000Z".
Proof. vm_compute. reflexivity. Qed.

Example batch_of_three :
  exists data w',
    batch_process Sample.env
      (Sample.request [Sample.photo; Sample.letter; Sample.clip]) Sample.start
    = (Ok "Batch processing completed" data, w')
    /\ map item_success (results data) = [true; false; true]
    /\ (total data, successful data, failed data) = (3, 2, 1)%nat
    /\ map size_tag (bucket w')
       = (image_sizes ++ [JS.Undefined; JS.Undefined])%list
    /\ files w' = ∅.
Proof.
  eexists _, _. split; [vm_compute; reflexivity |].
  split; [reflexivity |]. split; [reflexivity |]. split; [reflexivity |].
  vm_compute. reflexivity.
Qed.

Example resize_override_changes_nothing :
  process_image Sample.env Sample.resized Sample.start
  = process_image Sample.env (Sample.request (Some Sample.photo)) Sample.start.
Proof. vm_compute. reflexivity. Qed.

(** ** The monad *)

Lemma bind_Return {A B} (m : M A) (k : A -> M B) w b w' :
  bind m k w = (Return b, w') ->
  exists a w1, m w = (Return a, w1) /\ k a w1 = (Return b, w').
Proof.
  unfold bind. destruct (m w) as [[a | e] w1]; intros H.
  - exists a, w1. split; [reflexivity | exact H].
  - discriminate H.
Qed.

Lemma bind_Throw {A B} (m : M A) (k : A -> M B) w e w' :
  bind m k w = (Throw e, w') ->
  m w = (Throw e, w') \/
  exists a w1, m w = (Return a, w1) /\ k a w1 = (Throw e, w').
Proof.
  unfold bind. destruct (m w) as [[a | e1] w1]; intros H.
  - right. exists a, w1. split; [reflexivity | exact H].
  - left. inversion H. reflexivity.
Qed.

(** ** The key namer *)

Lemma ends_with_app suffix stem : JS.ends_with suffix (stem ++ suffix) = true.
Proof.
  induction stem as [| c stem IH].
  - change ("" ++ suffix) with suffix.
    destruct suffix; cbn [JS.ends_with]; rewrite String.eqb_refl; reflexivity.
  - change (String c stem ++ suffix) with (String c (stem ++ suffix)).
    cbn [JS.ends_with]. rewrite IH. apply orb_true_r.
Qed.

Lemma split_without_separator sep s :
  JS.has_char sep s = false -> JS.split sep s = [s].
Proof.
  induction s as [| c s IH]; simpl; intros H.
  - reflexivity.
  - apply orb_false_elim in H as [Hc Hs].
    rewrite Hc, (IH Hs). reflexivity.
Qed.

Lemma append_assoc (a b c : string) : (a ++ b) ++ c = a ++ b ++ c.
Proof.
  induction a as [| x a IH]; [reflexivity |].
  change (String x ((a ++ b) ++ c) = String x (a ++ b ++ c)).
  rewrite IH. reflexivity.
Qed.

Lemma generateKey_shape env type userId filename timestamp w :
  exists stem w',
    generateKey env type userId filename timestamp w
    = (Return (stem ++ "." ++ JS.pop (JS.split "." filename)), w').
Proof.
  unfold generateKey, bind, ret, Math_random36, Date_now.
  destruct timestamp as [t |]; cbv beta iota;
    repeat match goal with
      | |- context [if ?b then _ else _] => destruct b
      end;
    match goal with
    | |- exists _ _, (Return (?a ++ ?b ++ ?c ++ ?d ++ "." ++ ?x), ?w1) = _ =>
        exists (a ++ b ++ c ++ d), w1; rewrite !append_assoc; reflexivity
    | |- exists _ _, (Return (?a ++ ?d ++ "." ++ ?x), ?w1) = _ =>
        exists (a ++ d), w1; rewrite !append_assoc; reflexivity
    end.
Qed.

(** C6 (amended). Key generation never raises, and the key it returns
    ends with a dot followed by the last dot-separated segment of the
    filename. For a filename without a dot that segment is the whole
    filename: no other token stands in for a missing extension. *)
Theorem generateKey_extension env type userId filename timestamp w :
  exists key w',
    generateKey env type userId filename timestamp w = (Return key, w')
    /\ JS.ends_with ("." ++ JS.pop (JS.split "." filename)) key = true
    /\ (JS.has_char "." filename = false ->
        JS.ends_with ("." ++ filename) key = true).
Proof.
  destruct (generateKey_shape env type userId filename timestamp w)
    as (stem & w' & Hkey).
  exists (stem ++ "." ++ JS.pop (JS.split "." filename)), w'.
  split; [exact Hkey |]. split.
  - apply ends_with_app.
  - intros Hdot. rewrite (split_without_separator _ _ Hdot).
    apply ends_with_app.
Qed.

Lemma generateKey_extension_witness :
  exists key w',
    generateKey Sample.env "processed" "42" "README" (Some 1700000000000) Sample.start
    = (Return key, w')
    /\ JS.ends_with ".README" key = true.
Proof.
  destruct (generateKey_extension Sample.env "processed" "42" "README"
              (Some 1700000000000) Sample.start) as (key & w' & Hkey & _ & Hwhole).
  exists key, w'. split; [exact Hkey | apply Hwhole; reflexivity].
Defined.

(** C6, as stated, fails: the key of the dotless filename [README] ends
    with [.README], not with an [unknown] token. *)
Lemma generateKey_no_unknown_token :
  JS.has_char "." "README" = false
  /\ exists w',
       generateKey Sample.env "processed" "42" "README" (Some 1700000000000) Sample.start
       = (Return "processed/user-42/1700000000000-0k3x9q7w1.README", w')
       /\ JS.ends_with ".unknown" "processed/user-42/1700000000000-0k3x9q7w1.README"
          = false.
Proof.
  split; [reflexivity |]. eexists. split; vm_compute; reflexivity.
Qed.

(** C10. Two filenames with the same last dot-separated segment get the
    same key when the kind, the owner, the timestamp and the state of
    the random source are the same: the key depends on the filename
    through that segment only. *)
Theorem generateKey_same_extension env type userId filename1 filename2 timestamp w :
  JS.pop (JS.split "." filename1) = JS.pop (JS.split "." filename2) ->
  generateKey env type userId filename1 timestamp w
  = generateKey env type userId filename2 timestamp w.
Proof.
  intros Hext. unfold generateKey. rewrite Hext. reflexivity.
Qed.

Lemma generateKey_same_extension_witness :
  generateKey Sample.env "processed" "42" "holiday.2023.png" None Sample.start
  = generateKey Sample.env "processed" "42" "x.png" None Sample.start.
Proof.
  apply (generateKey_same_extension Sample.env "processed" "42"
           "holiday.2023.png" "x.png" None Sample.start).
  reflexivity.
Defined.

(** ** Image renditions *)

(** Take a returning [let*] apart into its two halves. *)
Ltac bind_inv H :=
  let a := fresh "a" in
  let w := fresh "w" in
  let H1 := fresh H "_head" in
  apply bind_Return in H as (a & w & H1 & H).

Lemma ret_Return {A} (a b : A) w w' : ret a w = (Return b, w') -> b = a /\ w' = w.
Proof. unfold ret. intros H. inversion H. split; reflexivity. Qed.

Lemma chain_Return env inst op w s w' :
  chain env inst op w = (Return s, w') ->
  sharp_rejects env op = None
  /\ s = {| sharp_input := sharp_input inst; sharp_ops := sharp_ops inst ++ [op] |}
  /\ w' = w.
Proof.
  unfold chain. destruct (sharp_rejects env op); intros H.
  - discriminate H.
  - apply ret_Return in H as [-> ->]. repeat split.
Qed.

(** One rendition: a resize, the encoding, the output. *)
Lemma sharp_Return env input w s w' :
  sharp env input w = (Return s, w') ->
  s = {| sharp_input := input; sharp_ops := [] |} /\ w' = w.
Proof.
  unfold sharp. destruct (sharp_refuses env input); intros H.
  - discriminate H.
  - apply ret_Return in H as [-> ->]. split; reflexivity.
Qed.

Lemma rendition_Return env buffer op quality w b w' :
  (let* s := sharp env buffer in
   let* s := chain env s op in
   let* s := chain env s (Jpeg quality) in
   toBuffer env s) w = (Return b, w') ->
  sharp_toBuffer env {| sharp_input := buffer; sharp_ops := [op; Jpeg quality] |}
  = Return b
  /\ w' = w.
Proof.
  intros H. bind_inv H. bind_inv H. bind_inv H.
  apply sharp_Return in H_head as (-> & ->).
  apply chain_Return in H_head0 as (_ & -> & ->).
  apply chain_Return in H_head1 as (_ & -> & ->).
  unfold toBuffer in H. simpl in H. inversion H. split; reflexivity.
Qed.

(** What [processImage] returns when it returns. *)
Lemma processImage_Return env buffer options w results w' :
  processImage env buffer options w = (Return results, w') ->
  let quality := JS.or_default (io_quality options) (num 85) in
  exists thumbnailBuffer mediumBuffer largeBuffer,
    sharp_toBuffer env
      {| sharp_input := buffer;
         sharp_ops := [Resize (num 300) (num 300) (JS.Str "cover") (JS.Str "center")
                         JS.Undefined;
                       Jpeg quality] |} = Return thumbnailBuffer
    /\ sharp_toBuffer env
         {| sharp_input := buffer;
            sharp_ops := [Resize (num 800) JS.Null (JS.Str "inside") JS.Undefined
                            (JS.Bool true);
                          Jpeg quality] |} = Return mediumBuffer
    /\ sharp_toBuffer env
         {| sharp_input := buffer;
            sharp_ops := [Resize (num 1200) JS.Null (JS.Str "inside") JS.Undefined
                            (JS.Bool true);
                          Jpeg quality] |} = Return largeBuffer
    /\ results = [("original", buffer); ("thumbnail", thumbnailBuffer);
                  ("medium", mediumBuffer); ("large", largeBuffer)]
    /\ w' = w.
Proof.
  intros H. cbv zeta. unfold processImage in H.
  bind_inv H. apply sharp_Return in H_head as (-> & ->).
  bind_inv H.
  assert (w0 = w) as ->.
  { destruct (JS.truthy (io_resize options)).
    - apply chain_Return in H_head as (_ & _ & ->). reflexivity.
    - apply ret_Return in H_head as [_ ->]. reflexivity. }
  clear H_head.
  bind_inv H. apply rendition_Return in H_head as [Ht ->].
  bind_inv H. apply rendition_Return in H_head as [Hm ->].
  bind_inv H. apply rendition_Return in H_head as [Hl ->].
  apply ret_Return in H as [-> ->].
  exists a0, a1, a2. repeat split; assumption.
Qed.

Lemma processImage_without_resize env buffer options w results w' :
  processImage env buffer options w = (Return results, w') ->
  processImage env buffer
    {| io_quality := io_quality options; io_format := io_format options;
       io_resize := JS.Undefined |} w = (Return results, w').
Proof.
  intros H. unfold processImage in H.
  bind_inv H. pose proof H_head as Hopen. apply sharp_Return in H_head as (-> & ->).
  bind_inv H.
  assert (w0 = w) as ->.
  { destruct (JS.truthy (io_resize options)).
    - apply chain_Return in H_head as (_ & _ & ->). reflexivity.
    - apply ret_Return in H_head as [_ ->]. reflexivity. }
  unfold processImage. unfold bind at 1. rewrite Hopen.
  cbn [io_resize JS.truthy]. unfold bind at 1. cbn [ret]. exact H.
Qed.

(** C5. Whatever the quality, the format and the resize override of the
    profile, an image that is processed yields the derivatives original,
    thumbnail, medium and large, in this order; the thumbnail is what
    the encoder returns for a 300 by 300 cover-fit centred resize of the
    input, and the resize override changes nothing of the result. *)
Theorem processImage_derivatives env buffer options w results w' :
  processImage env buffer options w = (Return results, w') ->
  map fst results = ["original"; "thumbnail"; "medium"; "large"]
  /\ (exists thumbnailBuffer,
        In ("thumbnail", thumbnailBuffer) results
        /\ sharp_toBuffer env
             {| sharp_input := buffer;
                sharp_ops :=
                  [Resize (num 300) (num 300) (JS.Str "cover") (JS.Str "center")
                     JS.Undefined;
                   Jpeg (JS.or_default (io_quality options) (num 85))] |}
           = Return thumbnailBuffer)
  /\ processImage env buffer
       {| io_quality := io_quality options; io_format := io_format options;
          io_resize := JS.Undefined |} w = (Return results, w').
Proof.
  intros H. split; [| split].
  - apply processImage_Return in H as (t & m & l & _ & _ & _ & -> & _). reflexivity.
  - apply processImage_Return in H as (t & m & l & Ht & _ & _ & -> & _).
    exists t. split; [| exact Ht]. right. left. reflexivity.
  - apply processImage_without_resize. exact H.
Qed.

Lemma processImage_derivatives_witness :
  map fst Sample.renditions = ["original"; "thumbnail"; "medium"; "large"]
  /\ processImage Sample.env (buffer Sample.photo)
       {| io_quality := io_quality Sample.override;
          io_format := io_format Sample.override;
          io_resize := JS.Undefined |} Sample.start
     = (Return Sample.renditions, Sample.start).
Proof.
  destruct (processImage_derivatives Sample.env (buffer Sample.photo) Sample.override
              Sample.start Sample.renditions Sample.start) as (Hnames & _ & Hsame).
  - vm_compute. reflexivity.
  - split; [exact Hnames | exact Hsame].
Defined.


(** ** Uploads *)

Lemma Date_now_Return env w :
  exists w', Date_now env w = (Return (clock env (ticks w)), w')
             /\ bucket w' = bucket w /\ files w' = files w.
Proof. eexists. unfold Date_now. repeat split. Qed.

Lemma Date_toISOString_Return env w :
  exists text w', Date_toISOString env w = (Return text, w')
                  /\ bucket w' = bucket w /\ files w' = files w.
Proof. eexists _, _. unfold Date_toISOString, bind, Date_now, ret. repeat split. Qed.

Lemma generateKey_Return env type userId filename timestamp w :
  exists key w', generateKey env type userId filename timestamp w = (Return key, w')
                 /\ bucket w' = bucket w /\ files w' = files w.
Proof.
  unfold generateKey, bind, ret, Math_random36, Date_now.
  destruct timestamp; eexists _, _; repeat split.
Qed.

Lemma uploadFile_cases env key fileBuffer contentType meta w :
  (exists result,
     uploadFile env key fileBuffer contentType meta w
     = (Return result,
        set_bucket (bucket w ++ [{| Bucket := r2_bucket env; Key := key;
                                    Body := fileBuffer; ContentType := contentType;
                                    Metadata := meta;
                                    CacheControl := "public, max-age=31536000" |}]) w)
     /\ success result = true
     /\ exists reply,
          s3_send env (bucket w)
            {| Bucket := r2_bucket env; Key := key; Body := fileBuffer;
               ContentType := contentType; Metadata := meta;
               CacheControl := "public, max-age=31536000" |} = Return reply)
  \/ (exists message, uploadFile env key fileBuffer contentType meta w = (Throw message, w)).
Proof.
  unfold uploadFile. destruct (s3_send env (bucket w) _) as [reply | message] eqn:Hsend.
  - left. eexists. split; [reflexivity |]. split; [reflexivity |]. exists reply. reflexivity.
  - right. eexists. reflexivity.
Qed.

(** The objects that the upload loop adds to the bucket are the entries
    it was given, in order, up to the first upload that fails. *)
Lemma upload_entries_bucket env userId originalName timestamp contentType :
  forall entries uploadResults w r w',
    upload_entries env entries userId originalName timestamp contentType
      uploadResults w = (r, w') ->
    exists added,
      bucket w' = (bucket w ++ added)%list
      /\ files w' = files w
      /\ map (fun c => (size_tag c, Body c)) added
         = map (fun e => (JS.Str (fst e), snd e)) (take (length added) entries)
      /\ match r with
         | Return all =>
             length added = length entries
             /\ exists new,
                  all = (uploadResults ++ new)%list
                  /\ map entry_size new = map fst entries
                  /\ Forall (fun e => success (entry_result e) = true) new
         | Throw _ => (length added < length entries)%nat
         end.
Proof.
  induction entries as [| [size imageBuffer] rest IH]; intros acc w r w' H.
  - simpl in H. unfold ret in H. inversion H; subst.
    exists []. rewrite app_nil_r. repeat split.
    exists []. rewrite app_nil_r. repeat split. constructor.
  - cbn [upload_entries] in H. unfold bind at 1 in H.
    destruct (generateKey_Return env "processed" userId (size ++ "_" ++ originalName)
                (Some timestamp) w) as (key & w1 & Hkey & Hb1 & Hf1).
    rewrite Hkey in H. unfold bind at 1 in H.
    destruct (Date_toISOString_Return env w1) as (text & w2 & Hdate & Hb2 & Hf2).
    rewrite Hdate in H. unfold bind at 1 in H.
    match type of H with
    | context [uploadFile env key imageBuffer contentType ?meta w2] =>
        destruct (uploadFile_cases env key imageBuffer contentType meta w2)
          as [(result & Hup & Hok & _) | (message & Hup)]
    end; rewrite Hup in H.
    + apply IH in H as (added & Hb & Hf & Hmap & Hr).
      eexists (_ :: added). split; [| split; [| split]].
      * rewrite Hb. simpl. rewrite Hb2, Hb1, <- app_assoc. reflexivity.
      * rewrite Hf. simpl. rewrite Hf2, Hf1. reflexivity.
      * simpl. rewrite Hmap. reflexivity.
      * destruct r as [all | e].
        -- destruct Hr as (Hlen & new & -> & Hsizes & Hall). split.
           ++ simpl. rewrite Hlen. reflexivity.
           ++ exists ({| entry_size := size; entry_result := result |} :: new).
              rewrite <- app_assoc. split; [reflexivity |]. split.
              ** simpl. rewrite Hsizes. reflexivity.
              ** constructor; [exact Hok | exact Hall].
        -- simpl. lia.
    + inversion H; subst. exists []. rewrite app_nil_r. simpl.
      rewrite Hb2, Hb1, Hf2, Hf1. repeat split. lia.
Qed.

Lemma processImage_world env buffer options w r w' :
  processImage env buffer options w = (r, w') -> w' = w.
Proof.
  unfold processImage, bind, sharp, chain, toBuffer, ret, throw. intros H.
  repeat match type of H with
    | context [match sharp_refuses env ?b with _ => _ end] =>
        destruct (sharp_refuses env b)
    | context [if ?b then _ else _] => destruct b
    | context [match sharp_rejects env ?op with _ => _ end] =>
        destruct (sharp_rejects env op)
    | context [match sharp_toBuffer env ?s with _ => _ end] =>
        destruct (sharp_toBuffer env s)
    end; inversion H; reflexivity.
Qed.

Lemma find_sizes (uploadResults : list UploadEntry) :
  map entry_size uploadResults = ["original"; "thumbnail"; "medium"; "large"] ->
  Forall (fun e => success (entry_result e) = true) uploadResults ->
  complete {| original := find_size "original" uploadResults;
              thumbnail := find_size "thumbnail" uploadResults;
              medium := find_size "medium" uploadResults;
              large := find_size "large" uploadResults |}.
Proof.
  intros Hsizes Hall.
  destruct uploadResults as [| e1 [| e2 [| e3 [| e4 [| e5 rest]]]]]; try discriminate Hsizes.
  injection Hsizes as H1 H2 H3 H4.
  inversion Hall as [| ? ? Hs1 Hall1]; subst.
  inversion Hall1 as [| ? ? Hs2 Hall2]; subst.
  inversion Hall2 as [| ? ? Hs3 Hall3]; subst.
  inversion Hall3 as [| ? ? Hs4 _]; subst.
  unfold complete, uploaded, find_size; cbn [List.find original thumbnail medium large].
  rewrite H1, H2, H3, H4. cbn.
  repeat split; eexists; repeat split; eassumption.
Qed.

(** The common part of [processImageFile] and [/process-image]: either
    the four derivatives are uploaded and the upload results go on, or
    the first failure ends it after a strict prefix of the uploads. *)
Lemma image_uploads {A} env buffer options userId originalName contentType
    (finish : list UploadEntry -> A) w r w' :
  (let* processedImages := processImage env buffer options in
   let* timestamp := Date_now env in
   let* uploadResults :=
     upload_entries env processedImages userId originalName timestamp contentType [] in
   ret (finish uploadResults)) w = (r, w') ->
  exists thumbnailBuffer mediumBuffer largeBuffer added,
    bucket w' = (bucket w ++ added)%list
    /\ files w' = files w
    /\ map (fun c => (size_tag c, Body c)) added
       = take (length added)
           [(JS.Str "original", buffer); (JS.Str "thumbnail", thumbnailBuffer);
            (JS.Str "medium", mediumBuffer); (JS.Str "large", largeBuffer)]
    /\ match r with
       | Return a =>
           length added = 4%nat
           /\ exists uploadResults,
                a = finish uploadResults
                /\ map entry_size uploadResults
                   = ["original"; "thumbnail"; "medium"; "large"]
                /\ Forall (fun e => success (entry_result e) = true) uploadResults
       | Throw _ => (length added < 4)%nat
       end.
Proof.
  intros H. unfold bind at 1 in H.
  destruct (processImage env buffer options w) as [[images | e] w1] eqn:Himages.
  - apply processImage_Return in Himages as (t & m & l & _ & _ & _ & -> & ->).
    unfold bind at 1 in H.
    destruct (Date_now_Return env w) as (w2 & Hnow & Hb2 & Hf2).
    rewrite Hnow in H. unfold bind at 1 in H.
    match type of H with
    | context [upload_entries env ?es ?u ?n ?t ?c [] w2] =>
        destruct (upload_entries env es u n t c [] w2) as [[all | e] w3] eqn:Hup
    end;
      apply upload_entries_bucket in Hup as (added & Hb & Hf & Hmap & Hr);
      unfold ret in H; inversion H; subst; clear H;
      exists t, m, l, added;
      (split; [rewrite Hb, Hb2; reflexivity |];
       split; [rewrite Hf, Hf2; reflexivity |];
       split; [rewrite Hmap, <- firstn_map; reflexivity |]).
    + destruct Hr as (Hlen & new & -> & Hsizes & Hall).
      split; [exact Hlen |]. exists new. repeat split; assumption.
    + exact Hr.
  - apply processImage_world in Himages as ->. inversion H; subst.
    exists [], [], [], []. rewrite app_nil_r. repeat split. simpl. lia.
Qed.

Lemma size_tags_of_prefix (added : list PutObject) (entries : list (JS.value * bytes)) :
  map (fun c => (size_tag c, Body c)) added = take (length added) entries ->
  map size_tag added = take (length added) (map fst entries).
Proof.
  intros H. rewrite firstn_map, <- H, map_map. reflexivity.
Qed.

Lemma original_body (added : list PutObject) buffer t m l :
  map (fun c => (size_tag c, Body c)) added
  = take (length added)
      [(JS.Str "original", buffer); (JS.Str "thumbnail", t);
       (JS.Str "medium", m); (JS.Str "large", l)] ->
  forall c, In c added -> size_tag c = JS.Str "original" -> Body c = buffer.
Proof.
  intros Hmap c Hc Hsize.
  apply (in_map (fun c => (size_tag c, Body c))) in Hc. rewrite Hmap, Hsize in Hc.
  assert (In (JS.Str "original", Body c)
            [(JS.Str "original", buffer); (JS.Str "thumbnail", t);
             (JS.Str "medium", m); (JS.Str "large", l)]) as Hin.
  { rewrite <- (firstn_skipn (length added)). apply in_or_app. left. exact Hc. }
  destruct Hin as [H | [H | [H | [H | []]]]]; inversion H. reflexivity.
Qed.

(** What [/process-image] has uploaded when it answers. *)
Lemma process_image_uploads env req w response w' :
  process_image env req w = (response, w') ->
  exists added,
    bucket w' = (bucket w ++ added)%list
    /\ (forall file, req_upload req = Some file ->
        exists t m l,
          map (fun c => (size_tag c, Body c)) added
          = take (length added)
              [(JS.Str "original", buffer file); (JS.Str "thumbnail", t);
               (JS.Str "medium", m); (JS.Str "large", l)])
    /\ map size_tag added = take (length added) image_sizes
    /\ match response with
       | Ok _ data => length added = 4%nat /\ complete data
       | Fail status _ _ =>
           (length added < 4)%nat /\ (status = 400%nat \/ status = 500%nat)
       end.
Proof.
  intros H. unfold process_image, handler in H.
  destruct (req_upload req) as [file |].
  - unfold bind at 1 in H.
    match type of H with
    | context [match ?parse w with _ => _ end] =>
        assert (exists r, parse w = (r, w)) as ([parsed | e] & Hparse)
    end.
    { destruct (body_resize (req_body req)) as [text |];
        [destruct (JS.truthy (JS.Str text)) |]; eexists; reflexivity. }
    + rewrite Hparse in H.
      match type of H with
      | context [match ?m w with _ => _ end] =>
          destruct (m w) as [r w1] eqn:Hrun
      end.
      apply image_uploads in Hrun as (t & m & l & added & Hb & _ & Hmap & Hr).
      exists added. split; [| split; [| split]].
      * destruct r; inversion H; subst; exact Hb.
      * intros file' Hfile. inversion Hfile; subst. exists t, m, l. exact Hmap.
      * apply size_tags_of_prefix in Hmap. exact Hmap.
      * destruct r as [a | e].
        -- destruct Hr as (Hlen & all & -> & Hsizes & Hall).
           inversion H; subst. split; [exact Hlen |].
           apply find_sizes; assumption.
        -- inversion H; subst. split; [exact Hr | right; reflexivity].
    + rewrite Hparse in H. inversion H; subst.
      exists []. rewrite app_nil_r. split; [reflexivity |]. split.
      * intros file' _. exists [], [], []. reflexivity.
      * repeat split; simpl; lia.
  - unfold ret in H. inversion H; subst.
    exists []. rewrite app_nil_r. split; [reflexivity |]. split.
    + intros file' Hfile. discriminate Hfile.
    + repeat split; simpl; lia.
Qed.


(** ** The batch *)

Section Batch.

Context (env : Env) (userId : string).

(** The loop body pushes one entry for its file and never throws. *)
Lemma batch_file_Return file w :
  exists entry w',
    batch_file env file userId w = (Return entry, w')
    /\ item_name entry = originalname file.
Proof.
  unfold batch_file, try_catch.
  destruct (isImage (mimetype file)); [| destruct (isVideo (mimetype file))].
  - unfold bind. destruct (processImageFile env file userId w) as [[data | e] w1];
      eexists _, _; split; reflexivity.
  - unfold bind. destruct (processVideoFile env file userId w) as [[data | e] w1];
      eexists _, _; split; reflexivity.
  - eexists _, _; split; reflexivity.
Qed.

(** A file of an unsupported kind is refused without any effect. *)
Lemma batch_file_unsupported file w :
  isImage (mimetype file) = false ->
  isVideo (mimetype file) = false ->
  batch_file env file userId w
  = (Return (FailedItem (originalname file) "Unsupported file type"), w).
Proof.
  intros Himage Hvideo. unfold batch_file, try_catch. rewrite Himage, Hvideo.
  reflexivity.
Qed.

(** The loop appends to [results]: what it adds does not depend on what
    is already there. *)
Lemma batch_files_Return files :
  forall acc w,
    exists entries w',
      batch_files env files userId acc w = (Return (acc ++ entries)%list, w')
      /\ batch_files env files userId [] w = (Return entries, w')
      /\ map item_name entries = map originalname files.
Proof.
  induction files as [| file rest IH]; intros acc w.
  - exists [], w. rewrite app_nil_r. repeat split.
  - destruct (batch_file_Return file w) as (entry & w1 & Hfile & Hname).
    destruct (IH (acc ++ [entry])%list w1) as (entries & w' & Hacc & Hnil & Hnames).
    destruct (IH [entry] w1) as (entries' & w'' & Hone & Hnil' & _).
    rewrite Hnil in Hnil'. inversion Hnil'; subst entries' w''. clear Hnil'.
    exists (entry :: entries), w'. split; [| split].
    + cbn [batch_files]. unfold bind at 1. rewrite Hfile, Hacc, <- app_assoc. reflexivity.
    + cbn [batch_files]. unfold bind at 1. rewrite Hfile. exact Hone.
    + simpl. rewrite Hname, Hnames. reflexivity.
Qed.

Lemma batch_files_app before after :
  forall acc w,
    batch_files env (before ++ after) userId acc w
    = match batch_files env before userId acc w with
      | (Return entries, w1) => batch_files env after userId entries w1
      | (Throw e, w1) => (Throw e, w1)
      end.
Proof.
  induction before as [| file rest IH]; intros acc w.
  - reflexivity.
  - cbn [batch_files app]. unfold bind.
    destruct (batch_file env file userId w) as [[entry | e] w1]; [apply IH | reflexivity].
Qed.

End Batch.

Lemma filter_split {A} (p : A -> bool) (l : list A) :
  (length (List.filter (fun x => p x) l)
   + length (List.filter (fun x => negb (p x)) l))%nat = length l.
Proof.
  induction l as [| x l IH]; simpl; [reflexivity |].
  destruct (p x); simpl; lia.
Qed.

Lemma filter_member {A} (p : A -> bool) (l1 l2 : list A) (x : A) :
  p x = true -> (1 <= length (List.filter p (l1 ++ x :: l2)))%nat.
Proof.
  intros Hx. rewrite List.filter_app, length_app. simpl. rewrite Hx. simpl. lia.
Qed.

(** ** The batch path and the default profile *)

Lemma handler_bind {A B} (m : M A) (k : A -> M (Response B)) error w :
  handler (bind m k) error w
  = match m w with
    | (Return a, w1) => handler (k a) error w1
    | (Throw e, w1) => (Fail 500 error (Some e), w1)
    end.
Proof. unfold handler, bind. destruct (m w) as [[a | e] w1]; reflexivity. Qed.

Lemma answer_bind {A B C} message error (convert : B -> C) (m : M A) (k : A -> M B) w :
  answer message error convert (bind m k w)
  = match m w with
    | (Return a, w1) => answer message error convert (k a w1)
    | (Throw e, w1) => (Fail 500 error (Some e), w1)
    end.
Proof. unfold answer, bind. destruct (m w) as [[a | e] w1]; reflexivity. Qed.

(** One awaited step, taken on both sides at once. *)
Ltac both_step :=
  rewrite handler_bind, answer_bind;
  match goal with
  | |- match ?m with _ => _ end = match ?m' with _ => _ end =>
      let a := fresh "a" in
      let e := fresh "e" in
      let w := fresh "w" in
      change m' with m; destruct m as [[a | e] w]; [| reflexivity]
  end.

Lemma append_truthy (a : string) c b : JS.truthy (JS.Str (a ++ String c b)) = true.
Proof. destruct a; reflexivity. Qed.

(** A normalized path is never the empty text. *)
Lemma normalize_truthy p : JS.truthy (JS.Str (Path.normalize p)) = true.
Proof.
  unfold Path.normalize. destruct (String.eqb p ""); [reflexivity |]. cbv zeta.
  destruct (String.eqb (String.concat "/" _) "") eqn:Hpath.
  - destruct (String.prefix "/" p); [reflexivity |].
    destruct (JS.ends_with "/" p); reflexivity.
  - destruct (String.prefix "/" p); [reflexivity |].
    destruct (JS.ends_with "/" p).
    + apply append_truthy.
    + cbn [JS.truthy]. rewrite Hpath. reflexivity.
Qed.

Lemma join_truthy dir name : JS.truthy (JS.Str (Path.join dir name)) = true.
Proof.
  unfold Path.join.
  destruct (String.eqb dir ""); destruct (String.eqb name "");
    reflexivity || apply normalize_truthy.
Qed.

(** Called without options, [processImage] works as with quality 85,
    format jpeg and no resize override; so it does on the profile that
    [/process-image] makes of an empty form. *)
Lemma processImage_defaults env buffer :
  processImage env buffer no_image_options
  = processImage env buffer
      {| io_quality := num 85; io_format := JS.Str "jpeg"; io_resize := JS.Undefined |}
  /\ processImage env buffer
       {| io_quality := JS.Num (JS.parseInt "85"); io_format := JS.Str "jpeg";
          io_resize := JS.Null |}
     = processImage env buffer no_image_options.
Proof. split; reflexivity. Qed.

Lemma process_image_default env file userId w :
  process_image env
    {| req_userId := userId; req_body := no_fields; req_upload := Some file |} w
  = answer "Image processed successfully" "Failed to process image" (fun d => d)
      (processImageFile env file userId w).
Proof.
  unfold process_image, processImageFile. cbn [req_upload req_body req_userId
    no_fields body_quality body_format body_resize default].
  rewrite handler_bind. cbn [ret].
  both_step. both_step. both_step. reflexivity.
Qed.

Lemma handler_bind_bind {A B C} (m : M A) (k1 : A -> M B) (k2 : B -> M (Response C))
    error w :
  handler (bind (bind m k1) k2) error w
  = handler (bind m (fun a => bind (k1 a) k2)) error w.
Proof. unfold handler, bind. destruct (m w) as [[a | e] w1]; reflexivity. Qed.

Lemma processVideo_thumbnail env inputPath outputPath options w pv w' :
  processVideo env inputPath outputPath options w = (Return pv, w') ->
  pv_thumbnail pv
  = if JS.truthy (JS.or_default (vo_generateThumbnail options) (JS.Bool true))
    then of_text (vo_thumbnailPath options) else JS.Null.
Proof.
  unfold processVideo. destruct (error (ffmpeg_run env _ _)); intros H.
  - discriminate H.
  - inversion H. reflexivity.
Qed.

Lemma process_video_default env file userId w :
  process_video env
    {| req_userId := userId; req_body := no_fields; req_upload := Some file |} w
  = answer "Video processed successfully" "Failed to process video" video_data
      (processVideoFile env file userId w).
Proof.
  unfold process_video, processVideoFile. cbn [req_upload req_body req_userId
    no_fields body_quality body_format body_generateThumbnail default of_text
    JS.or_default].
  do 5 both_step.
  rewrite handler_bind, answer_bind.
  match goal with
  | |- match ?m with _ => _ end = match ?m' with _ => _ end =>
      change m' with m; destruct m as [[pv | e] w5] eqn:Hpv; [| reflexivity]
  end.
  apply processVideo_thumbnail in Hpv. cbn [vo_generateThumbnail vo_thumbnailPath
    JS.or_default JS.truthy of_text] in Hpv.
  do 5 both_step.
  rewrite Hpv, join_truthy. cbn [JS.truthy andb].
  do 4 (rewrite handler_bind_bind; both_step).
  rewrite handler_bind. cbn [ret].
  both_step. reflexivity.
Qed.

(** ** Video files *)

Lemma fold_left_last {A B} (f : B -> A) (l : list B) (a : A) :
  fold_left (fun _ x => f x) l a
  = match last l with
    | Some x => f x
    | None => a
    end.
Proof.
  induction l as [| x l IH] using rev_ind; [reflexivity |].
  rewrite fold_left_app, last_snoc. reflexivity.
Qed.

Lemma processVideo_Return env inputPath outputPath options w pv w' :
  processVideo env inputPath outputPath options w = (Return pv, w') ->
  error (ffmpeg_run env (command inputPath outputPath options) (files w)) = None
  /\ files w'
     = files_after (ffmpeg_run env (command inputPath outputPath options) (files w))
  /\ bucket w' = bucket w
  /\ pv_duration pv
     = match last (codecData (ffmpeg_run env (command inputPath outputPath options)
                                (files w))) with
       | Some data => JS.Num (JS.parseFloat (duration data))
       | None => JS.Null
       end.
Proof.
  unfold processVideo.
  destruct (error (ffmpeg_run env _ _)); intros H; [discriminate H |].
  inversion H; subst. repeat split. apply fold_left_last.
Qed.

Lemma processVideo_Throw env inputPath outputPath options w message w' :
  processVideo env inputPath outputPath options w = (Throw message, w') ->
  error (ffmpeg_run env (command inputPath outputPath options) (files w))
  = Some message
  /\ files w'
     = files_after (ffmpeg_run env (command inputPath outputPath options) (files w))
  /\ bucket w' = bucket w.
Proof.
  unfold processVideo.
  destruct (error (ffmpeg_run env _ _)); intros H; inversion H; subst. repeat split.
Qed.

Lemma fs_readFile_Return path w data w' :
  fs_readFile path w = (Return data, w') -> w' = w /\ files w !! path = Some data.
Proof.
  unfold fs_readFile. destruct (files w !! path); intros H; inversion H; subst.
  split; reflexivity.
Qed.

Lemma cleanupTempFiles_Return filePaths :
  forall w,
    exists w',
      cleanupTempFiles filePaths w = (Return tt, w')
      /\ files w' = foldl (fun staging path => delete path staging) (files w) filePaths
      /\ bucket w' = bucket w.
Proof.
  induction filePaths as [| filePath rest IH]; intros w.
  - exists w. repeat split.
  - cbn [cleanupTempFiles foldl]. unfold bind at 1, try_catch, fs_unlink.
    destruct (files w !! filePath) as [data |] eqn:Hfile.
    + destruct (IH (set_files (delete filePath (files w)) w)) as (w' & Hrun & Hf & Hb).
      exists w'. repeat split; assumption.
    + destruct (IH w) as (w' & Hrun & Hf & Hb).
      exists w'. unfold ret at 1. rewrite (delete_id _ _ Hfile).
      repeat split; assumption.
Qed.

Lemma Date_now_inv env w t w' :
  Date_now env w = (Return t, w') ->
  t = clock env (ticks w) /\ bucket w' = bucket w /\ files w' = files w.
Proof. unfold Date_now. intros H. inversion H. repeat split. Qed.

Lemma Date_toISOString_inv env w text w' :
  Date_toISOString env w = (Return text, w') ->
  bucket w' = bucket w /\ files w' = files w.
Proof.
  destruct (Date_toISOString_Return env w) as (text' & w1 & Hrun & Hb & Hf).
  rewrite Hrun. intros H. inversion H; subst. split; assumption.
Qed.

Lemma generateKey_inv env type userId filename timestamp w key w' :
  generateKey env type userId filename timestamp w = (Return key, w') ->
  bucket w' = bucket w /\ files w' = files w.
Proof.
  destruct (generateKey_Return env type userId filename timestamp w)
    as (key' & w1 & Hrun & Hb & Hf).
  rewrite Hrun. intros H. inversion H; subst. split; assumption.
Qed.

Lemma fs_writeFile_inv path data w u w' :
  fs_writeFile path data w = (Return u, w') ->
  files w' = <[path := data]> (files w) /\ bucket w' = bucket w.
Proof. unfold fs_writeFile. intros H. inversion H. split; reflexivity. Qed.

Lemma uploadFile_inv env key fileBuffer contentType meta w result w' :
  uploadFile env key fileBuffer contentType meta w = (Return result, w') ->
  let put := {| Bucket := r2_bucket env; Key := key; Body := fileBuffer;
                ContentType := contentType; Metadata := meta;
                CacheControl := "public, max-age=31536000" |} in
  bucket w' = (bucket w ++ [put])%list
  /\ files w' = files w
  /\ success result = true
  /\ exists reply, s3_send env (bucket w) put = Return reply.
Proof.
  intros H. cbv zeta.
  destruct (uploadFile_cases env key fileBuffer contentType meta w)
    as [(result' & Hrun & Hok & Hsend) | (message & Hrun)];
    rewrite Hrun in H; inversion H; subst.
  repeat split; assumption.
Qed.

(** What has happened when [processVideoFile] returns. *)
Lemma processVideoFile_Return env file userId w d w' :
  processVideoFile env file userId w = (Return d, w') ->
  exists inputPath outputPath thumbnailPath w4 pv w5 videoPut thumbnailPut,
    files w4 = <[inputPath := buffer file]> (files w)
    /\ processVideo env inputPath outputPath
         {| vo_quality := JS.Undefined; vo_format := JS.Undefined;
            vo_generateThumbnail := JS.Bool true;
            vo_thumbnailPath := Some thumbnailPath |} w4 = (Return pv, w5)
    /\ vf_duration d = pv_duration pv
    /\ bucket w' = (bucket w ++ [videoPut; thumbnailPut])%list
    /\ type_tag videoPut = JS.Str "processed_video"
    /\ JS.assoc "duration" (Metadata videoPut) = pv_duration pv
    /\ files w5 !! outputPath = Some (Body videoPut)
    /\ type_tag thumbnailPut = JS.Str "video_thumbnail"
    /\ files w5 !! thumbnailPath = Some (Body thumbnailPut)
    /\ (exists reply, s3_send env (bucket w ++ [videoPut])%list thumbnailPut = Return reply)
    /\ files w'
       = delete thumbnailPath (delete outputPath (delete inputPath (files w5))).
Proof.
  unfold processVideoFile. intros H.
  bind_inv H. apply ret_Return in H_head as [_ ->].
  bind_inv H. apply Date_now_inv in H_head as (-> & Hb1 & Hf1).
  bind_inv H. apply Date_now_inv in H_head as (-> & Hb2 & Hf2).
  bind_inv H. apply Date_now_inv in H_head as (-> & Hb3 & Hf3).
  bind_inv H. apply fs_writeFile_inv in H_head as (Hf4 & Hb4).
  bind_inv H. rename H_head into Hvideo.
  pose proof (processVideo_Return _ _ _ _ _ _ _ Hvideo) as (_ & _ & Hb5 & _).
  bind_inv H. apply Date_now_inv in H_head as (-> & Hb6 & Hf6).
  bind_inv H. apply generateKey_inv in H_head as (Hb7 & Hf7).
  bind_inv H. apply fs_readFile_Return in H_head as (-> & Hout).
  bind_inv H. apply Date_toISOString_inv in H_head as (Hb9 & Hf9).
  bind_inv H. apply uploadFile_inv in H_head as (Hb10 & Hf10 & _ & _).
  bind_inv H. apply generateKey_inv in H_head as (Hb11 & Hf11).
  bind_inv H. apply fs_readFile_Return in H_head as (-> & Hthumb).
  bind_inv H. apply Date_toISOString_inv in H_head as (Hb13 & Hf13).
  bind_inv H. apply uploadFile_inv in H_head as (Hb14 & Hf14 & _ & reply & Hsend).
  bind_inv H.
  match type of H_head with
  | cleanupTempFiles ?paths ?w0 = _ =>
      destruct (cleanupTempFiles_Return paths w0) as (wc & Hclean & Hfc & Hbc)
  end.
  rewrite Hclean in H_head. inversion H_head; subst. clear H_head.
  apply ret_Return in H as [-> ->].
  do 8 eexists. split; [| split; [exact Hvideo |]].
  - rewrite Hf4, Hf3, Hf2, Hf1. reflexivity.
  - split; [reflexivity |].
    assert (bucket w7 = bucket w) as Hb8.
    { rewrite Hb9, Hb7, Hb6, Hb5, Hb4, Hb3, Hb2, Hb1. reflexivity. }
    split.
    { rewrite Hbc, Hb14, Hb13, Hb11, Hb10, Hb8, <- app_assoc. reflexivity. }
    split; [reflexivity |]. split; [reflexivity |].
    split. { rewrite Hf7, Hf6 in Hout. exact Hout. }
    split; [reflexivity |].
    split. { rewrite Hf11, Hf10, Hf9, Hf7, Hf6 in Hthumb. exact Hthumb. }
    split.
    { exists reply. rewrite Hb13, Hb11, Hb10, Hb8 in Hsend. exact Hsend. }
    rewrite Hfc. cbn [foldl]. rewrite Hf14, Hf13, Hf11, Hf10, Hf9, Hf7, Hf6.
    reflexivity.
Qed.

Lemma or_default_again (v : JS.value) :
  JS.or_default (JS.or_default v (JS.Bool true)) (JS.Bool true)
  = JS.or_default v (JS.Bool true).
Proof. destruct v; reflexivity. Qed.

Lemma handler_Ok {A} (body : M (Response A)) error w message data w' :
  handler body error w = (Ok message data, w') ->
  body w = (Return (Ok message data), w').
Proof.
  unfold handler. destruct (body w) as [[response | e] w1]; intros H; inversion H.
  reflexivity.
Qed.

(** What has happened when [/process-video] answers with success. *)
Lemma process_video_Ok env req w message data w' :
  process_video env req w = (Ok message data, w') ->
  exists file inputPath outputPath thumbnailPath w4 pv w5 videoPut,
    req_upload req = Some file
    /\ files w4 = <[inputPath := buffer file]> (files w)
    /\ processVideo env inputPath outputPath
         {| vo_quality := JS.Str (default "medium" (body_quality (req_body req)));
            vo_format := JS.Str (default "mp4" (body_format (req_body req)));
            vo_generateThumbnail :=
              JS.or_default (of_text (body_generateThumbnail (req_body req)))
                (JS.Bool true);
            vo_thumbnailPath := Some thumbnailPath |} w4 = (Return pv, w5)
    /\ vd_duration data = pv_duration pv
    /\ type_tag videoPut = JS.Str "processed_video"
    /\ JS.assoc "duration" (Metadata videoPut) = pv_duration pv
    /\ files w5 !! outputPath = Some (Body videoPut)
    /\ (if JS.truthy (JS.or_default (of_text (body_generateThumbnail (req_body req)))
                        (JS.Bool true))
        then exists thumbnailPut result reply,
               bucket w' = (bucket w ++ [videoPut; thumbnailPut])%list
               /\ vd_thumbnail data = Some result
               /\ type_tag thumbnailPut = JS.Str "video_thumbnail"
               /\ files w5 !! thumbnailPath = Some (Body thumbnailPut)
               /\ s3_send env (bucket w ++ [videoPut])%list thumbnailPut = Return reply
        else bucket w' = (bucket w ++ [videoPut])%list /\ vd_thumbnail data = None)
    /\ files w'
       = delete thumbnailPath (delete outputPath (delete inputPath (files w5))).
Proof.
  intros H. apply handler_Ok in H.
  destruct (req_upload req) as [file |]; [| discriminate H].
  bind_inv H. apply ret_Return in H_head as [_ ->].
  bind_inv H. apply Date_now_inv in H_head as (-> & Hb1 & Hf1).
  bind_inv H. apply Date_now_inv in H_head as (-> & Hb2 & Hf2).
  bind_inv H. apply Date_now_inv in H_head as (-> & Hb3 & Hf3).
  bind_inv H. apply fs_writeFile_inv in H_head as (Hf4 & Hb4).
  bind_inv H. rename H_head into Hvideo.
  pose proof (processVideo_Return _ _ _ _ _ _ _ Hvideo) as (_ & _ & Hb5 & _).
  pose proof (processVideo_thumbnail _ _ _ _ _ _ _ Hvideo) as Hpath.
  cbn [vo_generateThumbnail vo_thumbnailPath of_text] in Hpath.
  rewrite or_default_again in Hpath.
  bind_inv H. apply Date_now_inv in H_head as (-> & Hb6 & Hf6).
  bind_inv H. apply generateKey_inv in H_head as (Hb7 & Hf7).
  bind_inv H. apply fs_readFile_Return in H_head as (-> & Hout).
  bind_inv H. apply Date_toISOString_inv in H_head as (Hb9 & Hf9).
  bind_inv H. apply uploadFile_inv in H_head as (Hb10 & Hf10 & _ & _).
  assert (bucket w7 = bucket w) as Hb8.
  { rewrite Hb9, Hb7, Hb6, Hb5, Hb4, Hb3, Hb2, Hb1. reflexivity. }
  rewrite Hb8 in Hb10. rewrite Hf7, Hf6 in Hout.
  bind_inv H. rename H_head into Hthumbnail.
  bind_inv H.
  match type of H_head with
  | cleanupTempFiles ?paths ?w0 = _ =>
      destruct (cleanupTempFiles_Return paths w0) as (wc & Hclean & Hfc & Hbc)
  end.
  rewrite Hclean in H_head. inversion H_head; subst. clear H_head.
  apply ret_Return in H as [Hdata ->]. inversion Hdata; subst. clear Hdata.
  cbn [vd_duration vd_thumbnail].
  exists file. do 6 eexists.
  match type of Hb10 with
  | _ = (_ ++ [?put])%list => exists put
  end.
  split; [reflexivity |].
  split. { rewrite Hf4, Hf3, Hf2, Hf1. reflexivity. }
  split; [exact Hvideo |].
  split; [reflexivity |]. split; [reflexivity |]. split; [reflexivity |].
  split; [exact Hout |].
  rewrite Hpath in Hthumbnail.
  destruct (JS.truthy (JS.or_default (of_text (body_generateThumbnail (req_body req)))
                         (JS.Bool true))) eqn:Hgen.
  - cbv iota in Hthumbnail. rewrite join_truthy in Hthumbnail.
    cbn [andb] in Hthumbnail.
    bind_inv Hthumbnail. apply generateKey_inv in Hthumbnail_head as (Hb11 & Hf11).
    bind_inv Hthumbnail. apply fs_readFile_Return in Hthumbnail_head as (-> & Hthumb).
    bind_inv Hthumbnail. apply Date_toISOString_inv in Hthumbnail_head as (Hb13 & Hf13).
    bind_inv Hthumbnail.
    apply uploadFile_inv in Hthumbnail_head as (Hb14 & Hf14 & _ & reply & Hsend).
    apply ret_Return in Hthumbnail as [-> ->].
    split.
    + eexists _, _, reply.
      split. { rewrite Hbc, Hb14, Hb13, Hb11, Hb10, <- app_assoc. reflexivity. }
      split; [reflexivity |]. split; [reflexivity |]. split.
      * rewrite Hf11, Hf10, Hf9, Hf7, Hf6 in Hthumb. exact Hthumb.
      * rewrite Hb13, Hb11, Hb10 in Hsend. exact Hsend.
    + rewrite Hfc. cbn [foldl]. rewrite Hf14, Hf13, Hf11, Hf10, Hf9, Hf7, Hf6.
      reflexivity.
  - rewrite andb_false_r in Hthumbnail. apply ret_Return in Hthumbnail as [-> ->].
    split.
    + split; [| reflexivity]. rewrite Hbc, Hb10. reflexivity.
    + rewrite Hfc. cbn [foldl]. rewrite Hf10, Hf9, Hf7, Hf6. reflexivity.
Qed.

(** The duration that a processed video reports, in the result and in
    the metadata of the uploaded video alike, is [parseFloat] of the
    duration text of the last [codecData] that the transcode surfaced,
    and [null] when it surfaced none. *)
Lemma duration_is_parsed env :
  (forall inputPath outputPath options w pv w',
     processVideo env inputPath outputPath options w = (Return pv, w') ->
     pv_duration pv
     = match last (codecData (ffmpeg_run env (command inputPath outputPath options)
                                (files w))) with
       | Some data => JS.Num (JS.parseFloat (duration data))
       | None => JS.Null
       end)
  /\ (forall file userId w d w',
        processVideoFile env file userId w = (Return d, w') ->
        exists inputPath outputPath options w4 pv w5 videoPut,
          processVideo env inputPath outputPath options w4 = (Return pv, w5)
          /\ vf_duration d = pv_duration pv
          /\ In videoPut (bucket w')
          /\ type_tag videoPut = JS.Str "processed_video"
          /\ JS.assoc "duration" (Metadata videoPut) = pv_duration pv)
  /\ (forall req w message data w',
        process_video env req w = (Ok message data, w') ->
        exists inputPath outputPath options w4 pv w5 videoPut,
          processVideo env inputPath outputPath options w4 = (Return pv, w5)
          /\ vd_duration data = pv_duration pv
          /\ In videoPut (bucket w')
          /\ type_tag videoPut = JS.Str "processed_video"
          /\ JS.assoc "duration" (Metadata videoPut) = pv_duration pv).
Proof.
  split; [| split].
  - intros inputPath outputPath options w pv w' H.
    apply processVideo_Return in H as (_ & _ & _ & H). exact H.
  - intros file userId w d w' H.
    apply processVideoFile_Return in H
      as (i & o & t & w4 & pv & w5 & videoPut & thumbnailPut
          & _ & Hrun & Hd & Hb & Htype & Hmeta & _).
    eexists i, o, _, w4, pv, w5, videoPut.
    split; [exact Hrun |]. split; [exact Hd |]. split.
    + rewrite Hb. apply in_or_app. right. left. reflexivity.
    + split; assumption.
  - intros req w message data w' H.
    apply process_video_Ok in H
      as (file & i & o & t & w4 & pv & w5 & videoPut
          & _ & _ & Hrun & Hd & Htype & Hmeta & _ & Hb & _).
    eexists i, o, _, w4, pv, w5, videoPut.
    split; [exact Hrun |]. split; [exact Hd |]. split.
    + destruct (JS.truthy _).
      * destruct Hb as (thumbnailPut & result & reply & -> & _).
        apply in_or_app. right. left. reflexivity.
      * destruct Hb as [-> _]. apply in_or_app. right. left. reflexivity.
    + split; assumption.
Qed.

(** C7, on an input where the code misses it. The transcode surfaces
    the duration of a clip of 90.25 seconds as the clock text
    [00:01:30.25]. The worker does not report this value: it reports,
    and tags on the uploaded video, the number 0 that [parseFloat] reads
    at the head of the text, in the batch path and in
    [/process-video] alike. So it does for every duration text that
    starts with [00:], which is every duration below one hour. *)
Theorem duration_is_altered :
  codecData (video_run Sample.env Sample.clip
               (batch_video_options Sample.env Sample.start) "mp4" Sample.start)
  = [{| duration := "00:01:30.25" |}]
  /\ codecData (video_run Sample.env Sample.clip
                  (form_video_options Sample.env no_fields Sample.start) "mp4"
                  Sample.start)
     = [{| duration := "00:01:30.25" |}]
  /\ (exists d w',
        processVideoFile Sample.env Sample.clip "42" Sample.start = (Return d, w')
        /\ vf_duration d = JS.Num (JS.Dec false 0 0)
        /\ map (fun c => JS.assoc "duration" (Metadata c)) (bucket w')
           = [JS.Num (JS.Dec false 0 0); JS.Undefined])
  /\ (exists data w',
        process_video Sample.env (Sample.request (Some Sample.clip)) Sample.start
        = (Ok "Video processed successfully" data, w')
        /\ vd_duration data = JS.Num (JS.Dec false 0 0)
        /\ map (fun c => JS.assoc "duration" (Metadata c)) (bucket w')
           = [JS.Num (JS.Dec false 0 0); JS.Undefined])
  /\ JS.Num (JS.Dec false 0 0) <> JS.Str "00:01:30.25"
  /\ (forall rest, JS.parseFloat ("00:" ++ rest) = JS.Dec false 0 0).
Proof.
  split; [| split; [| split; [| split; [| split]]]].
  - vm_compute. reflexivity.
  - vm_compute. reflexivity.
  - eexists _, _. split; [vm_compute; reflexivity |]. split; reflexivity.
  - eexists _, _. split; [vm_compute; reflexivity |]. split; reflexivity.
  - discriminate.
  - intros rest. reflexivity.
Qed.

Lemma video_is_not_image mimetype : isVideo mimetype = true -> isImage mimetype = false.
Proof.
  unfold isVideo, isImage, includes. cbn [existsb]. intros H.
  repeat (apply orb_true_iff in H as [H | H];
          [apply String.eqb_eq in H; subst; reflexivity |]).
  discriminate H.
Qed.

(** C4, as stated, fails. The transcode succeeds and the video is
    uploaded, the bucket refuses the thumbnail: the batch records the
    file as failed and [/process-video] answers with status 500. The
    batch also records the file as failed when the transcode succeeds
    but leaves no screenshot to read. *)
Lemma failed_thumbnail_fails_video :
  let env := Sample.make Sample.encode Sample.transcode Sample.put_no_thumbnail in
  fst (batch_process env (Sample.request [Sample.clip]) Sample.start)
  = Ok "Batch processing completed"
      {| total := 1; successful := 0; failed := 1;
         results := [FailedItem "clip.mp4" "Failed to upload file: Access Denied"] |}
  /\ fst (process_video env (Sample.request (Some Sample.clip)) Sample.start)
     = Fail 500 "Failed to process video" (Some "Failed to upload file: Access Denied")
  /\ map type_tag
       (bucket (snd (process_video env (Sample.request (Some Sample.clip)) Sample.start)))
     = [JS.Str "processed_video"]
  /\ fst (batch_process
            (Sample.make Sample.encode Sample.transcode_no_shot Sample.put)
            (Sample.request [Sample.clip]) Sample.start)
     = Ok "Batch processing completed"
         {| total := 1; successful := 0; failed := 1;
            results :=
              [FailedItem "clip.mp4"
                 ("ENOENT: no such file or directory, open "
                  ++ "'/app/media-processor/temp/thumbnail_1700000000002.jpg'")] |}.
Proof.
  repeat split; vm_compute; reflexivity.
Qed.

(** Take a throwing [let*] apart: its head threw, or its head returned
    and what follows threw. *)
Ltac throw_inv H :=
  let a := fresh "a" in
  let w := fresh "w" in
  let H1 := fresh H "_head" in
  apply bind_Throw in H as [H | (a & w & H1 & H)].

Lemma Date_now_total env w e w' : Date_now env w = (Throw e, w') -> False.
Proof. unfold Date_now. discriminate. Qed.

Lemma Date_toISOString_total env w e w' : Date_toISOString env w = (Throw e, w') -> False.
Proof. unfold Date_toISOString, bind, Date_now, ret. discriminate. Qed.

Lemma generateKey_total env type userId filename timestamp w e w' :
  generateKey env type userId filename timestamp w = (Throw e, w') -> False.
Proof.
  destruct (generateKey_Return env type userId filename timestamp w)
    as (key & w1 & Hrun & _).
  rewrite Hrun. discriminate.
Qed.

Lemma fs_readFile_Throw path w e w' : fs_readFile path w = (Throw e, w') -> w' = w.
Proof.
  unfold fs_readFile. destruct (files w !! path); intros H; inversion H. reflexivity.
Qed.

Lemma uploadFile_Throw env key fileBuffer contentType meta w e w' :
  uploadFile env key fileBuffer contentType meta w = (Throw e, w') -> w' = w.
Proof.
  unfold uploadFile. destruct (s3_send env _ _); intros H; inversion H. reflexivity.
Qed.

Lemma cleanupTempFiles_total filePaths w e w' :
  cleanupTempFiles filePaths w = (Throw e, w') -> False.
Proof.
  destruct (cleanupTempFiles_Return filePaths w) as (w1 & Hrun & _).
  rewrite Hrun. discriminate.
Qed.

(** When [processVideoFile] throws, no staging file has been removed:
    the staging directory is as the transcode left it. *)
Lemma processVideoFile_Throw env file userId w message w' :
  processVideoFile env file userId w = (Throw message, w') ->
  exists inputPath outputPath thumbnailPath,
    files w'
    = files_after
        (ffmpeg_run env
           (command inputPath outputPath
              {| vo_quality := JS.Undefined; vo_format := JS.Undefined;
                 vo_generateThumbnail := JS.Bool true;
                 vo_thumbnailPath := Some thumbnailPath |})
           (<[inputPath := buffer file]> (files w))).
Proof.
  unfold processVideoFile. intros H.
  throw_inv H; [discriminate H |]. apply ret_Return in H_head as [_ ->].
  throw_inv H; [destruct (Date_now_total _ _ _ _ H) |].
  apply Date_now_inv in H_head as (-> & _ & Hf1).
  throw_inv H; [destruct (Date_now_total _ _ _ _ H) |].
  apply Date_now_inv in H_head as (-> & _ & Hf2).
  throw_inv H; [destruct (Date_now_total _ _ _ _ H) |].
  apply Date_now_inv in H_head as (-> & _ & Hf3).
  throw_inv H; [discriminate H |].
  apply fs_writeFile_inv in H_head as (Hf4 & _).
  rewrite Hf3, Hf2, Hf1 in Hf4.
  do 3 eexists.
  throw_inv H.
  { apply processVideo_Throw in H as (_ & Hf & _). rewrite Hf, Hf4. reflexivity. }
  apply processVideo_Return in H_head as (_ & Hf5 & _). rewrite Hf4 in Hf5.
  rewrite <- Hf5. clear Hf5 Hf4 Hf3 Hf2 Hf1.
  throw_inv H; [destruct (Date_now_total _ _ _ _ H) |].
  apply Date_now_inv in H_head as (-> & _ & Hf6).
  throw_inv H; [destruct (generateKey_total _ _ _ _ _ _ _ _ H) |].
  apply generateKey_inv in H_head as (_ & Hf7).
  throw_inv H.
  { apply fs_readFile_Throw in H as ->. rewrite Hf7, Hf6. reflexivity. }
  apply fs_readFile_Return in H_head as (-> & _).
  throw_inv H; [destruct (Date_toISOString_total _ _ _ _ H) |].
  apply Date_toISOString_inv in H_head as (_ & Hf9).
  throw_inv H.
  { apply uploadFile_Throw in H as ->. rewrite Hf9, Hf7, Hf6. reflexivity. }
  apply uploadFile_inv in H_head as (_ & Hf10 & _).
  throw_inv H; [destruct (generateKey_total _ _ _ _ _ _ _ _ H) |].
  apply generateKey_inv in H_head as (_ & Hf11).
  throw_inv H.
  { apply fs_readFile_Throw in H as ->. rewrite Hf11, Hf10, Hf9, Hf7, Hf6. reflexivity. }
  apply fs_readFile_Return in H_head as (-> & _).
  throw_inv H; [destruct (Date_toISOString_total _ _ _ _ H) |].
  apply Date_toISOString_inv in H_head as (_ & Hf13).
  throw_inv H.
  { apply uploadFile_Throw in H as ->.
    rewrite Hf13, Hf11, Hf10, Hf9, Hf7, Hf6. reflexivity. }
  throw_inv H; [destruct (cleanupTempFiles_total _ _ _ _ H) |].
  discriminate H.
Qed.

(** When [processVideoFile] returns, the three staging files it named
    are gone. *)
Lemma processVideoFile_Return_clean env file userId w d w' :
  processVideoFile env file userId w = (Return d, w') ->
  exists inputPath outputPath thumbnailPath w4 pv w5,
    files w4 = <[inputPath := buffer file]> (files w)
    /\ processVideo env inputPath outputPath
         {| vo_quality := JS.Undefined; vo_format := JS.Undefined;
            vo_generateThumbnail := JS.Bool true;
            vo_thumbnailPath := Some thumbnailPath |} w4 = (Return pv, w5)
    /\ files w' !! inputPath = None
    /\ files w' !! outputPath = None
    /\ files w' !! thumbnailPath = None.
Proof.
  intros H.
  apply processVideoFile_Return in H
    as (i & o & t & w4 & pv & w5 & videoPut & thumbnailPut
        & Hf4 & Hrun & _ & _ & _ & _ & _ & _ & _ & _ & Hf).
  exists i, o, t, w4, pv, w5. split; [exact Hf4 |]. split; [exact Hrun |].
  rewrite Hf. rewrite !lookup_delete.
  repeat split; repeat case_decide; reflexivity || congruence.
Qed.

(** C1, on inputs where the code misses it. The transcode of a batch
    file fails: the file is recorded as failed and its input staging
    file is still there. The bucket refuses the thumbnail: the input,
    the transcode output and the screenshot are all still there. The
    same holds for [/process-video]. *)
Theorem staging_files_left_after_failure :
  let broken := Sample.make Sample.encode Sample.transcode_fails Sample.put in
  let refused := Sample.make Sample.encode Sample.transcode Sample.put_no_thumbnail in
  (fst (batch_process broken (Sample.request [Sample.clip]) Sample.start)
   = Ok "Batch processing completed"
       {| total := 1; successful := 0; failed := 1;
          results :=
            [FailedItem "clip.mp4"
               "ffmpeg exited with code 1: Invalid data found when processing input"] |}
   /\ files (snd (batch_process broken (Sample.request [Sample.clip]) Sample.start))
      !! "/app/media-processor/temp/input_1700000000000..mp4"
      = Some (buffer Sample.clip))
  /\ (let left_behind :=
        files (snd (batch_process refused (Sample.request [Sample.clip]) Sample.start)) in
      left_behind !! "/app/media-processor/temp/input_1700000000000..mp4"
      = Some (buffer Sample.clip)
      /\ left_behind !! "/app/media-processor/temp/output_1700000000001.mp4"
         = Some (Byte.x00 :: buffer Sample.clip)
      /\ left_behind !! "/app/media-processor/temp/thumbnail_1700000000002.jpg"
         = Some [Byte.xff])
  /\ (fst (process_video broken (Sample.request (Some Sample.clip)) Sample.start)
      = Fail 500 "Failed to process video"
          (Some "ffmpeg exited with code 1: Invalid data found when processing input")
      /\ files (snd (process_video broken (Sample.request (Some Sample.clip))
                       Sample.start))
         !! "/app/media-processor/temp/input_1700000000000..mp4"
         = Some (buffer Sample.clip)).
Proof.
  cbv zeta. split; [| split].
  - split; vm_compute; reflexivity.
  - repeat split; vm_compute; reflexivity.
  - split; vm_compute; reflexivity.
Qed.

(** C8. The original derivative of a processed image is the input
    buffer itself, whatever the profile: it is the first entry of what
    [processImage] returns, no other entry is called original, and the
    object that either image path uploads under the size original has
    the input bytes as its body. *)
Theorem processImage_original env :
  (forall buffer options w results w',
     processImage env buffer options w = (Return results, w') ->
     hd_error results = Some ("original", buffer)
     /\ forall b, In ("original", b) results -> b = buffer)
  /\ (forall req file w response w',
        req_upload req = Some file ->
        process_image env req w = (response, w') ->
        exists added,
          bucket w' = (bucket w ++ added)%list
          /\ forall c, In c added -> size_tag c = JS.Str "original" ->
                       Body c = buffer file)
  /\ (forall file userId w r w',
        processImageFile env file userId w = (r, w') ->
        exists added,
          bucket w' = (bucket w ++ added)%list
          /\ forall c, In c added -> size_tag c = JS.Str "original" ->
                       Body c = buffer file).
Proof.
  split; [| split].
  - intros buffer options w results w' H.
    apply processImage_Return in H as (t & m & l & _ & _ & _ & -> & _).
    split; [reflexivity |].
    intros b [Hb | [Hb | [Hb | [Hb | []]]]]; inversion Hb. reflexivity.
  - intros req file w response w' Hfile H.
    apply process_image_uploads in H as (added & Hb & Hmap & _).
    destruct (Hmap file Hfile) as (t & m & l & Hbodies).
    exists added. split; [exact Hb |]. apply (original_body _ _ _ _ _ Hbodies).
  - intros file userId w r w' H. unfold processImageFile in H.
    apply image_uploads in H as (t & m & l & added & Hb & _ & Hbodies & _).
    exists added. split; [exact Hb |]. apply (original_body _ _ _ _ _ Hbodies).
Qed.

Lemma processImage_original_witness :
  hd_error Sample.renditions = Some ("original", buffer Sample.photo).
Proof.
  apply (proj1 (processImage_original Sample.env) (buffer Sample.photo) Sample.override
           Sample.start Sample.renditions Sample.start).
  vm_compute. reflexivity.
Defined.

(** * Failures, batches and defaults *)

(** ** Running a handler forwards *)

Lemma Date_now_eq env w :
  Date_now env w = (Return (clock env (ticks w)), set_ticks (S (ticks w)) w).
Proof. reflexivity. Qed.

Lemma Date_toISOString_eq env w :
  Date_toISOString env w
  = (Return (Date.toISOString (clock env (ticks w))), set_ticks (S (ticks w)) w).
Proof. reflexivity. Qed.

Lemma fs_mkdir_eq dir w : fs_mkdir dir w = (Return tt, w).
Proof. reflexivity. Qed.

Lemma fs_writeFile_eq path data w :
  fs_writeFile path data w = (Return tt, set_files (<[path := data]> (files w)) w).
Proof. reflexivity. Qed.

Lemma set_files_id w : set_files (files w) w = w.
Proof. destruct w. reflexivity. Qed.

Lemma cleanupTempFiles_eq filePaths :
  forall w,
    cleanupTempFiles filePaths w
    = (Return tt,
       set_files (foldl (fun staging path => delete path staging) (files w) filePaths) w).
Proof.
  induction filePaths as [| filePath rest IH]; intros w.
  - cbn [cleanupTempFiles foldl]. rewrite set_files_id. reflexivity.
  - cbn [cleanupTempFiles foldl]. unfold bind at 1, try_catch, fs_unlink.
    destruct (files w !! filePath) as [data |] eqn:Hfile.
    + rewrite IH. reflexivity.
    + unfold ret at 1. rewrite IH, (delete_id _ _ Hfile). reflexivity.
Qed.

Lemma generateKey_processed env userId filename t w :
  generateKey env "processed" userId filename (Some t) w
  = (Return ("processed/user-" ++ userId ++ "/" ++ pretty t ++ "-"
             ++ JS.substr 2 9 (random36 env (draws w)) ++ "."
             ++ JS.pop (JS.split "." filename)),
     set_draws (S (draws w)) w).
Proof.
  unfold generateKey, bind, ret, Math_random36. cbv beta iota zeta.
  repeat match goal with
    | |- context [String.eqb ?a ?b] =>
        let v := eval vm_compute in (String.eqb a b) in
        change (String.eqb a b) with v
    end.
  cbv iota. rewrite !append_assoc. reflexivity.
Qed.

Lemma processVideo_eq env inputPath outputPath options w :
  processVideo env inputPath outputPath options w
  = (match error (ffmpeg_run env (command inputPath outputPath options) (files w)) with
     | None =>
         Return
           {| pv_duration :=
                match last (codecData (ffmpeg_run env
                                         (command inputPath outputPath options)
                                         (files w))) with
                | Some data => JS.Num (JS.parseFloat (duration data))
                | None => JS.Null
                end;
              pv_thumbnail :=
                if JS.truthy (JS.or_default (vo_generateThumbnail options) (JS.Bool true))
                then of_text (vo_thumbnailPath options) else JS.Null |}
     | Some message => Throw message
     end,
     set_files
       (files_after (ffmpeg_run env (command inputPath outputPath options) (files w)))
       w).
Proof.
  unfold processVideo. rewrite fold_left_last.
  destruct (error (ffmpeg_run env _ _)); reflexivity.
Qed.

Ltac simpl_world H :=
  cbn [ticks draws files bucket set_ticks set_draws set_files set_bucket
       vo_generateThumbnail vo_thumbnailPath of_text pv_duration pv_thumbnail] in H.

(** Every way in which [/process-video] ends for a request with a file,
    by the transcode that it runs, the two files that it reads back and
    the two objects that it sends. *)
Lemma process_video_cases env req file w :
  req_upload req = Some file ->
  let format := default "mp4" (body_format (req_body req)) in
  let generate :=
    JS.truthy (JS.or_default (of_text (body_generateThumbnail (req_body req)))
                 (JS.Bool true)) in
  let run := video_run env file (form_video_options env (req_body req) w) format w in
  let staging := files_after run in
  let failed message := Fail 500 "Failed to process video" (Some message) in
  let cleaned :=
    delete (staged_thumbnail env w)
      (delete (staged_output env format w) (delete (staged_input env file w) staging)) in
  exists response w',
    process_video env req w = (response, w')
    /\ match error run with
       | Some message =>
           response = failed message /\ bucket w' = bucket w /\ files w' = staging
       | None =>
           match staging !! staged_output env format w with
           | None =>
               response = failed (ENOENT (staged_output env format w))
               /\ bucket w' = bucket w /\ files w' = staging
           | Some body =>
               exists videoPut,
                 (Body videoPut = body
                  /\ type_tag videoPut = JS.Str "processed_video"
                  /\ ContentType videoPut = "video/" ++ format
                  /\ JS.assoc "duration" (Metadata videoPut) = reported_duration run)
                 /\ match s3_send env (bucket w) videoPut with
                    | Throw message =>
                        response = failed ("Failed to upload file: " ++ message)
                        /\ bucket w' = bucket w /\ files w' = staging
                    | Return _ =>
                        if generate then
                          match staging !! staged_thumbnail env w with
                          | None =>
                              response = failed (ENOENT (staged_thumbnail env w))
                              /\ bucket w' = (bucket w ++ [videoPut])%list
                              /\ files w' = staging
                          | Some shot =>
                              exists thumbnailPut,
                                (Body thumbnailPut = shot
                                 /\ type_tag thumbnailPut = JS.Str "video_thumbnail"
                                 /\ ContentType thumbnailPut = "image/jpeg")
                                /\ match s3_send env (bucket w ++ [videoPut])%list
                                           thumbnailPut with
                                   | Throw message =>
                                       response
                                       = failed ("Failed to upload file: " ++ message)
                                       /\ bucket w' = (bucket w ++ [videoPut])%list
                                       /\ files w' = staging
                                   | Return _ =>
                                       exists data result,
                                         response
                                         = Ok "Video processed successfully" data
                                         /\ success (vd_video data) = true
                                         /\ key (vd_video data) = Key videoPut
                                         /\ vd_duration data = reported_duration run
                                         /\ vd_thumbnail data = Some result
                                         /\ success result = true
                                         /\ key result = Key thumbnailPut
                                         /\ bucket w'
                                            = (bucket w ++ [videoPut; thumbnailPut])%list
                                         /\ files w' = cleaned
                                   end
                          end
                        else
                          exists data,
                            response = Ok "Video processed successfully" data
                            /\ success (vd_video data) = true
                            /\ key (vd_video data) = Key videoPut
                            /\ vd_duration data = reported_duration run
                            /\ vd_thumbnail data = None
                            /\ bucket w' = (bucket w ++ [videoPut])%list
                            /\ files w' = cleaned
                    end
           end
       end.
Proof.
  intros Hfile format generate run staging failed cleaned.
  destruct (process_video env req w) as [response w'] eqn:Hrun.
  exists response, w'. split; [reflexivity |].
  unfold process_video in Hrun. rewrite Hfile in Hrun.
  rewrite handler_bind, fs_mkdir_eq in Hrun. cbv beta iota in Hrun.
  rewrite handler_bind, Date_now_eq in Hrun. cbv beta iota in Hrun.
  rewrite handler_bind, Date_now_eq in Hrun. cbv beta iota in Hrun.
  rewrite handler_bind, Date_now_eq in Hrun. cbv beta iota in Hrun.
  rewrite handler_bind, fs_writeFile_eq in Hrun. cbv beta iota in Hrun.
  rewrite handler_bind, processVideo_eq in Hrun. simpl_world Hrun.
  change (ffmpeg_run env _ _) with run in Hrun.
  change (files_after run) with staging in Hrun.
  change (match last (codecData run) with
          | Some data => JS.Num (JS.parseFloat (duration data))
          | None => JS.Null
          end) with (reported_duration run) in Hrun.
  change (Path.join (Path.join (dirname__ env) "temp") ("input_" ++ _))
    with (staged_input env file w) in Hrun.
  change (Path.join (Path.join (dirname__ env) "temp") ("output_" ++ _))
    with (staged_output env format w) in Hrun.
  change (Path.join (Path.join (dirname__ env) "temp") ("thumbnail_" ++ _))
    with (staged_thumbnail env w) in Hrun.
  rewrite or_default_again in Hrun. fold generate in Hrun.
  destruct (error run) as [message |] eqn:Herror.
  { inversion Hrun; subst. repeat split. }
  rewrite handler_bind, Date_now_eq in Hrun. cbv beta iota in Hrun.
  rewrite handler_bind, generateKey_processed in Hrun. cbv beta iota in Hrun.
  rewrite handler_bind in Hrun. unfold fs_readFile in Hrun. simpl_world Hrun.
  destruct (staging !! staged_output env format w) as [body |] eqn:Houtput.
  2: { inversion Hrun; subst. repeat split. }
  rewrite handler_bind, Date_toISOString_eq in Hrun. cbv beta iota in Hrun.
  rewrite handler_bind in Hrun. unfold uploadFile in Hrun. simpl_world Hrun.
  match type of Hrun with
  | context [s3_send env (bucket w) ?c] => exists c
  end.
  split; [repeat split |].
  destruct (s3_send env (bucket w) _) as [reply | message] eqn:Hvideo.
  2: { inversion Hrun; subst. repeat split. }
  cbv beta iota in Hrun. simpl_world Hrun.
  rewrite handler_bind in Hrun.
  destruct generate eqn:Hgenerate.
  - unfold staged_thumbnail at 1 in Hrun. rewrite join_truthy in Hrun.
    cbn [andb] in Hrun.
    unfold bind at 1 in Hrun. rewrite generateKey_processed in Hrun.
    cbv beta iota in Hrun. unfold bind at 1 in Hrun. simpl_world Hrun.
    destruct (staging !! staged_thumbnail env w) as [shot |] eqn:Hshot.
    2: { inversion Hrun; subst. repeat split. }
    unfold bind at 1 in Hrun. rewrite Date_toISOString_eq in Hrun.
    cbv beta iota in Hrun. unfold bind at 1 in Hrun. simpl_world Hrun.
    match type of Hrun with
    | context [s3_send env (bucket w ++ _)%list ?c] => exists c
    end.
    split; [repeat split |].
    destruct (s3_send env (bucket w ++ _)%list _) as [reply2 | message] eqn:Hthumbnail.
    2: { inversion Hrun; subst. repeat split. }
    unfold ret at 1 in Hrun. cbv beta iota in Hrun.
    rewrite handler_bind, cleanupTempFiles_eq in Hrun. cbv beta iota in Hrun.
    unfold handler, ret in Hrun. inversion Hrun; subst.
    eexists _, _. do 7 (split; [reflexivity |]).
    split; [| reflexivity].
    cbn [bucket set_files set_bucket]. rewrite <- app_assoc. reflexivity.
  - rewrite andb_false_r in Hrun. unfold ret at 1 in Hrun. cbv beta iota in Hrun.
    rewrite handler_bind, cleanupTempFiles_eq in Hrun. cbv beta iota in Hrun.
    unfold handler, ret in Hrun. inversion Hrun; subst.
    eexists. repeat split.
Qed.

(** The same for [processVideoFile], which runs the transcode with the
    options of the batch path. *)
Lemma processVideoFile_cases env file userId w :
  let run := video_run env file (batch_video_options env w) "mp4" w in
  let staging := files_after run in
  let cleaned :=
    delete (staged_thumbnail env w)
      (delete (staged_output env "mp4" w) (delete (staged_input env file w) staging)) in
  exists r w',
    processVideoFile env file userId w = (r, w')
    /\ match error run with
       | Some message => r = Throw message /\ bucket w' = bucket w /\ files w' = staging
       | None =>
           match staging !! staged_output env "mp4" w with
           | None =>
               r = Throw (ENOENT (staged_output env "mp4" w))
               /\ bucket w' = bucket w /\ files w' = staging
           | Some body =>
               exists videoPut,
                 (Body videoPut = body
                  /\ type_tag videoPut = JS.Str "processed_video"
                  /\ ContentType videoPut = "video/mp4"
                  /\ JS.assoc "duration" (Metadata videoPut) = reported_duration run)
                 /\ match s3_send env (bucket w) videoPut with
                    | Throw message =>
                        r = Throw ("Failed to upload file: " ++ message)
                        /\ bucket w' = bucket w /\ files w' = staging
                    | Return _ =>
                        match staging !! staged_thumbnail env w with
                        | None =>
                            r = Throw (ENOENT (staged_thumbnail env w))
                            /\ bucket w' = (bucket w ++ [videoPut])%list
                            /\ files w' = staging
                        | Some shot =>
                            exists thumbnailPut,
                              (Body thumbnailPut = shot
                               /\ type_tag thumbnailPut = JS.Str "video_thumbnail"
                               /\ ContentType thumbnailPut = "image/jpeg")
                              /\ match s3_send env (bucket w ++ [videoPut])%list
                                         thumbnailPut with
                                 | Throw message =>
                                     r = Throw ("Failed to upload file: " ++ message)
                                     /\ bucket w' = (bucket w ++ [videoPut])%list
                                     /\ files w' = staging
                                 | Return _ =>
                                     exists d,
                                       r = Return d
                                       /\ success (vf_video d) = true
                                       /\ key (vf_video d) = Key videoPut
                                       /\ vf_duration d = reported_duration run
                                       /\ success (vf_thumbnail d) = true
                                       /\ key (vf_thumbnail d) = Key thumbnailPut
                                       /\ bucket w'
                                          = (bucket w ++ [videoPut; thumbnailPut])%list
                                       /\ files w' = cleaned
                                 end
                        end
                    end
           end
       end.
Proof.
  intros run staging cleaned.
  destruct (processVideoFile env file userId w) as [r w'] eqn:Hrun.
  exists r, w'. split; [reflexivity |].
  destruct (process_video_cases env
              {| req_userId := userId; req_body := no_fields; req_upload := Some file |}
              file w eq_refl) as (response & w'' & Hsingle & Hcases).
  rewrite process_video_default, Hrun in Hsingle.
  cbn [req_body no_fields body_format body_generateThumbnail default from_option id
       of_text JS.or_default JS.truthy] in Hcases.
  change (video_run env file _ "mp4" w) with run in Hcases.
  change (files_after run) with staging in Hcases.
  assert (w'' = w'
          /\ response = match r with
                        | Return d => Ok "Video processed successfully" (video_data d)
                        | Throw e => Fail 500 "Failed to process video" (Some e)
                        end) as [-> ->].
  { unfold answer in Hsingle. destruct r; inversion Hsingle; split; reflexivity. }
  clear Hsingle.
  destruct (error run) as [message |].
  { destruct Hcases as (Hr & Hb & Hf). destruct r; inversion Hr. repeat split; assumption. }
  destruct (staging !! staged_output env "mp4" w) as [body |].
  2: { destruct Hcases as (Hr & Hb & Hf). destruct r; inversion Hr.
       repeat split; assumption. }
  destruct Hcases as (videoPut & Hvideo & Hcases). exists videoPut.
  split; [exact Hvideo |].
  destruct (s3_send env (bucket w) videoPut) as [reply | message].
  2: { destruct Hcases as (Hr & Hb & Hf). destruct r; inversion Hr.
       repeat split; assumption. }
  destruct (staging !! staged_thumbnail env w) as [shot |].
  2: { destruct Hcases as (Hr & Hb & Hf). destruct r; inversion Hr.
       repeat split; assumption. }
  destruct Hcases as (thumbnailPut & Hthumbnail & Hcases). exists thumbnailPut.
  split; [exact Hthumbnail |].
  destruct (s3_send env (bucket w ++ [videoPut])%list thumbnailPut) as [reply2 | message].
  2: { destruct Hcases as (Hr & Hb & Hf). destruct r; inversion Hr.
       repeat split; assumption. }
  destruct Hcases as (data & result & Hr & Hok & Hkey & Hduration & Hthumb & Hok2 & Hkey2
                      & Hb & Hf).
  destruct r as [d | e]; inversion Hr; subst data.
  cbn [video_data vd_video vd_thumbnail vd_duration] in *.
  inversion Hthumb; subst result.
  exists d. repeat split; assumption.
Qed.

(** ** Image files *)










(** ** The thumbnail of a video *)

Lemma batch_file_video env file userId w :
  isVideo (mimetype file) = true ->
  batch_file env file userId w
  = match processVideoFile env file userId w with
    | (Return d, w') => (Return (VideoItem (originalname file) d), w')
    | (Throw e, w') => (Return (FailedItem (originalname file) e), w')
    end.
Proof.
  intros Hvideo. unfold batch_file, try_catch.
  rewrite (video_is_not_image _ Hvideo), Hvideo. unfold bind, ret.
  destruct (processVideoFile env file userId w) as [[d | e] w']; reflexivity.
Qed.

(** C4 (amended). The thumbnail of a video is required, not best-effort.
    For a video whose transcode succeeds, the batch path records
    success=true only if the screenshot was read back from the staging
    directory and the store accepted it as the object that follows the
    video. When the screenshot cannot be read, or the store refuses the
    thumbnail, the file fails, and the failed outcome carries the
    message of what failed: the read or the upload of the video, or the
    read or the upload of the thumbnail, in which case the video stays
    in the bucket. [/process-video] does the same whenever the
    [generateThumbnail] field is missing or truthy, its failure being
    the answer 500 [Failed to process video] with the message; a
    successful answer is without a thumbnail exactly when the field is
    falsy. *)
Theorem video_thumbnail_is_required env :
  (forall file userId w,
     let run := video_run env file (batch_video_options env w) "mp4" w in
     isVideo (mimetype file) = true ->
     error run = None ->
     exists entry w',
       batch_file env file userId w = (Return entry, w')
       /\ (files_after run !! staged_thumbnail env w = None ->
           item_success entry = false)
       /\ ((forall earlier c,
              type_tag c = JS.Str "video_thumbnail" ->
              exists message, s3_send env earlier c = Throw message) ->
           item_success entry = false)
       /\ match entry with
          | VideoItem name _ =>
              name = originalname file
              /\ thumbnail_stored env w (files_after run) (staged_thumbnail env w) w'
          | FailedItem name e =>
              name = originalname file
              /\ video_failure env w (files_after run) (staged_output env "mp4" w)
                   (staged_thumbnail env w) e w'
          | ImageItem _ _ => False
          end)
  /\ (forall req file w,
        let format := default "mp4" (body_format (req_body req)) in
        let run := video_run env file (form_video_options env (req_body req) w)
                     format w in
        req_upload req = Some file ->
        JS.truthy (JS.or_default (of_text (body_generateThumbnail (req_body req)))
                     (JS.Bool true)) = true ->
        error run = None ->
        exists response w',
          process_video env req w = (response, w')
          /\ (files_after run !! staged_thumbnail env w = None ->
              exists e, response = Fail 500 "Failed to process video" (Some e))
          /\ ((forall earlier c,
                 type_tag c = JS.Str "video_thumbnail" ->
                 exists message, s3_send env earlier c = Throw message) ->
              exists e, response = Fail 500 "Failed to process video" (Some e))
          /\ match response with
             | Ok _ data =>
                 vd_thumbnail data <> None
                 /\ thumbnail_stored env w (files_after run) (staged_thumbnail env w) w'
             | Fail status error message =>
                 status = 500%nat
                 /\ error = "Failed to process video"
                 /\ exists e,
                      message = Some e
                      /\ video_failure env w (files_after run)
                           (staged_output env format w) (staged_thumbnail env w) e w'
             end)
  /\ (forall req w message data w',
        process_video env req w = (Ok message data, w') ->
        vd_thumbnail data = None
        <-> JS.truthy (JS.or_default (of_text (body_generateThumbnail (req_body req)))
                         (JS.Bool true)) = false).
Proof.
  split; [| split].
  - intros file userId w run Hvideo Herror.
    destruct (processVideoFile_cases env file userId w) as (r & w' & Hrun & Hcases).
    cbv zeta in Hcases. fold run in Hcases. rewrite Herror in Hcases.
    rewrite (batch_file_video _ _ _ _ Hvideo), Hrun.
    destruct (files_after run !! staged_output env "mp4" w) as [body |] eqn:Houtput.
    2: { destruct Hcases as (-> & Hb & _). eexists _, w'. split; [reflexivity |].
         split; [reflexivity |]. split; [reflexivity |]. split; [reflexivity |].
         left. repeat split; assumption. }
    destruct Hcases as (videoPut & (Hbody & Htype & _) & Hcases).
    destruct (s3_send env (bucket w) videoPut) as [reply | message] eqn:Hsend.
    2: { destruct Hcases as (-> & Hb & _). eexists _, w'. split; [reflexivity |].
         split; [reflexivity |]. split; [reflexivity |]. split; [reflexivity |].
         right. left. exists body, videoPut, message. repeat split; assumption. }
    destruct (files_after run !! staged_thumbnail env w) as [shot |] eqn:Hshot.
    2: { destruct Hcases as (-> & Hb & _). eexists _, w'. split; [reflexivity |].
         split; [reflexivity |]. split; [reflexivity |]. split; [reflexivity |].
         right. right. left. exists videoPut. repeat split; assumption. }
    destruct Hcases as (thumbnailPut & (Hbody2 & Htype2 & _) & Hcases).
    destruct (s3_send env (bucket w ++ [videoPut])%list thumbnailPut)
      as [reply2 | message] eqn:Hsend2.
    2: { destruct Hcases as (-> & Hb & _). eexists _, w'. split; [reflexivity |].
         split; [reflexivity |]. split; [reflexivity |]. split; [reflexivity |].
         right. right. right. exists videoPut, shot, thumbnailPut, message.
         repeat split; assumption. }
    destruct Hcases as (d & -> & _ & _ & _ & _ & _ & Hb & _).
    eexists _, w'. split; [reflexivity |].
    split; [intros Hnone; discriminate Hnone |]. split.
    { intros Hrefuses. destruct (Hrefuses (bucket w ++ [videoPut])%list _ Htype2) as (message & Hrefused).
      rewrite Hrefused in Hsend2. discriminate Hsend2. }
    split; [reflexivity |].
    exists shot, videoPut, thumbnailPut, reply2. repeat split; assumption.
  - intros req file w format run Hfile Hgenerate Herror.
    destruct (process_video_cases env req file w Hfile) as (response & w' & Hrun & Hcases).
    cbv zeta in Hcases. fold format in Hcases. fold run in Hcases.
    rewrite Herror, Hgenerate in Hcases.
    exists response, w'. split; [exact Hrun |].
    destruct (files_after run !! staged_output env format w) as [body |] eqn:Houtput.
    2: { destruct Hcases as (-> & Hb & _).
         split; [intros _; eexists; reflexivity |].
         split; [intros _; eexists; reflexivity |].
         split; [reflexivity |]. split; [reflexivity |].
         eexists. split; [reflexivity |]. left. repeat split; assumption. }
    destruct Hcases as (videoPut & (Hbody & Htype & _) & Hcases).
    destruct (s3_send env (bucket w) videoPut) as [reply | message] eqn:Hsend.
    2: { destruct Hcases as (-> & Hb & _).
         split; [intros _; eexists; reflexivity |].
         split; [intros _; eexists; reflexivity |].
         split; [reflexivity |]. split; [reflexivity |].
         eexists. split; [reflexivity |].
         right. left. exists body, videoPut, message. repeat split; assumption. }
    destruct (files_after run !! staged_thumbnail env w) as [shot |] eqn:Hshot.
    2: { destruct Hcases as (-> & Hb & _).
         split; [intros _; eexists; reflexivity |].
         split; [intros _; eexists; reflexivity |].
         split; [reflexivity |]. split; [reflexivity |].
         eexists. split; [reflexivity |].
         right. right. left. exists videoPut. repeat split; assumption. }
    destruct Hcases as (thumbnailPut & (Hbody2 & Htype2 & _) & Hcases).
    destruct (s3_send env (bucket w ++ [videoPut])%list thumbnailPut)
      as [reply2 | message] eqn:Hsend2.
    2: { destruct Hcases as (-> & Hb & _).
         split; [intros _; eexists; reflexivity |].
         split; [intros _; eexists; reflexivity |].
         split; [reflexivity |]. split; [reflexivity |].
         eexists. split; [reflexivity |].
         right. right. right. exists videoPut, shot, thumbnailPut, message.
         repeat split; assumption. }
    destruct Hcases as (data & result & -> & _ & _ & _ & Hthumb & _ & _ & Hb & _).
    split; [intros Hnone; discriminate Hnone |]. split.
    { intros Hrefuses. destruct (Hrefuses (bucket w ++ [videoPut])%list _ Htype2) as (message & Hrefused).
      rewrite Hrefused in Hsend2. discriminate Hsend2. }
    split; [rewrite Hthumb; discriminate |].
    exists shot, videoPut, thumbnailPut, reply2. repeat split; assumption.
  - intros req w message data w' Hrun.
    apply process_video_Ok in Hrun
      as (file & i & o & t & w4 & pv & w5 & videoPut
          & _ & _ & _ & _ & _ & _ & _ & Hthumbnail & _).
    destruct (JS.truthy _).
    + destruct Hthumbnail as (thumbnailPut & result & reply & _ & -> & _).
      split; intros H; discriminate H.
    + destruct Hthumbnail as [_ ->]. split; reflexivity.
Qed.

Lemma video_thumbnail_is_required_witness :
  exists entry w',
    batch_file Sample.env Sample.clip "42" Sample.start = (Return entry, w')
    /\ (files_after (video_run Sample.env Sample.clip
                      (batch_video_options Sample.env Sample.start) "mp4" Sample.start)
        !! staged_thumbnail Sample.env Sample.start = None ->
        item_success entry = false).
Proof.
  destruct (proj1 (video_thumbnail_is_required Sample.env) Sample.clip "42" Sample.start)
    as (entry & w' & Hrun & Hmissing & _).
  - reflexivity.
  - vm_compute. reflexivity.
  - exists entry, w'. split; [exact Hrun | exact Hmissing].
Defined.

(** ** The profile of the batch path *)






(** ** The batch and the limits of multer *)

Lemma upload_array_accepts (sent : list File) :
  (length sent <= limits_files)%nat ->
  Forall (fun file => Z.of_nat (length (buffer file)) < limits_fileSize) sent ->
  upload_array 10 sent = Return sent.
Proof.
  intros Hcount Hsizes. unfold upload_array.
  destruct (limits_files <? length sent)%nat eqn:Hfiles;
    [apply Nat.ltb_lt in Hfiles; lia |].
  destruct (10 <? length sent)%nat eqn:Hmax;
    [apply Nat.ltb_lt in Hmax; unfold limits_files in Hcount; lia |].
  replace (forallb _ sent) with true; [reflexivity |].
  symmetry. apply forallb_forall. intros file Hin.
  rewrite List.Forall_forall in Hsizes. apply Z.ltb_lt, Hsizes, Hin.
Qed.

Lemma batch_process_accepted env req w :
  (length (req_upload req) <= limits_files)%nat ->
  Forall (fun file => Z.of_nat (length (buffer file)) < limits_fileSize)
    (req_upload req) ->
  forall entries w',
    batch_files env (req_upload req) (req_userId req) [] w = (Return entries, w') ->
    req_upload req <> [] ->
    batch_process env req w
    = (Ok "Batch processing completed"
         {| total := length (req_upload req);
            successful := length (List.filter (fun r => item_success r) entries);
            failed := length (List.filter (fun r => negb (item_success r)) entries);
            results := entries |}, w').
Proof.
  intros Hcount Hsizes entries w' Hrun Hfiles.
  unfold batch_process. rewrite (upload_array_accepts _ Hcount Hsizes).
  unfold handler.
  destruct (req_upload req) as [| f fs] eqn:Hupload; [contradiction |].
  unfold bind at 1. rewrite Hrun. reflexivity.
Qed.

(** C3 (amended). A batch of one to five files, each below the size
    limit of multer, is answered with one outcome per file, in
    submission order, with total equal to the number of files and
    successful + failed = total. The outcome of each file is the
    outcome of a batch of that file alone that starts from the state
    that the files before it have left (the clock and the random source
    included, which the keys embed). A file of an unsupported kind
    contributes the failed outcome [Unsupported file type], and the
    outcomes of the other files, and the state that the batch leaves,
    are those of the same files without it, run from the same state.
    An empty batch is answered 400 [No files provided]; a batch of more
    than five files is refused by multer and answered 500 [Internal
    server error]; neither has counts or any effect. *)
Theorem batch_process_outcomes env req w :
  (req_upload req <> [] ->
   (length (req_upload req) <= limits_files)%nat ->
   Forall (fun file => Z.of_nat (length (buffer file)) < limits_fileSize)
     (req_upload req) ->
   exists data w',
     batch_process env req w = (Ok "Batch processing completed" data, w')
     /\ total data = length (req_upload req)
     /\ map item_name (results data) = map originalname (req_upload req)
     /\ (successful data + failed data)%nat = total data
     /\ (forall before file after,
           req_upload req = (before ++ file :: after)%list ->
           exists earlier w1 entry w2,
             batch_files env before (req_userId req) [] w = (Return earlier, w1)
             /\ nth_error (results data) (length before) = Some entry
             /\ batch_process env
                  {| req_userId := req_userId req; req_body := req_body req;
                     req_upload := [file] |} w1
                = (Ok "Batch processing completed"
                     {| total := 1;
                        successful := if item_success entry then 1 else 0;
                        failed := if item_success entry then 0 else 1;
                        results := [entry] |}, w2))
     /\ (forall before file after,
           req_upload req = (before ++ file :: after)%list ->
           isImage (mimetype file) = false ->
           isVideo (mimetype file) = false ->
           exists others,
             batch_files env (before ++ after) (req_userId req) [] w
             = (Return others, w')
             /\ results data
                = (take (length before) others
                   ++ FailedItem (originalname file) "Unsupported file type"
                      :: drop (length before) others)%list
             /\ (1 <= failed data)%nat))
  /\ (req_upload req = [] ->
      batch_process env req w = (Fail 400 "No files provided" None, w))
  /\ ((limits_files < length (req_upload req))%nat ->
      batch_process env req w = (Fail 500 "Internal server error" None, w)).
Proof.
  split; [| split].
  2: { intros Hempty. unfold batch_process. rewrite Hempty. reflexivity. }
  2: { intros Hmany. unfold batch_process, upload_array.
       apply Nat.ltb_lt in Hmany. rewrite Hmany. reflexivity. }
  intros Hfiles Hcount Hsizes.
  destruct (batch_files_Return env (req_userId req) (req_upload req) [] w)
    as (entries & w' & _ & Hrun & Hnames).
  exists {| total := length (req_upload req);
            successful := length (List.filter (fun r => item_success r) entries);
            failed := length (List.filter (fun r => negb (item_success r)) entries);
            results := entries |}, w'.
  split; [| split; [| split; [| split; [| split]]]].
  - apply batch_process_accepted; assumption.
  - reflexivity.
  - exact Hnames.
  - cbn [successful failed total]. rewrite filter_split.
    rewrite <- (length_map item_name), Hnames, length_map. reflexivity.
  - intros before file after Hsplit. cbn [results].
    rewrite Hsplit in Hrun. rewrite batch_files_app in Hrun.
    destruct (batch_files_Return env (req_userId req) before [] w)
      as (rs1 & w1 & _ & Hbefore & Hnames1).
    rewrite Hbefore in Hrun. cbn [batch_files] in Hrun. unfold bind at 1 in Hrun.
    destruct (batch_file_Return env (req_userId req) file w1)
      as (entry & w2 & Hfile & _).
    rewrite Hfile in Hrun.
    destruct (batch_files_Return env (req_userId req) after (rs1 ++ [entry])%list w2)
      as (rs2 & w3 & Hacc & _ & _).
    rewrite Hacc in Hrun. inversion Hrun; subst entries w3. clear Hrun.
    assert (length rs1 = length before) as Hlen.
    { rewrite <- (length_map item_name), Hnames1, length_map. reflexivity. }
    exists rs1, w1, entry, w2. split; [exact Hbefore |]. split.
    + rewrite <- app_assoc, <- Hlen, nth_error_app2 by lia.
      rewrite Nat.sub_diag. reflexivity.
    + assert (In file (req_upload req)) as Hin.
      { rewrite Hsplit. apply in_or_app. right. left. reflexivity. }
      rewrite (batch_process_accepted env _ w1) with (entries := [entry]) (w' := w2).
      * cbn [req_upload length List.filter]. destruct (item_success entry); reflexivity.
      * cbn [req_upload length]. unfold limits_files. lia.
      * cbn [req_upload]. constructor; [| constructor].
        rewrite List.Forall_forall in Hsizes. apply Hsizes, Hin.
      * cbn [req_upload req_userId batch_files]. unfold bind at 1. rewrite Hfile.
        reflexivity.
      * discriminate.
  - intros before file after Hsplit Himage Hvideo. cbn [results failed].
    rewrite Hsplit in Hrun. rewrite batch_files_app in Hrun.
    destruct (batch_files_Return env (req_userId req) before [] w)
      as (rs1 & w1 & _ & Hbefore & Hnames1).
    rewrite Hbefore in Hrun. cbn [batch_files] in Hrun. unfold bind at 1 in Hrun.
    rewrite (batch_file_unsupported env _ _ _ Himage Hvideo) in Hrun.
    destruct (batch_files_Return env (req_userId req) after
                (rs1 ++ [FailedItem (originalname file) "Unsupported file type"])%list w1)
      as (rs2 & w2 & Hacc & Hafter & _).
    rewrite Hacc in Hrun. inversion Hrun; subst entries w2. clear Hrun.
    assert (length rs1 = length before) as Hlen.
    { rewrite <- (length_map item_name), Hnames1, length_map. reflexivity. }
    exists (rs1 ++ rs2)%list. split; [| split].
    + rewrite batch_files_app, Hbefore.
      destruct (batch_files_Return env (req_userId req) after rs1 w1)
        as (rs2' & w2' & Hacc' & Hafter' & _).
      rewrite Hafter in Hafter'. inversion Hafter'; subst rs2' w2'. exact Hacc'.
    + rewrite <- Hlen, take_app_length, drop_app_length, <- app_assoc. reflexivity.
    + rewrite <- app_assoc. apply (filter_member (fun r => negb (item_success r))).
      reflexivity.
Qed.

Lemma batch_process_outcomes_witness :
  exists data w',
    batch_process Sample.env
      (Sample.request [Sample.photo; Sample.letter; Sample.clip]) Sample.start
    = (Ok "Batch processing completed" data, w')
    /\ total data = 3%nat
    /\ map item_name (results data) = ["cat.png"; "letter.pdf"; "clip.mp4"]
    /\ (successful data + failed data)%nat = total data.
Proof.
  destruct (proj1 (batch_process_outcomes Sample.env
                     (Sample.request [Sample.photo; Sample.letter; Sample.clip])
                     Sample.start))
    as (data & w' & Hrun & Htotal & Hnames & Hsum & _).
  - discriminate.
  - vm_compute. lia.
  - repeat constructor; vm_compute; reflexivity.
  - exists data, w'. repeat split; assumption.
Defined.

(** C3, as stated, fails. An empty batch is answered with status 400
    and no counts. A batch of six files never reaches the handler:
    multer refuses it and the error handler answers 500 without counts.
    And the outcome of a file is not what running it alone produces:
    in the batch of a photo, a letter and a clip, the video of the clip
    is stored under a key with the fifth random id and the clock
    reading that the batch had come to; a batch of the clip alone,
    from the same start, stores it under another key. *)
Lemma batch_process_counterexamples :
  batch_process Sample.env (Sample.request []) Sample.start
  = (Fail 400 "No files provided" None, Sample.start)
  /\ batch_process Sample.env
       (Sample.request [Sample.photo; Sample.photo; Sample.photo; Sample.photo;
                        Sample.photo; Sample.photo]) Sample.start
     = (Fail 500 "Internal server error" None, Sample.start)
  /\ (exists batch alone w1 w2,
        batch_process Sample.env
          (Sample.request [Sample.photo; Sample.letter; Sample.clip]) Sample.start
        = (Ok "Batch processing completed" batch, w1)
        /\ batch_process Sample.env (Sample.request [Sample.clip]) Sample.start
           = (Ok "Batch processing completed" alone, w2)
        /\ map video_key (results batch)
           = [None; None; Some "processed/user-42/1700000000008-4k3x9q7w1.mp4"]
        /\ map video_key (results alone)
           = [Some "processed/user-42/1700000000003-0k3x9q7w1.mp4"]).
Proof.
  split; [reflexivity |]. split; [reflexivity |].
  eexists _, _, _, _.
  split; [vm_compute; reflexivity |]. split; [vm_compute; reflexivity |].
  split; reflexivity.
Qed.

(** * Further properties of the storage service *)

(** ** Splitting and joining *)

Lemma append_cancel (a x y : string) : a ++ x = a ++ y -> x = y.
Proof.
  induction a as [| c a IH]; intros H; [exact H |].
  change (String c (a ++ x) = String c (a ++ y)) in H. inversion H. auto.
Qed.

Lemma length_append (a b : string) :
  String.length (a ++ b) = (String.length a + String.length b)%nat.
Proof.
  induction a as [| c a IH]; [reflexivity |].
  change (S (String.length (a ++ b)) = S (String.length a + String.length b)).
  rewrite IH. reflexivity.
Qed.

Lemma split_not_nil sep s : JS.split sep s <> [].
Proof.
  destruct s as [| c s]; simpl; [discriminate |].
  destruct (Ascii.eqb c sep); [discriminate |].
  destruct (JS.split sep s); discriminate.
Qed.

(** A text that ends with a separator-free part after a separator
    splits into the parts before it, then that part. *)
Lemma split_app_last sep base ext :
  JS.has_char sep ext = false ->
  JS.split sep (base ++ String sep ext) = (JS.split sep base ++ [ext])%list.
Proof.
  intros Hext. induction base as [| c base IH].
  - change ("" ++ String sep ext) with (String sep ext). simpl.
    rewrite Ascii.eqb_refl, (split_without_separator _ _ Hext). reflexivity.
  - change (String c base ++ String sep ext) with (String c (base ++ String sep ext)).
    simpl. rewrite IH. destruct (Ascii.eqb c sep); [reflexivity |].
    destruct (JS.split sep base) as [| seg segs] eqn:Hsplit; [| reflexivity].
    destruct (split_not_nil _ _ Hsplit).
Qed.

(** Joining what was split gives the text back. *)
Lemma join_split sep s : Array_join (String sep "") (JS.split sep s) = s.
Proof.
  unfold Array_join. induction s as [| c s IH]; [reflexivity |].
  cbn [JS.split]. destruct (Ascii.eqb c sep) eqn:Hc.
  - apply Ascii.eqb_eq in Hc. subst c.
    destruct (JS.split sep s) as [| seg segs] eqn:Hsplit;
      [destruct (split_not_nil _ _ Hsplit) |].
    rewrite <- IH. reflexivity.
  - destruct (JS.split sep s) as [| seg segs] eqn:Hsplit;
      [destruct (split_not_nil _ _ Hsplit) |].
    destruct segs as [| seg' segs']; rewrite <- IH; reflexivity.
Qed.

(** The last part of a split holds no separator. *)
Lemma pop_no_separator sep s : JS.has_char sep (JS.pop (JS.split sep s)) = false.
Proof.
  unfold JS.pop. induction s as [| c s IH]; [reflexivity |].
  simpl. destruct (Ascii.eqb c sep) eqn:Hc.
  - destruct (JS.split sep s) as [| seg segs] eqn:Hsplit;
      [destruct (split_not_nil _ _ Hsplit) | exact IH].
  - destruct (JS.split sep s) as [| seg segs] eqn:Hsplit;
      [destruct (split_not_nil _ _ Hsplit) |].
    destruct segs as [| seg' segs'].
    + cbn [List.last] in *. cbn [JS.has_char]. rewrite Hc, IH. reflexivity.
    + exact IH.
Qed.

(** A text is its parts but the last, joined, then the last part. *)
Lemma split_parts sep s :
  match removelast (JS.split sep s) with
  | [] => s = JS.pop (JS.split sep s)
  | _ :: _ =>
      s = Array_join (String sep "") (removelast (JS.split sep s))
          ++ String sep (JS.pop (JS.split sep s))
  end.
Proof.
  pose proof (join_split sep s) as Hjoin.
  unfold JS.pop. set (ext := List.last (JS.split sep s) "") in *.
  destruct (@exists_last _ (JS.split sep s) (split_not_nil sep s)) as (front & x & Hsplit).
  assert (ext = x) as Hx by (unfold ext; rewrite Hsplit; apply last_last).
  rewrite Hsplit, removelast_last in *. rewrite Hx. clear Hx ext Hsplit.
  destruct front as [| p front]; [symmetry; exact Hjoin |].
  rewrite <- Hjoin. unfold Array_join. clear Hjoin.
  revert p. induction front as [| q front IH]; intros p; [reflexivity |].
  change ((p :: q :: front) ++ [x])%list with (p :: (q :: front) ++ [x])%list.
  cbn [String.concat app]. cbn [String.concat app] in IH.
  rewrite (IH q), !append_assoc. reflexivity.
Qed.

(** ** Sibling keys *)

Lemma sibling_of_dotted base ext size :
  JS.has_char "." ext = false ->
  generateThumbnailKey (base ++ "." ++ ext) size
  = base ++ "-" ++ default "thumbnail" size ++ "." ++ ext.
Proof.
  intros Hext. unfold generateThumbnailKey, JS.pop.
  change (base ++ "." ++ ext) with (base ++ String "." ext).
  rewrite (split_app_last _ _ _ Hext), last_last, removelast_last, join_split.
  reflexivity.
Qed.

(** X1. For a key that ends with a dot and a dot-free extension, the
    sibling key has the size inserted before that extension, after a
    hyphen: [base.ext] becomes [base-size.ext]. *)
Theorem generateThumbnailKey_dotted base ext size :
  JS.has_char "." ext = false ->
  generateThumbnailKey (base ++ "." ++ ext) size
  = base ++ "-" ++ default "thumbnail" size ++ "." ++ ext.
Proof. apply sibling_of_dotted. Qed.

Lemma generateThumbnailKey_dotted_witness :
  generateThumbnailKey ("processed/user-42/1700000000000-0k3x9q7w1" ++ "." ++ "png")
    (Some "medium")
  = "processed/user-42/1700000000000-0k3x9q7w1" ++ "-" ++ "medium" ++ "." ++ "png".
Proof.
  apply (generateThumbnailKey_dotted "processed/user-42/1700000000000-0k3x9q7w1" "png"
           (Some "medium")).
  reflexivity.
Defined.

(** X2. For a key without any dot the sibling key is a hyphen, the size,
    a dot and then the whole key: nothing of the key is kept before the
    size, its directories included. *)
Theorem generateThumbnailKey_dotless originalKey size :
  JS.has_char "." originalKey = false ->
  generateThumbnailKey originalKey size
  = "-" ++ default "thumbnail" size ++ "." ++ originalKey.
Proof.
  intros Hkey. unfold generateThumbnailKey.
  rewrite (split_without_separator _ _ Hkey). reflexivity.
Qed.

Lemma generateThumbnailKey_dotless_witness :
  generateThumbnailKey "avatars/user-42/portrait" None
  = "-" ++ "thumbnail" ++ "." ++ "avatars/user-42/portrait".
Proof.
  apply (generateThumbnailKey_dotless "avatars/user-42/portrait" None). reflexivity.
Defined.

(** X3. Whatever the key and the size, the sibling key has the same
    last dot-separated segment as the key, so it keeps its extension. *)
Theorem generateThumbnailKey_keeps_extension originalKey size :
  JS.pop (JS.split "." (generateThumbnailKey originalKey size))
  = JS.pop (JS.split "." originalKey).
Proof.
  unfold generateThumbnailKey.
  set (ext := JS.pop (JS.split "." originalKey)).
  set (base := Array_join "." (removelast (JS.split "." originalKey))).
  replace (base ++ "-" ++ default "thumbnail" size ++ "." ++ ext)
    with ((base ++ "-" ++ default "thumbnail" size) ++ String "." ext)
    by (rewrite !append_assoc; reflexivity).
  rewrite split_app_last by apply pop_no_separator.
  unfold JS.pop at 1. apply last_last.
Qed.

(** X4. The sibling key is longer than the key by the size and one
    character when the key holds a dot, and by the size and two
    characters when it holds none; it is never the key itself, so
    storing a sibling never overwrites the object it was derived
    from. *)
Theorem generateThumbnailKey_is_longer originalKey size :
  String.length (generateThumbnailKey originalKey size)
  = (String.length originalKey + String.length (default "thumbnail" size)
     + (if JS.has_char "." originalKey then 1 else 2))%nat
  /\ generateThumbnailKey originalKey size <> originalKey.
Proof.
  assert (String.length (generateThumbnailKey originalKey size)
          = (String.length originalKey + String.length (default "thumbnail" size)
             + (if JS.has_char "." originalKey then 1 else 2))%nat) as Hlen.
  { pose proof (split_parts "." originalKey) as Hparts.
    pose proof (pop_no_separator "." originalKey) as Hext.
    unfold generateThumbnailKey.
    destruct (removelast (JS.split "." originalKey)) as [| p front].
    - rewrite <- Hparts in *. rewrite Hext. change (Array_join "." []) with "".
      rewrite !length_append. simpl. lia.
    - set (base := Array_join "." (p :: front)) in *.
      set (ext := JS.pop (JS.split "." originalKey)) in *.
      assert (JS.has_char "." originalKey = true) as ->.
      { rewrite Hparts. clear. induction base as [| c base IH].
        - reflexivity.
        - change (String c base ++ String "." ext)
            with (String c (base ++ String "." ext)).
          cbn [JS.has_char]. rewrite IH. apply orb_true_r. }
      rewrite Hparts at 1. change (String "." ext) with ("." ++ ext).
      rewrite !length_append. simpl. lia. }
  split; [exact Hlen |]. intros Heq. rewrite Heq in Hlen.
  destruct (JS.has_char "." originalKey); lia.
Qed.

(** X5. The sibling of a generated key has the size inserted between
    the unique part of the key and its extension: it lies in the same
    directory and carries the same timestamp and random id. *)
Theorem generateThumbnailKey_of_generateKey env type userId filename timestamp w size :
  exists stem w',
    generateKey env type userId filename timestamp w
    = (Return (stem ++ "." ++ JS.pop (JS.split "." filename)), w')
    /\ generateThumbnailKey (stem ++ "." ++ JS.pop (JS.split "." filename)) size
       = stem ++ "-" ++ default "thumbnail" size ++ "."
         ++ JS.pop (JS.split "." filename).
Proof.
  destruct (generateKey_shape env type userId filename timestamp w)
    as (stem & w' & Hkey).
  exists stem, w'. split; [exact Hkey |].
  apply sibling_of_dotted, pop_no_separator.
Qed.

(** ** Keys and addresses *)

Lemma pretty_N_go_no_hyphen x s :
  JS.has_char "-" s = false -> JS.has_char "-" (pretty_N_go x s) = false.
Proof.
  revert s. induction (N.lt_wf_0 x) as [x _ IH]. intros s Hs.
  assert (x = 0 \/ 0 < x)%N as [-> | Hpos] by lia.
  - rewrite pretty_N_go_0. exact Hs.
  - rewrite pretty_N_go_step by exact Hpos. apply IH.
    + apply N.div_lt; lia.
    + cbn [JS.has_char]. rewrite Hs. unfold pretty_N_char.
      repeat case_match; reflexivity.
Qed.

(** A timestamp that is not negative is written without a hyphen. *)
Lemma pretty_no_hyphen (t : Z) : 0 <= t -> JS.has_char "-" (pretty t) = false.
Proof.
  intros Ht. destruct t as [| p | p]; [reflexivity | | lia].
  unfold pretty, pretty_Z, pretty, pretty_positive, pretty, pretty_N.
  case_decide; [reflexivity |]. apply pretty_N_go_no_hyphen. reflexivity.
Qed.

(** Two texts that agree and whose heads are free of the separator
    that follows them have the same heads and the same tails. *)
Lemma first_separator c d1 d2 x y :
  JS.has_char c d1 = false ->
  JS.has_char c d2 = false ->
  d1 ++ String c x = d2 ++ String c y ->
  d1 = d2 /\ x = y.
Proof.
  revert d2. induction d1 as [| a d1 IH]; intros [| b d2] H1 H2 H.
  - inversion H. split; reflexivity.
  - change (String c x = String b (d2 ++ String c y)) in H. inversion H; subst b.
    cbn [JS.has_char] in H2. rewrite Ascii.eqb_refl in H2. discriminate H2.
  - change (String a (d1 ++ String c x) = String c y) in H. inversion H; subst a.
    cbn [JS.has_char] in H1. rewrite Ascii.eqb_refl in H1. discriminate H1.
  - change (String a (d1 ++ String c x) = String b (d2 ++ String c y)) in H.
    inversion H; subst b.
    cbn [JS.has_char] in H1, H2.
    apply orb_false_elim in H1 as [_ H1]. apply orb_false_elim in H2 as [_ H2].
    destruct (IH d2 H1 H2) as [-> ->]; [assumption |]. split; reflexivity.
Qed.

(** The parts of a generated key: a prefix that the kind and the owner
    decide, the timestamp, the random id, the extension. *)
Lemma generateKey_parts env type userId :
  exists prefix,
    forall filename t w,
      generateKey env type userId filename (Some t) w
      = (Return (prefix ++ pretty t ++ String "-"
                   (JS.substr 2 9 (random36 env (draws w))
                    ++ String "." (JS.pop (JS.split "." filename)))),
         set_draws (S (draws w)) w).
Proof.
  unfold generateKey, bind, ret, Math_random36. cbv beta iota.
  repeat match goal with
    | |- context [if ?b then _ else _] => destruct b
    end;
    match goal with
    | |- exists _, forall _ _ _, (Return (?a ++ ?b ++ ?c ++ _), _) = _ =>
        exists (a ++ b ++ c)
    | |- exists _, forall _ _ _, (Return (?a ++ _), _) = _ =>
        exists a
    end;
    intros filename t w; rewrite !append_assoc; reflexivity.
Qed.

(** X6. A generated key determines its timestamp, its random id and its
    extension: for one kind and one owner, two calls whose timestamps
    are not negative and whose random ids hold no dot return the same
    key only if the timestamps, the ids and the extensions are the
    same. Keys made at different times, or with different ids, never
    collide. *)
Theorem generateKey_injective env type userId filename1 filename2 t1 t2 w1 w2 key w1' w2' :
  0 <= t1 -> 0 <= t2 ->
  JS.has_char "." (JS.substr 2 9 (random36 env (draws w1))) = false ->
  JS.has_char "." (JS.substr 2 9 (random36 env (draws w2))) = false ->
  generateKey env type userId filename1 (Some t1) w1 = (Return key, w1') ->
  generateKey env type userId filename2 (Some t2) w2 = (Return key, w2') ->
  t1 = t2
  /\ JS.substr 2 9 (random36 env (draws w1)) = JS.substr 2 9 (random36 env (draws w2))
  /\ JS.pop (JS.split "." filename1) = JS.pop (JS.split "." filename2).
Proof.
  intros Ht1 Ht2 Hid1 Hid2 H1 H2.
  destruct (generateKey_parts env type userId) as (prefix & Hparts).
  rewrite Hparts in H1, H2. inversion H1 as [[Hk1 Hw1]]. inversion H2 as [[Hk2 Hw2]].
  rewrite <- Hk2 in Hk1. apply append_cancel in Hk1.
  apply first_separator in Hk1 as [Ht Hrest]; try (apply pretty_no_hyphen; assumption).
  apply (inj pretty) in Ht.
  apply first_separator in Hrest as [Hid Hext]; try assumption.
  repeat split; assumption.
Qed.

Lemma generateKey_injective_witness :
  1700000000000 = 1700000000000
  /\ JS.substr 2 9 (random36 Sample.env (draws Sample.start))
     = JS.substr 2 9 (random36 Sample.env (draws Sample.start))
  /\ JS.pop (JS.split "." "original_cat.png") = JS.pop (JS.split "." "large_cat.png").
Proof.
  apply (generateKey_injective Sample.env "processed" "42" "original_cat.png"
           "large_cat.png" 1700000000000 1700000000000 Sample.start Sample.start
           "processed/user-42/1700000000000-0k3x9q7w1.png"
           (set_draws 1 Sample.start) (set_draws 1 Sample.start));
    try lia; vm_compute; reflexivity.
Defined.

(** The last part of a text that holds a separator is not changed by
    what is put in front of the text. *)
Lemma pop_split_app sep front s :
  JS.has_char sep s = true ->
  JS.pop (JS.split sep (front ++ s)) = JS.pop (JS.split sep s).
Proof.
  intros Hsep. pose proof (split_parts sep s) as Hparts.
  pose proof (pop_no_separator sep s) as Hext.
  destruct (removelast (JS.split sep s)) as [| p parts].
  - rewrite <- Hparts in Hext. congruence.
  - set (ext := JS.pop (JS.split sep s)) in *.
    rewrite Hparts at 1. rewrite <- append_assoc.
    rewrite (split_app_last _ _ _ Hext). unfold JS.pop. apply last_last.
Qed.

(** X7. A filename that holds a dot can be given any prefix without
    changing the key: the server names its derivatives
    [<size>_<originalName>], and the size never shows in their keys. *)
Theorem generateKey_ignores_prefix env type userId front filename timestamp w :
  JS.has_char "." filename = true ->
  generateKey env type userId (front ++ filename) timestamp w
  = generateKey env type userId filename timestamp w.
Proof.
  intros Hdot. unfold generateKey. rewrite (pop_split_app _ _ _ Hdot). reflexivity.
Qed.

Lemma generateKey_ignores_prefix_witness :
  generateKey Sample.env "processed" "42" ("thumbnail_" ++ "cat.png") None Sample.start
  = generateKey Sample.env "processed" "42" "cat.png" None Sample.start.
Proof.
  apply (generateKey_ignores_prefix Sample.env "processed" "42" "thumbnail_" "cat.png"
           None Sample.start).
  reflexivity.
Defined.

(** X8. The public address of an object ends with a slash and its key,
    and different keys have different addresses, whether a public base
    address is configured or not. *)
Theorem getPublicUrl_injective env :
  (forall key, exists base, getPublicUrl env key = base ++ "/" ++ key)
  /\ (forall key1 key2, getPublicUrl env key1 = getPublicUrl env key2 -> key1 = key2).
Proof.
  assert (forall key, exists base, getPublicUrl env key = base ++ "/" ++ key /\
            forall key', getPublicUrl env key' = base ++ "/" ++ key') as Hbase.
  { intros key. unfold getPublicUrl.
    destruct (r2_publicUrl env) as [u |]; [destruct (JS.truthy (JS.Str u)) |].
    - exists u. split; [reflexivity | intros; reflexivity].
    - exists ("https://" ++ r2_bucket env ++ "." ++ r2_accountId env
              ++ ".r2.cloudflarestorage.com").
      split; [| intros key']; rewrite !append_assoc; reflexivity.
    - exists ("https://" ++ r2_bucket env ++ "." ++ r2_accountId env
              ++ ".r2.cloudflarestorage.com").
      split; [| intros key']; rewrite !append_assoc; reflexivity. }
  split.
  - intros key. destruct (Hbase key) as (base & H & _). exists base. exact H.
  - intros key1 key2 H. destruct (Hbase key1) as (base & _ & Hall).
    rewrite !Hall in H. apply append_cancel in H.
    change (String "/" key1 = String "/" key2) in H. inversion H. reflexivity.
Qed.

Lemma getPublicUrl_injective_witness : "cat.png" = "cat.png".
Proof.
  apply (proj2 (getPublicUrl_injective Sample.env) "cat.png" "cat.png"). reflexivity.
Defined.

(** ** Uploading several files *)

Lemma uploadFile_outcome env k fileBuffer contentType meta w :
  (exists result,
     uploadFile env k fileBuffer contentType meta w
     = (Return result,
        set_bucket (bucket w ++ [{| Bucket := r2_bucket env; Key := k;
                                    Body := fileBuffer; ContentType := contentType;
                                    Metadata := meta;
                                    CacheControl := "public, max-age=31536000" |}]) w)
     /\ success result = true
     /\ key result = k
     /\ url result = getPublicUrl env k)
  \/ (exists message,
        uploadFile env k fileBuffer contentType meta w
        = (Throw ("Failed to upload file: " ++ message), w)).
Proof.
  unfold uploadFile. destruct (s3_send env (bucket w) _) as [reply | message].
  - left. eexists. repeat split.
  - right. exists message. reflexivity.
Qed.

Lemma prefix_append (a b : string) : String.prefix a (a ++ b) = true.
Proof.
  induction a as [| c a IH]; [destruct b; reflexivity |].
  change (String c a ++ b) with (String c (a ++ b)). cbn [String.prefix].
  destruct (ascii_dec c c) as [_ | Hne]; [exact IH | destruct (Hne eq_refl)].
Qed.

(** What the loop of [uploadFiles] adds to its results and to the
    bucket. *)
Lemma uploadFiles_from_outcomes env uploads :
  forall acc w,
    exists results added w',
      uploadFiles_from env uploads acc w = (Return (acc ++ results)%list, w')
      /\ bucket w' = (bucket w ++ added)%list
      /\ files w' = files w
      /\ map upload_key results = map up_key uploads
      /\ map (fun c => (Key c, Body c, ContentType c, Metadata c)) added
         = map (fun p => (up_key (fst p), up_buffer (fst p), up_contentType (fst p),
                          up_metadata (fst p)))
             (List.filter (fun p => upload_success (snd p)) (combine uploads results))
      /\ Forall (fun r => match r with
                          | Uploaded result =>
                              success result = true
                              /\ url result = getPublicUrl env (key result)
                          | NotUploaded _ error =>
                              String.prefix "Failed to upload file: " error = true
                          end) results.
Proof.
  induction uploads as [| file rest IH]; intros acc w.
  - exists [], [], w. rewrite !app_nil_r. repeat split. constructor.
  - cbn [uploadFiles_from]. unfold bind at 1, try_catch, bind at 1.
    destruct (uploadFile_outcome env (up_key file) (up_buffer file)
                (up_contentType file) (up_metadata file) w)
      as [(result & Hup & Hok & Hkey & Hurl) | (message & Hup)]; rewrite Hup.
    + cbn [ret].
      destruct (IH (acc ++ [Uploaded result])%list
                  (set_bucket (bucket w ++ [{| Bucket := r2_bucket env;
                                               Key := up_key file;
                                               Body := up_buffer file;
                                               ContentType := up_contentType file;
                                               Metadata := up_metadata file;
                                               CacheControl := "public, max-age=31536000" |}])
                     w))
        as (results & added & w' & Hrun & Hb & Hf & Hkeys & Hadded & Hall).
      eexists (Uploaded result :: results), (_ :: added), w'.
      split; [rewrite Hrun, <- app_assoc; reflexivity |].
      split; [rewrite Hb; cbn [bucket set_bucket]; rewrite <- app_assoc; reflexivity |].
      split; [rewrite Hf; reflexivity |].
      split; [cbn [map upload_key]; rewrite Hkeys, Hkey; reflexivity |].
      split.
      * cbn [combine List.filter upload_success snd]. rewrite Hok.
        cbn [map fst]. rewrite Hadded. reflexivity.
      * constructor; [| exact Hall]. split; [exact Hok |]. rewrite Hkey. exact Hurl.
    + cbn [ret].
      destruct (IH (acc ++ [NotUploaded (up_key file)
                              ("Failed to upload file: " ++ message)])%list w)
        as (results & added & w' & Hrun & Hb & Hf & Hkeys & Hadded & Hall).
      eexists (NotUploaded (up_key file) ("Failed to upload file: " ++ message)
               :: results), added, w'.
      split; [rewrite Hrun, <- app_assoc; reflexivity |].
      split; [exact Hb |]. split; [exact Hf |].
      split; [cbn [map upload_key]; rewrite Hkeys; reflexivity |].
      split; [exact Hadded |].
      constructor; [apply prefix_append | exact Hall].
Qed.

(** X9. [uploadFiles] never throws. It returns one result per file, in
    order and under the file's key; a refused file has success=false
    and an error that starts with [Failed to upload file: ], and does
    not stop the files after it. The bucket gains exactly the files
    whose result has success=true, in order, with their bodies, content
    types and metadata. *)
Theorem uploadFiles_outcomes env uploads w :
  exists results added w',
    uploadFiles env uploads w = (Return results, w')
    /\ bucket w' = (bucket w ++ added)%list
    /\ map upload_key results = map up_key uploads
    /\ map (fun c => (Key c, Body c, ContentType c, Metadata c)) added
       = map (fun p => (up_key (fst p), up_buffer (fst p), up_contentType (fst p),
                        up_metadata (fst p)))
           (List.filter (fun p => upload_success (snd p)) (combine uploads results))
    /\ Forall (fun r => match r with
                        | Uploaded result =>
                            success result = true
                            /\ url result = getPublicUrl env (key result)
                        | NotUploaded _ error =>
                            String.prefix "Failed to upload file: " error = true
                        end) results.
Proof.
  destruct (uploadFiles_from_outcomes env uploads [] w)
    as (results & added & w' & Hrun & Hb & _ & Hkeys & Hadded & Hall).
  exists results, added, w'. repeat split; assumption.
Qed.

(** ** Staging files *)

Lemma foldl_delete_lookup (paths : list string) :
  forall (staging : gmap string bytes) (q : string),
    (In q paths ->
     foldl (fun m path => delete path m) staging paths !! q = None)
    /\ (~ In q paths ->
        foldl (fun m path => delete path m) staging paths !! q = staging !! q).
Proof.
  induction paths as [| p paths IH]; intros staging q; cbn [foldl].
  - split; [intros [] | reflexivity].
  - destruct (IH (delete p staging) q) as [Hin Hout]. split.
    + intros [-> | Hq]; [| exact (Hin Hq)].
      destruct (in_dec string_dec q paths) as [Hq | Hq]; [exact (Hin Hq) |].
      rewrite (Hout Hq). apply lookup_delete_eq.
    + intros Hq. rewrite Hout by (intros H; apply Hq; right; exact H).
      apply lookup_delete_ne. intros ->. apply Hq. left. reflexivity.
Qed.

(** X10. [cleanupTempFiles] never throws, also when a file is already
    gone. Afterwards none of the listed files exists, every other
    staging file is as before, and the bucket is untouched. *)
Theorem cleanupTempFiles_removes filePaths w :
  exists w',
    cleanupTempFiles filePaths w = (Return tt, w')
    /\ (forall path, In path filePaths -> files w' !! path = None)
    /\ (forall path, ~ In path filePaths -> files w' !! path = files w !! path)
    /\ bucket w' = bucket w.
Proof.
  destruct (cleanupTempFiles_Return filePaths w) as (w' & Hrun & Hf & Hb).
  exists w'. split; [exact Hrun |]. rewrite Hf.
  split; [| split; [| exact Hb]]; intros path Hpath;
    apply (foldl_delete_lookup filePaths (files w) path); exact Hpath.
Qed.

Lemma cleanupTempFiles_removes_witness :
  exists w',
    cleanupTempFiles ["/app/media-processor/temp/input_1.mp4";
                      "/app/media-processor/temp/output_1.mp4"] Sample.staged
    = (Return tt, w')
    /\ files w' !! "/app/media-processor/temp/input_1.mp4" = None
    /\ files w' !! "/app/media-processor/temp/other.bin"
       = files Sample.staged !! "/app/media-processor/temp/other.bin".
Proof.
  destruct (cleanupTempFiles_removes
              ["/app/media-processor/temp/input_1.mp4";
               "/app/media-processor/temp/output_1.mp4"] Sample.staged)
    as (w' & Hrun & Hgone & Hkept & _).
  exists w'. split; [exact Hrun |]. split.
  - apply Hgone. left. reflexivity.
  - apply Hkept. intros [H | [H | []]]; discriminate H.
Defined.

(** X11. When a video is processed without an error, in the batch path
    or by [/process-video], the input file, the transcode output and
    the screenshot that the call named are gone from the staging
    directory, and the rest of it is as the transcode left it. *)
Theorem video_success_cleans_staging env :
  (forall file userId w d w',
     processVideoFile env file userId w = (Return d, w') ->
     exists inputPath outputPath thumbnailPath options w4 pv w5,
       files w4 = <[inputPath := buffer file]> (files w)
       /\ processVideo env inputPath outputPath options w4 = (Return pv, w5)
       /\ vo_thumbnailPath options = Some thumbnailPath
       /\ files w' = delete thumbnailPath (delete outputPath (delete inputPath (files w5)))
       /\ files w' !! inputPath = None
       /\ files w' !! outputPath = None
       /\ files w' !! thumbnailPath = None)
  /\ (forall req w message data w',
        process_video env req w = (Ok message data, w') ->
        exists file inputPath outputPath thumbnailPath options w4 pv w5,
          req_upload req = Some file
          /\ files w4 = <[inputPath := buffer file]> (files w)
          /\ processVideo env inputPath outputPath options w4 = (Return pv, w5)
          /\ vo_thumbnailPath options = Some thumbnailPath
          /\ files w' = delete thumbnailPath (delete outputPath (delete inputPath (files w5)))
          /\ files w' !! inputPath = None
          /\ files w' !! outputPath = None
          /\ files w' !! thumbnailPath = None).
Proof.
  split.
  - intros file userId w d w' H.
    apply processVideoFile_Return in H
      as (i & o & t & w4 & pv & w5 & videoPut & thumbnailPut
          & Hf4 & Hrun & _ & _ & _ & _ & _ & _ & _ & _ & Hf).
    eexists i, o, t, _, w4, pv, w5.
    split; [exact Hf4 |]. split; [exact Hrun |]. split; [reflexivity |].
    split; [exact Hf |]. rewrite Hf, !lookup_delete.
    repeat split; repeat case_decide; reflexivity || congruence.
  - intros req w message data w' H.
    apply process_video_Ok in H
      as (file & i & o & t & w4 & pv & w5 & videoPut
          & Hfile & Hf4 & Hrun & _ & _ & _ & _ & _ & Hf).
    eexists file, i, o, t, _, w4, pv, w5.
    split; [exact Hfile |]. split; [exact Hf4 |]. split; [exact Hrun |].
    split; [reflexivity |]. split; [exact Hf |]. rewrite Hf, !lookup_delete.
    repeat split; repeat case_decide; reflexivity || congruence.
Qed.

Lemma video_success_cleans_staging_witness :
  exists inputPath : string,
    files (snd (processVideoFile Sample.env Sample.clip "42" Sample.start))
    !! inputPath = None.
Proof.
  destruct (processVideoFile Sample.env Sample.clip "42" Sample.start)
    as [[d | e] w'] eqn:Hrun.
  - destruct (proj1 (video_success_cleans_staging Sample.env) Sample.clip "42"
                Sample.start d w' Hrun)
      as (i & o & t & options & w4 & pv & w5 & _ & _ & _ & _ & Hgone & _).
    exists i. exact Hgone.
  - vm_compute in Hrun. discriminate Hrun.
Defined.

(** When the body of [/process-video] throws, no staging file has been
    removed. *)
Lemma process_video_Throw env req file w response w' :
  req_upload req = Some file ->
  process_video env req w = (response, w') ->
  (exists message data, response = Ok message data)
  \/ (exists inputPath outputPath options,
        files w'
        = files_after
            (ffmpeg_run env (command inputPath outputPath options)
               (<[inputPath := buffer file]> (files w)))).
Proof.
  intros Hfile H. unfold process_video, handler in H. rewrite Hfile in H.
  match type of H with
  | context [match ?body w with _ => _ end] =>
      destruct (body w) as [[answered | message] w1] eqn:Hbody
  end.
  - left. inversion H; subst. clear H.
    do 11 bind_inv Hbody. bind_inv Hbody. bind_inv Hbody.
    apply ret_Return in Hbody as [-> _]. eexists _, _. reflexivity.
  - right. inversion H; subst. clear H. rename Hbody into H.
    throw_inv H; [discriminate H |]. apply ret_Return in H_head as [_ ->].
    throw_inv H; [destruct (Date_now_total _ _ _ _ H) |].
    apply Date_now_inv in H_head as (-> & _ & Hf1).
    throw_inv H; [destruct (Date_now_total _ _ _ _ H) |].
    apply Date_now_inv in H_head as (-> & _ & Hf2).
    throw_inv H; [destruct (Date_now_total _ _ _ _ H) |].
    apply Date_now_inv in H_head as (-> & _ & Hf3).
    throw_inv H; [discriminate H |].
    apply fs_writeFile_inv in H_head as (Hf4 & _).
    rewrite Hf3, Hf2, Hf1 in Hf4.
    do 3 eexists.
    throw_inv H.
    { apply processVideo_Throw in H as (_ & Hf & _). rewrite Hf, Hf4. reflexivity. }
    apply processVideo_Return in H_head as (_ & Hf5 & _). rewrite Hf4 in Hf5.
    rewrite <- Hf5. clear Hf5 Hf4 Hf3 Hf2 Hf1.
    throw_inv H; [destruct (Date_now_total _ _ _ _ H) |].
    apply Date_now_inv in H_head as (-> & _ & Hf6).
    throw_inv H; [destruct (generateKey_total _ _ _ _ _ _ _ _ H) |].
    apply generateKey_inv in H_head as (_ & Hf7).
    throw_inv H.
    { apply fs_readFile_Throw in H as ->. rewrite Hf7, Hf6. reflexivity. }
    apply fs_readFile_Return in H_head as (-> & _).
    throw_inv H; [destruct (Date_toISOString_total _ _ _ _ H) |].
    apply Date_toISOString_inv in H_head as (_ & Hf9).
    throw_inv H.
    { apply uploadFile_Throw in H as ->. rewrite Hf9, Hf7, Hf6. reflexivity. }
    apply uploadFile_inv in H_head as (_ & Hf10 & _).
    throw_inv H.
    + match type of H with
      | (if ?c then _ else _) _ = _ => destruct c
      end; [| discriminate H].
      throw_inv H; [destruct (generateKey_total _ _ _ _ _ _ _ _ H) |].
      apply generateKey_inv in H_head as (_ & Hf11).
      throw_inv H.
      { apply fs_readFile_Throw in H as ->.
        rewrite Hf11, Hf10, Hf9, Hf7, Hf6. reflexivity. }
      apply fs_readFile_Return in H_head as (-> & _).
      throw_inv H; [destruct (Date_toISOString_total _ _ _ _ H) |].
      apply Date_toISOString_inv in H_head as (_ & Hf13).
      throw_inv H; [| discriminate H].
      apply uploadFile_Throw in H as ->.
      rewrite Hf13, Hf11, Hf10, Hf9, Hf7, Hf6. reflexivity.
    + throw_inv H; [destruct (cleanupTempFiles_total _ _ _ _ H) |].
      discriminate H.
Qed.

(** X12. When a video fails after its input was staged, nothing is
    cleaned up: the staging directory is left exactly as the transcode
    left it. This holds for a video file that the batch records as
    failed and for every answer of [/process-video] other than
    success. *)
Theorem video_failure_keeps_staging env :
  (forall file userId w entry w',
     isVideo (mimetype file) = true ->
     batch_file env file userId w = (Return entry, w') ->
     item_success entry = false ->
     exists inputPath outputPath options,
       files w'
       = files_after
           (ffmpeg_run env (command inputPath outputPath options)
              (<[inputPath := buffer file]> (files w))))
  /\ (forall req file w status error message w',
        req_upload req = Some file ->
        process_video env req w = (Fail status error message, w') ->
        exists inputPath outputPath options,
          files w'
          = files_after
              (ffmpeg_run env (command inputPath outputPath options)
                 (<[inputPath := buffer file]> (files w)))).
Proof.
  split.
  - intros file userId w entry w' Hvideo Hrun Hfailed.
    unfold batch_file, try_catch in Hrun.
    rewrite (video_is_not_image _ Hvideo), Hvideo in Hrun. unfold bind in Hrun.
    destruct (processVideoFile env file userId w) as [[d | e] w1] eqn:Hfile;
      unfold ret in Hrun; inversion Hrun; subst.
    + discriminate Hfailed.
    + apply processVideoFile_Throw in Hfile as (i & o & t & Hf).
      eexists i, o, _. exact Hf.
  - intros req file w status error message w' Hfile Hrun.
    destruct (process_video_Throw env req file w _ w' Hfile Hrun)
      as [(m & d & Hok) | Hkept]; [discriminate Hok | exact Hkept].
Qed.

Lemma video_failure_keeps_staging_witness :
  exists inputPath outputPath options,
    files (snd (batch_file
                  (Sample.make Sample.encode Sample.transcode_fails Sample.put)
                  Sample.clip "42" Sample.start))
    = files_after
        (ffmpeg_run (Sample.make Sample.encode Sample.transcode_fails Sample.put)
           (command inputPath outputPath options)
           (<[inputPath := buffer Sample.clip]> (files Sample.start))).
Proof.
  destruct (batch_file (Sample.make Sample.encode Sample.transcode_fails Sample.put)
              Sample.clip "42" Sample.start) as [[entry | e] w'] eqn:Hrun.
  - apply (proj1 (video_failure_keeps_staging
                    (Sample.make Sample.encode Sample.transcode_fails Sample.put))
             Sample.clip "42" Sample.start entry w').
    + reflexivity.
    + exact Hrun.
    + vm_compute in Hrun. inversion Hrun. reflexivity.
  - vm_compute in Hrun. discriminate Hrun.
Defined.

Lemma processImageFile_staging env file userId w r w' :
  processImageFile env file userId w = (r, w') -> files w' = files w.
Proof.
  intros H. unfold processImageFile in H.
  apply image_uploads in H as (t & m & l & added & _ & Hf & _). exact Hf.
Qed.

Lemma batch_file_staging env file userId w r w' :
  isVideo (mimetype file) = false ->
  batch_file env file userId w = (r, w') -> files w' = files w.
Proof.
  intros Hvideo H. unfold batch_file, try_catch in H. rewrite Hvideo in H.
  destruct (isImage (mimetype file)).
  - unfold bind in H.
    destruct (processImageFile env file userId w) as [[d | e] w1] eqn:Hfile;
      apply processImageFile_staging in Hfile; unfold ret in H; inversion H; subst;
      exact Hfile.
  - unfold ret in H. inversion H. reflexivity.
Qed.

(** X13. Images are processed in memory. Neither [/process-image] nor
    the batch path for an image writes, changes or removes a staging
    file, whether the processing succeeds or fails; a batch without a
    video leaves the staging directory as it found it. *)
Theorem images_leave_staging env :
  (forall req w response w',
     process_image env req w = (response, w') -> files w' = files w)
  /\ (forall file userId w r w',
        processImageFile env file userId w = (r, w') -> files w' = files w)
  /\ (forall uploads userId acc w r w',
        Forall (fun file => isVideo (mimetype file) = false) uploads ->
        batch_files env uploads userId acc w = (r, w') -> files w' = files w).
Proof.
  split; [| split].
  - intros req w response w' H. unfold process_image, handler in H.
    destruct (req_upload req) as [file |];
      [| unfold ret in H; inversion H; reflexivity].
    unfold bind at 1 in H.
    match type of H with
    | context [match ?parse w with _ => _ end] =>
        assert (exists r, parse w = (r, w)) as ([parsed | e] & Hparse)
    end.
    { destruct (body_resize (req_body req)) as [text |];
        [destruct (JS.truthy (JS.Str text)) |]; eexists; reflexivity. }
    + rewrite Hparse in H.
      match type of H with
      | context [match ?m w with _ => _ end] =>
          destruct (m w) as [r w1] eqn:Hrun
      end.
      apply image_uploads in Hrun as (t & m & l & added & _ & Hf & _).
      destruct r; inversion H; subst; exact Hf.
    + rewrite Hparse in H. inversion H. reflexivity.
  - intros file userId w r w'. apply processImageFile_staging.
  - intros uploads userId. induction uploads as [| file rest IH];
      intros acc w r w' Hall H.
    + unfold batch_files, ret in H. inversion H. reflexivity.
    + inversion Hall as [| ? ? Hfile Hrest]; subst.
      cbn [batch_files] in H. unfold bind at 1 in H.
      destruct (batch_file env file userId w) as [[entry | e] w1] eqn:Hentry;
        apply (batch_file_staging _ _ _ _ _ _ Hfile) in Hentry.
      * apply IH in H; [| exact Hrest]. rewrite H. exact Hentry.
      * inversion H; subst. exact Hentry.
Qed.

Lemma images_leave_staging_witness :
  files (snd (process_image Sample.env (Sample.request (Some Sample.photo)) Sample.staged))
  = files Sample.staged.
Proof.
  apply (proj1 (images_leave_staging Sample.env) (Sample.request (Some Sample.photo))
           Sample.staged
           (fst (process_image Sample.env (Sample.request (Some Sample.photo))
                   Sample.staged))).
  destruct (process_image Sample.env (Sample.request (Some Sample.photo)) Sample.staged).
  reflexivity.
Defined.

(** ** The fields of [/process-video] *)

(** One awaited step, taken in two runs of a handler at once. *)
Ltac handlers_step :=
  rewrite !handler_bind;
  match goal with
  | |- match ?m with _ => _ end = match ?m' with _ => _ end =>
      let a := fresh "a" in
      let e := fresh "e" in
      let w := fresh "w" in
      change m' with m; destruct m as [[a | e] w]; [| reflexivity]
  end.

Lemma processVideo_same_thumbnail_choice env inputPath outputPath quality format
    choice1 choice2 thumbnailPath w :
  JS.truthy (JS.or_default choice1 (JS.Bool true))
  = JS.truthy (JS.or_default choice2 (JS.Bool true)) ->
  processVideo env inputPath outputPath
    {| vo_quality := quality; vo_format := format;
       vo_generateThumbnail := choice1; vo_thumbnailPath := thumbnailPath |} w
  = processVideo env inputPath outputPath
      {| vo_quality := quality; vo_format := format;
         vo_generateThumbnail := choice2; vo_thumbnailPath := thumbnailPath |} w.
Proof.
  intros H. unfold processVideo, command.
  cbn [vo_quality vo_format vo_generateThumbnail vo_thumbnailPath].
  rewrite H. reflexivity.
Qed.

(** X14. In [/process-video] the [generateThumbnail] field is a text,
    and every text but the empty one counts as true: a request that
    sends [false] or [0] is handled exactly as a request without the
    field, screenshot and thumbnail upload included. *)
Theorem generateThumbnail_text_is_true env userId quality format resize text upload w :
  text <> "" ->
  process_video env
    {| req_userId := userId;
       req_body := {| body_quality := quality; body_format := format;
                      body_resize := resize;
                      body_generateThumbnail := Some text |};
       req_upload := upload |} w
  = process_video env
      {| req_userId := userId;
         req_body := {| body_quality := quality; body_format := format;
                        body_resize := resize;
                        body_generateThumbnail := None |};
         req_upload := upload |} w.
Proof.
  intros Htext.
  assert (JS.truthy (JS.Str text) = true) as Htrue.
  { cbn [JS.truthy]. destruct (String.eqb_spec text ""); [contradiction | reflexivity]. }
  unfold process_video.
  cbn [req_upload req_body req_userId body_quality body_format body_generateThumbnail
       of_text JS.or_default].
  destruct upload as [file |]; [| reflexivity].
  do 5 handlers_step.
  rewrite !handler_bind.
  rewrite (processVideo_same_thumbnail_choice env _ _ _ _ (JS.Str text) (JS.Bool true))
    by (cbn [JS.or_default]; rewrite Htrue; reflexivity).
  match goal with
  | |- match ?m with _ => _ end = _ => destruct m as [[pv | e] w5]; [| reflexivity]
  end.
  do 5 handlers_step.
  rewrite Htrue. cbn [JS.truthy].
  reflexivity.
Qed.

Lemma generateThumbnail_text_is_true_witness :
  process_video Sample.env
    {| req_userId := "42";
       req_body := {| body_quality := None; body_format := None; body_resize := None;
                      body_generateThumbnail := Some "false" |};
       req_upload := Some Sample.clip |} Sample.start
  = process_video Sample.env
      {| req_userId := "42";
         req_body := {| body_quality := None; body_format := None; body_resize := None;
                        body_generateThumbnail := None |};
         req_upload := Some Sample.clip |} Sample.start.
Proof.
  apply (generateThumbnail_text_is_true Sample.env "42" None None None "false"
           (Some Sample.clip) Sample.start).
  discriminate.
Defined.

(** X15. With an empty [generateThumbnail] field, [/process-video]
    takes no screenshot, and a successful answer carries no thumbnail:
    the video is the only object that the request adds to the bucket. *)
Theorem empty_generateThumbnail_skips_thumbnail env req w message data w' :
  body_generateThumbnail (req_body req) = Some "" ->
  process_video env req w = (Ok message data, w') ->
  vd_thumbnail data = None
  /\ (exists videoPut,
        bucket w' = (bucket w ++ [videoPut])%list
        /\ type_tag videoPut = JS.Str "processed_video")
  /\ exists inputPath outputPath options w4 pv w5,
       processVideo env inputPath outputPath options w4 = (Return pv, w5)
       /\ screenshots (command inputPath outputPath options) = None.
Proof.
  intros Hfield H.
  apply process_video_Ok in H
    as (file & i & o & t & w4 & pv & w5 & videoPut
        & _ & _ & Hrun & _ & Htype & _ & _ & Hthumbnail & _).
  rewrite Hfield in Hthumbnail, Hrun. cbn in Hthumbnail.
  destruct Hthumbnail as [Hb Hnone].
  split; [exact Hnone |]. split.
  - exists videoPut. split; assumption.
  - eexists i, o, _, w4, pv, w5. split; [exact Hrun |]. reflexivity.
Qed.

Lemma empty_generateThumbnail_skips_thumbnail_witness :
  exists videoPut,
    bucket (snd (process_video Sample.env
                   {| req_userId := "42";
                      req_body := {| body_quality := None; body_format := None;
                                     body_resize := None;
                                     body_generateThumbnail := Some "" |};
                      req_upload := Some Sample.clip |} Sample.start))
    = (bucket Sample.start ++ [videoPut])%list
    /\ type_tag videoPut = JS.Str "processed_video".
Proof.
  destruct (process_video Sample.env
              {| req_userId := "42";
                 req_body := {| body_quality := None; body_format := None;
                                body_resize := None;
                                body_generateThumbnail := Some "" |};
                 req_upload := Some Sample.clip |} Sample.start)
    as [[message data | status error message] w'] eqn:Hrun.
  - pose proof (fun Hfield =>
                  empty_generateThumbnail_skips_thumbnail Sample.env _ _ message data w'
                    Hfield Hrun) as Hskip.
    destruct (Hskip eq_refl) as (_ & Hput & _). exact Hput.
  - vm_compute in Hrun. discriminate Hrun.
Defined.

Lemma unknown_preset_bitrate (quality : JS.value) :
  quality <> JS.Str "low" ->
  quality <> JS.Str "high" ->
  match quality with
  | JS.Str "low" => "500k"
  | JS.Str "medium" => "1000k"
  | JS.Str "high" => "2000k"
  | _ => "1000k"
  end = "1000k".
Proof.
  intros Hlow Hhigh. destruct quality as [| | | | s | |]; try reflexivity.
  repeat (destruct s as [| [[|] [|] [|] [|] [|] [|] [|] [|]] s];
          try reflexivity; try (exfalso; congruence)).
Qed.

(** X16. A quality that is neither [low] nor [high], whatever else it
    is, is transcoded exactly as [medium] is; so is a missing one. *)
Theorem unknown_quality_is_medium env inputPath outputPath quality format choice
    thumbnailPath w :
  quality <> JS.Str "low" ->
  quality <> JS.Str "high" ->
  processVideo env inputPath outputPath
    {| vo_quality := quality; vo_format := format;
       vo_generateThumbnail := choice; vo_thumbnailPath := thumbnailPath |} w
  = processVideo env inputPath outputPath
      {| vo_quality := JS.Str "medium"; vo_format := format;
         vo_generateThumbnail := choice; vo_thumbnailPath := thumbnailPath |} w.
Proof.
  intros Hlow Hhigh. unfold processVideo, command.
  cbn [vo_quality vo_format vo_generateThumbnail vo_thumbnailPath].
  assert (JS.or_default quality (JS.Str "medium") <> JS.Str "low") as Hlow'.
  { destruct quality; cbn; congruence. }
  assert (JS.or_default quality (JS.Str "medium") <> JS.Str "high") as Hhigh'.
  { destruct quality; cbn; congruence. }
  rewrite (unknown_preset_bitrate _ Hlow' Hhigh'). reflexivity.
Qed.

Lemma unknown_quality_is_medium_witness :
  processVideo Sample.env "/app/media-processor/temp/input_1.mp4"
    "/app/media-processor/temp/output_1.mp4"
    {| vo_quality := JS.Str "ultra"; vo_format := JS.Str "mp4";
       vo_generateThumbnail := JS.Bool false; vo_thumbnailPath := None |}
    Sample.staged
  = processVideo Sample.env "/app/media-processor/temp/input_1.mp4"
      "/app/media-processor/temp/output_1.mp4"
      {| vo_quality := JS.Str "medium"; vo_format := JS.Str "mp4";
         vo_generateThumbnail := JS.Bool false; vo_thumbnailPath := None |}
      Sample.staged.
Proof.
  apply (unknown_quality_is_medium Sample.env); discriminate.
Defined.

(** ** The token check *)

Lemma split_app_first sep a b :
  JS.has_char sep a = false ->
  JS.split sep (a ++ String sep b) = a :: JS.split sep b.
Proof.
  intros Ha. induction a as [| c a IH].
  - change ("" ++ String sep b) with (String sep b). cbn [JS.split].
    rewrite Ascii.eqb_refl. reflexivity.
  - change (String c a ++ String sep b) with (String c (a ++ String sep b)).
    cbn [JS.has_char] in Ha. apply orb_false_elim in Ha as [Hc Ha].
    cbn [JS.split]. rewrite Hc, (IH Ha). reflexivity.
Qed.

Lemma header_truthy a b : JS.truthy (JS.Str (a ++ String " " b)) = true.
Proof. destruct a; reflexivity. Qed.

Section TokenCheck.

Context (jwt_verify : string -> outcome JS.value).

(** X17. The token check never looks at the scheme of the header: what
    stands before the first space can be [Bearer], [Basic] or nothing
    at all, the answer is the same. *)
Theorem authenticateToken_ignores_scheme scheme1 scheme2 rest :
  JS.has_char " " scheme1 = false ->
  JS.has_char " " scheme2 = false ->
  authenticateToken jwt_verify (Some (scheme1 ++ " " ++ rest))
  = authenticateToken jwt_verify (Some (scheme2 ++ " " ++ rest)).
Proof.
  intros H1 H2. unfold authenticateToken. cbn [of_text default from_option id].
  change (scheme1 ++ " " ++ rest) with (scheme1 ++ String " " rest).
  change (scheme2 ++ " " ++ rest) with (scheme2 ++ String " " rest).
  rewrite !header_truthy, (split_app_first _ _ _ H1), (split_app_first _ _ _ H2).
  reflexivity.
Qed.

(** X18. The handler behind the token check runs only for a header
    whose second space-separated piece is not empty and is accepted by
    [jwt.verify], with what [jwt.verify] returned as the user. A header
    that is missing, or holds no space, or has two spaces after the
    scheme, is answered 401 without the verifier's verdict mattering;
    a piece that the verifier rejects is answered 403. *)
Theorem authenticateToken_outcomes :
  (forall authorization user,
     authenticateToken jwt_verify authorization = Next user ->
     exists header token,
       authorization = Some header
       /\ nth_error (JS.split " " header) 1 = Some token
       /\ token <> ""
       /\ jwt_verify token = Return user)
  /\ authenticateToken jwt_verify None = Denied 401 "Access token required"
  /\ (forall header,
        JS.has_char " " header = false ->
        authenticateToken jwt_verify (Some header) = Denied 401 "Access token required")
  /\ (forall scheme rest,
        JS.has_char " " scheme = false ->
        authenticateToken jwt_verify (Some (scheme ++ "  " ++ rest))
        = Denied 401 "Access token required")
  /\ (forall scheme token message,
        JS.has_char " " scheme = false ->
        JS.has_char " " token = false ->
        token <> "" ->
        jwt_verify token = Throw message ->
        authenticateToken jwt_verify (Some (scheme ++ " " ++ token))
        = Denied 403 "Invalid token").
Proof.
  split; [| split; [| split; [| split]]].
  - intros authorization user H. unfold authenticateToken in H.
    destruct authorization as [header |]; [| discriminate H].
    cbn [of_text default from_option id] in H.
    destruct (JS.truthy (JS.Str header)) eqn:Hheader.
    + destruct (nth_error (JS.split " " header) 1) as [token |] eqn:Hpiece;
        [| discriminate H].
      cbn [of_text] in H.
      destruct (JS.truthy (JS.Str token)) eqn:Htoken; [| discriminate H].
      cbn [negb] in H.
      destruct (jwt_verify token) as [decoded | e] eqn:Hverify; inversion H; subst.
      exists header, token. split; [reflexivity |]. split; [exact Hpiece |].
      split; [intros ->; discriminate Htoken | exact Hverify].
    + rewrite Hheader in H. discriminate H.
  - reflexivity.
  - intros header Hspace. unfold authenticateToken. cbn [of_text default from_option id].
    rewrite (split_without_separator _ _ Hspace).
    destruct (JS.truthy (JS.Str header)) eqn:Hheader; [reflexivity |].
    rewrite Hheader. reflexivity.
  - intros scheme rest Hscheme. unfold authenticateToken. cbn [of_text default from_option id].
    change (scheme ++ "  " ++ rest) with (scheme ++ String " " (String " " rest)).
    rewrite header_truthy, (split_app_first _ _ _ Hscheme).
    cbn [JS.split]. rewrite Ascii.eqb_refl. reflexivity.
  - intros scheme token message Hscheme Htoken Hne Hverify.
    unfold authenticateToken. cbn [of_text default from_option id].
    change (scheme ++ " " ++ token) with (scheme ++ String " " token).
    rewrite header_truthy, (split_app_first _ _ _ Hscheme),
      (split_without_separator _ _ Htoken).
    cbn [nth_error of_text JS.truthy].
    destruct (String.eqb_spec token ""); [contradiction |].
    cbn [negb]. rewrite Hverify. reflexivity.
Qed.

End TokenCheck.

(** A verifier that accepts one token. *)
Lemma authenticateToken_ignores_scheme_witness :
  let verify := fun token =>
    if String.eqb token "abc.def.ghi"
    then Return (JS.Obj [("userId", JS.Str "42")]) else Throw "invalid signature" in
  authenticateToken verify (Some ("Basic" ++ " " ++ "abc.def.ghi"))
  = authenticateToken verify (Some ("Bearer" ++ " " ++ "abc.def.ghi")).
Proof.
  cbv zeta. apply authenticateToken_ignores_scheme; reflexivity.
Defined.

Lemma authenticateToken_outcomes_witness :
  let verify := fun token =>
    if String.eqb token "abc.def.ghi"
    then Return (JS.Obj [("userId", JS.Str "42")]) else Throw "invalid signature" in
  authenticateToken verify (Some ("Bearer" ++ "  " ++ "abc.def.ghi"))
  = Denied 401 "Access token required".
Proof.
  cbv zeta.
  apply (proj1 (proj2 (proj2 (proj2 (authenticateToken_outcomes _)))) "Bearer"
           "abc.def.ghi").
  reflexivity.
Defined.

(** ** More on batches and image requests *)

(** X19. A batch can be cut anywhere: processing the files of two lists
    in one batch gives the outcomes of the first list followed by the
    outcomes of the second list processed from the state that the first
    left, and ends in the same state. No file's outcome depends on the
    outcomes recorded before it. *)
Theorem batch_files_compose env userId first second w :
  exists entries1 w1 entries2 w',
    batch_files env first userId [] w = (Return entries1, w1)
    /\ batch_files env second userId [] w1 = (Return entries2, w')
    /\ batch_files env (first ++ second) userId [] w
       = (Return (entries1 ++ entries2)%list, w')
    /\ length entries1 = length first
    /\ length entries2 = length second.
Proof.
  destruct (batch_files_Return env userId first [] w)
    as (entries1 & w1 & _ & Hfirst & Hnames1).
  destruct (batch_files_Return env userId second entries1 w1)
    as (entries2 & w' & Hacc & Hsecond & Hnames2).
  exists entries1, w1, entries2, w'.
  split; [exact Hfirst |]. split; [exact Hsecond |]. split.
  - rewrite batch_files_app, Hfirst. exact Hacc.
  - split.
    + rewrite <- (length_map item_name), Hnames1, length_map. reflexivity.
    + rewrite <- (length_map item_name), Hnames2, length_map. reflexivity.
Qed.

Lemma processImage_null_resize env buffer quality format resize w results w' :
  processImage env buffer
    {| io_quality := quality; io_format := format; io_resize := resize |} w
  = (Return results, w') ->
  processImage env buffer
    {| io_quality := quality; io_format := format; io_resize := JS.Null |} w
  = (Return results, w').
Proof.
  intros H. apply processImage_without_resize in H. exact H.
Qed.

(** X20. The [resize] field of [/process-image] can make a request
    fail but cannot change a successful answer: a request that is
    answered with success gets the very same answer, and leaves the
    same state, without the field. A resize text that [JSON.parse]
    rejects is answered 500 with the parser's message before anything
    is read from the clock, processed or uploaded. *)
Theorem resize_field_is_ineffective env userId quality format thumbnail text upload w :
  (forall message data w',
     process_image env
       {| req_userId := userId;
          req_body := {| body_quality := quality; body_format := format;
                         body_resize := Some text;
                         body_generateThumbnail := thumbnail |};
          req_upload := upload |} w = (Ok message data, w') ->
     process_image env
       {| req_userId := userId;
          req_body := {| body_quality := quality; body_format := format;
                         body_resize := None;
                         body_generateThumbnail := thumbnail |};
          req_upload := upload |} w = (Ok message data, w'))
  /\ (forall file error,
        upload = Some file ->
        text <> "" ->
        JSON_parse env text = Throw error ->
        process_image env
          {| req_userId := userId;
             req_body := {| body_quality := quality; body_format := format;
                            body_resize := Some text;
                            body_generateThumbnail := thumbnail |};
             req_upload := upload |} w
        = (Fail 500 "Failed to process image" (Some error), w)).
Proof.
  split.
  - intros message data w' H.
    unfold process_image in *. cbn [req_upload req_body req_userId body_quality
      body_format body_resize] in *.
    destruct upload as [file |]; [| exact H].
    apply handler_Ok in H.
    bind_inv H.
    assert (w0 = w) as ->.
    { destruct (JS.truthy (JS.Str text)).
      - inversion H_head. reflexivity.
      - apply ret_Return in H_head as [_ ->]. reflexivity. }
    clear H_head.
    bind_inv H. apply processImage_null_resize in H_head.
    unfold handler, bind at 1. cbn [ret]. unfold bind at 1. rewrite H_head.
    rewrite H. reflexivity.
  - intros file error -> Htext Hparse.
    unfold process_image, handler. cbn [req_upload req_body body_resize].
    unfold bind at 1.
    assert (JS.truthy (JS.Str text) = true) as ->.
    { cbn [JS.truthy]. destruct (String.eqb_spec text ""); [contradiction | reflexivity]. }
    rewrite Hparse. reflexivity.
Qed.

Lemma resize_field_is_ineffective_witness :
  process_image Sample.env
    {| req_userId := "42";
       req_body := {| body_quality := Some "85"; body_format := None;
                      body_resize := None; body_generateThumbnail := None |};
       req_upload := Some Sample.photo |} Sample.start
  = process_image Sample.env Sample.resized Sample.start.
Proof.
  destruct (process_image Sample.env Sample.resized Sample.start)
    as [[message data | status error message] w'] eqn:Hrun.
  - apply (proj1 (resize_field_is_ineffective Sample.env "42" (Some "85") None None
                    Sample.resize_text (Some Sample.photo) Sample.start)
             message data w').
    exact Hrun.
  - vm_compute in Hrun. discriminate Hrun.
Defined.






(** X23. No MIME type counts as an image and as a video: the order in
    which the batch loop asks [isImage] and [isVideo] does not matter. *)
Theorem mime_kinds_are_disjoint mimetype :
  (isImage mimetype && isVideo mimetype)%bool = false.
Proof.
  destruct (isVideo mimetype) eqn:Hvideo; [| apply andb_false_r].
  rewrite (video_is_not_image _ Hvideo). reflexivity.
Qed.
